(** * GCP machine-pool actuator: name leases, topology lookup, machine sets

    A shallow embedding of [pkg/controller/remotemachineset/gcpactuator.go].
    Go strings are byte sequences, so they are Rocq [string]s (lists of
    8-bit [ascii]).  Calls that leave the process (the Kubernetes client,
    the GCP client, the random source, map iteration order) answer from a
    [World] of responses, and every call made is recorded in a log. *)

From Stdlib Require Import Ascii String.
From stdpp Require Import base decidable option list strings gmap.

Local Open Scope string_scope.
Local Open Scope nat_scope.
Local Open Scope list_scope.
Local Open Scope stdpp_scope.

(** ** Go built-ins and package [strings], [fmt], [errors] *)

Module strings.

(** [strings.Split(s, sep)] for a one-byte separator: the pieces between
    the separators, so a string without separator gives one piece. *)
Fixpoint Split (s : string) (sep : ascii) : list string :=
  match s with
  | EmptyString => [EmptyString]
  | String c rest =>
      if decide (c = sep) then EmptyString :: Split rest sep
      else match Split rest sep with
           | [] => [String c EmptyString]
           | piece :: pieces => String c piece :: pieces
           end
  end.

(** [s[len(s)-1]]: the last byte; indexing an empty string panics, which
    is [None] here. *)
Fixpoint lastByte (s : string) : option ascii :=
  match s with
  | EmptyString => None
  | String c EmptyString => Some c
  | String _ rest => lastByte rest
  end.

End strings.

(** A rune is a code point.  The runes of this file are bytes widened by
    [rune(b)] or taken from an ASCII constant, so they are kept as the
    byte value. *)
Definition rune := ascii.

(** [string(r)]: the UTF-8 encoding of a code point below 256. *)
Definition string_of_rune (r : rune) : string :=
  let n := N_of_ascii r in
  if decide (n < 128)%N then String r EmptyString
  else String (ascii_of_N (192 + n / 64)) (String (ascii_of_N (128 + n mod 64)) EmptyString).

(** [for _, char := range s] over an ASCII constant. *)
Fixpoint runes (s : string) : list rune :=
  match s with
  | EmptyString => []
  | String c rest => c :: runes rest
  end.

Definition error := string.

Module errors.
Definition New (msg : string) : error := msg.
(** [errors.Wrap(err, msg)] is nil on a nil error. *)
Definition Wrap (err : option error) (msg : string) : option error :=
  match err with
  | None => None
  | Some e => Some (msg +:+ ": " +:+ e)
  end.
End errors.

(** ** Data model *)

Module metav1.
Record OwnerReference := {
  APIVersion : string;
  Kind : string;
  OwnerName : string;
  OwnerUID : string;
  Controller : option bool;
}.
End metav1.

Module corev1.
Inductive ConditionStatus := ConditionTrue | ConditionFalse | ConditionUnknown.
Global Instance ConditionStatus_eq_dec : EqDecision ConditionStatus.
Proof. solve_decision. Defined.
End corev1.

Module hivev1.

Inductive MachinePoolConditionType :=
| NotEnoughReplicasMachinePoolCondition
| NoMachinePoolNameLeasesAvailable.
Global Instance MachinePoolConditionType_eq_dec : EqDecision MachinePoolConditionType.
Proof. solve_decision. Defined.

(** The probe and transition times of a condition are left out. *)
Record MachinePoolCondition := {
  Type_ : MachinePoolConditionType;
  Status : corev1.ConditionStatus;
  Reason : string;
  Message : string;
}.

Record GCPMachinePool := {
  Zones : list string;
  InstanceType : string;
}.

Record MachinePool := {
  Name : string;
  Namespace : string;
  UID : string;
  Spec_Name : string;
  Spec_Replicas : option Z;
  Spec_Platform_GCP : option GCPMachinePool;
  Status_Conditions : list MachinePoolCondition;
}.

Record ClusterMetadata := { InfraID : string }.
Record GCPPlatform := { Region : string }.

Record ClusterDeployment := {
  cd_Name : string;
  cd_Labels : gmap string string;
  Spec_ClusterMetadata : option ClusterMetadata;
  Spec_Platform_GCP_ : option GCPPlatform;
}.

Record MachinePoolNameLease := {
  lease_Name : string;
  lease_Namespace : string;
  lease_Labels : gmap string string;
  lease_OwnerReferences : list metav1.OwnerReference;
}.

End hivev1.

Module machineapi.
(** Of a machine set only the object name is read here. *)
Record MachineSet := { ms_Name : string }.
End machineapi.

Module installertypes.
Record OSDisk := { DiskType : string; DiskSizeGB : Z }.
Record GCPMachinePool := {
  Zones : list string;
  InstanceType : string;
  OSDisk_ : OSDisk;
}.
Record MachinePool := {
  Name : string;
  Replicas : option Z;
  Platform_GCP : option GCPMachinePool;
}.
Record InstallConfig := { Region : string; ProjectID : string }.
End installertypes.

Module gcpclient.
Record ListComputeZonesOptions := { Filter : string; PageToken : string }.
Record ListComputeImagesOptions := { ImagesFilter : string }.
Record Zone := { ZoneName : string }.
Record ZoneList := { ZoneItems : list Zone; NextPageToken : string }.
Record Image := { ImageName : string }.
Record ImageList := { ImageItems : list Image }.
End gcpclient.

(** [m[k]] on a Go [map[string]string]: the zero value when [k] is absent. *)
Definition label (m : gmap string string) (k : string) : string :=
  default EmptyString (m !! k).

(** ** Names from other files of the repository and from libraries

    The label constants, [getClusterVersion], [baseMachinePool],
    [workerUserData] and [workerRole] live in other files of the
    repository; [semver] and the installer's [MachineSets] are third-party.
    They are an interface that the actuator is stated over. *)

Class Package := {
  MachinePoolNameLabel : string;
  ClusterDeploymentNameLabel : string;
  semver_Version : Type;
  (** [semver.ParseTolerant]: [None] when it returns an error. *)
  semver_ParseTolerant : string -> option semver_Version;
  (** [versionsSupportingFullNames = semver.MustParseRange(">=4.4.7")]. *)
  versionsSupportingFullNames : semver_Version -> bool;
  getClusterVersion : hivev1.ClusterDeployment -> string * option error;
  baseMachinePool : hivev1.MachinePool -> installertypes.MachinePool;
  workerUserData : string -> string * option error;
  workerRole : string;
  installgcp_MachineSets :
    string -> installertypes.InstallConfig -> installertypes.MachinePool ->
    string -> string -> string -> list machineapi.MachineSet * option error;
}.

(** ** [controllerutils]: status conditions and expectations *)

Module controllerutils.

Definition UpdateConditionCheck := string -> string -> string -> string -> bool.

(** Modelled from the spec: [UpdateConditionIfReasonOrMessageChange] lives in
    [pkg/controller/utils], outside the sources at hand; the spec's
    set-if-changed idiom compares the reason and the message (the truth
    value is compared by the caller below). *)
Definition UpdateConditionIfReasonOrMessageChange : UpdateConditionCheck :=
  fun oldReason oldMessage newReason newMessage =>
    bool_decide (oldReason ≠ newReason) || bool_decide (oldMessage ≠ newMessage).

(** Modelled from the spec: [UpdateConditionNever] lives in
    [pkg/controller/utils], outside the sources at hand; it asks for no
    write on a reason or message change, so that the exhausted condition is
    only cleared when it was set. *)
Definition UpdateConditionNever : UpdateConditionCheck :=
  fun _ _ _ _ => false.

(** Modelled from the spec: [SetMachinePoolConditionWithChangeCheck] lives in
    [pkg/controller/utils], outside the sources at hand.  The spec asks for a write only if the condition's value,
    reason or message actually changed: a condition that is absent is
    written when it is to become true and left absent otherwise; one that is
    present is rewritten when its truth value differs or the check asks for
    it.  The second component says whether a write is needed. *)
Fixpoint SetMachinePoolConditionWithChangeCheck
    (conditions : list hivev1.MachinePoolCondition)
    (conditionType : hivev1.MachinePoolConditionType)
    (status : corev1.ConditionStatus) (reason message : string)
    (updateConditionCheck : UpdateConditionCheck)
    : list hivev1.MachinePoolCondition * bool :=
  let new := {| hivev1.Type_ := conditionType; hivev1.Status := status;
                hivev1.Reason := reason; hivev1.Message := message |} in
  match conditions with
  | [] =>
      if decide (status = corev1.ConditionTrue) then ([new], true) else ([], false)
  | c :: rest =>
      if decide (hivev1.Type_ c = conditionType) then
        if bool_decide (hivev1.Status c ≠ status)
           || updateConditionCheck (hivev1.Reason c) (hivev1.Message c) reason message
        then (new :: rest, true)
        else (conditions, false)
      else
        let '(rest', changed) :=
          SetMachinePoolConditionWithChangeCheck rest conditionType status reason message
            updateConditionCheck in
        (c :: rest', changed)
  end.

(** Modelled from the spec: the expectations tracker behind
    [controllerutils.ExpectationsInterface] is outside the sources at hand.
    It is a map from an identity key to the number of creations expected:
    [ExpectCreations] overwrites the count of the key, [DeleteExpectations]
    clears the key. *)
Definition ExpectCreations (key : string) (adds : Z) (e : gmap string Z) : gmap string Z :=
  <[key := adds]> e.

Definition DeleteExpectations (key : string) (e : gmap string Z) : gmap string Z :=
  delete key e.

End controllerutils.

(** [types.NamespacedName{...}.String()] *)
Definition NamespacedName_String (namespace name : string) : string :=
  namespace +:+ "/" +:+ name.

(** ** The world outside the process, the state inside, and the monad *)

Inductive result (A : Type) :=
| Ok (a : A)
| Err (e : error).
Arguments Ok {A} a.
Arguments Err {A} e.

(** The answers of the collaborators.  [rand_seed] drives [rand.Intn],
    [iter_seed] the order in which a [range] visits a map. *)
Record World := {
  client_List : string -> gmap string string -> result (list hivev1.MachinePoolNameLease);
  client_Create : hivev1.MachinePoolNameLease -> option error;
  client_Status_Update : hivev1.MachinePool -> option error;
  gcp_ListComputeZones : gcpclient.ListComputeZonesOptions -> result gcpclient.ZoneList;
  gcp_ListComputeImages : gcpclient.ListComputeImagesOptions -> result gcpclient.ImageList;
  rand_seed : nat;
  iter_seed : nat;
}.

Inductive Call :=
| CallList (namespace : string) (matching : gmap string string)
| CallCreate (l : hivev1.MachinePoolNameLease)
| CallStatusUpdate (p : hivev1.MachinePool)
| CallExpectCreations (key : string) (adds : Z)
| CallDeleteExpectations (key : string)
| CallListComputeZones (o : gcpclient.ListComputeZonesOptions)
| CallListComputeImages (o : gcpclient.ListComputeImagesOptions)
| CallMachineSets (infraID : string) (ic : installertypes.InstallConfig)
    (computePool : installertypes.MachinePool) (imageID role userData : string).

(** What the pointers of a call can reach and change: the machine pool
    object and the expectations of the reconciler. *)
Record State := {
  pool : hivev1.MachinePool;
  expectations : gmap string Z;
}.

(** How a call ends: it returns, it panics, or the bound on the pages of
    [getZones] ran out before the loop was left. *)
Inductive outcome (A : Type) :=
| Returns (a : A)
| Panics
| Unfinished.
Arguments Returns {A} a.
Arguments Panics {A}.
Arguments Unfinished {A}.

(** One run: how it ended, the state left behind and the calls made,
    oldest first. *)
#[projections(primitive)]
Record Run (A : Type) := {
  returned : outcome A;
  final : State;
  calls : list Call;
}.
Arguments returned {A} _.
Arguments final {A} _.
Arguments calls {A} _.

Definition M (A : Type) : Type := State -> Run A.

Global Instance M_ret : MRet M :=
  fun A a s => {| returned := Returns a; final := s; calls := [] |}.

(** The calls [cs] were made before the run [r]. *)
Definition after {A} (cs : list Call) (r : Run A) : Run A :=
  {| returned := returned r; final := final r; calls := cs ++ calls r |}.

Global Instance M_bind : MBind M :=
  fun A B k m s =>
    let r := m s in
    match returned r with
    | Returns a => after (calls r) (k a (final r))
    | Panics => {| returned := Panics; final := final r; calls := calls r |}
    | Unfinished => {| returned := Unfinished; final := final r; calls := calls r |}
    end.

Definition panic {A} : M A :=
  fun s => {| returned := Panics; final := s; calls := [] |}.

Definition unfinished {A} : M A :=
  fun s => {| returned := Unfinished; final := s; calls := [] |}.

Definition get : M State :=
  fun s => {| returned := Returns s; final := s; calls := [] |}.

Definition put (s : State) : M unit :=
  fun _ => {| returned := Returns tt; final := s; calls := [] |}.

Definition call (c : Call) : M unit :=
  fun s => {| returned := Returns tt; final := s; calls := [c] |}.

(** Dereferencing a pointer, indexing: [None] panics. *)
Definition must {A} (o : option A) : M A :=
  match o with
  | Some a => mret a
  | None => panic
  end.

(** ** Map iteration order

    Go leaves the order of [range] over a map unspecified.  [visit_order]
    turns a seed into an order: it takes the element at [seed mod length]
    out of the keys that remain, then goes on with [seed / length]. *)
Fixpoint extract {A} (i : nat) (l : list A) : option (A * list A) :=
  match l, i with
  | [], _ => None
  | x :: l', O => Some (x, l')
  | x :: l', S i' =>
      match extract i' l' with
      | Some (y, r) => Some (y, x :: r)
      | None => None
      end
  end.

Fixpoint visit_order {A} (fuel seed : nat) (l : list A) : list A :=
  match fuel with
  | O => []
  | S fuel' =>
      match extract (seed mod length l) l with
      | Some (x, r) => x :: visit_order fuel' (seed / length l) r
      | None => []
      end
  end.

Definition range_keys (seed : nat) (m : gset rune) : list rune :=
  let keys := elements m in
  visit_order (length keys) seed keys.

(** ** The actuator *)

(** Omit m, the installer used this for the master machines. w is also
    removed as this is implicitly used by the installer for the original
    worker pool. *)
Definition validLeaseChars : string := "abcdefghijklnopqrstuvxyz0123456789".

Definition dquote : string := String "034"%char EmptyString.

(** The fields of [GCPActuator] that are values; the two clients are the
    [World], the expectations are in the [State]. *)
Record GCPActuator := {
  projectID : string;
  leasesRequired : bool;
}.

Definition stringToRuneSet (s : string) : gset rune :=
  foldl (fun chars char => {[char]} ∪ chars) ∅ (runes s).

Section Actuator.

Context `{pkg : Package} (w : World).

Import hivev1.

(** [pool.Status.Conditions = conds] *)
Definition withConditions (s : State) (conds : list MachinePoolCondition) : State :=
  let p := pool s in
  {| pool := {| Name := Name p; Namespace := Namespace p; UID := UID p;
                Spec_Name := Spec_Name p; Spec_Replicas := Spec_Replicas p;
                Spec_Platform_GCP := Spec_Platform_GCP p;
                Status_Conditions := conds |};
     expectations := expectations s |}.

Definition setConditions (conds : list MachinePoolCondition) : M unit :=
  s ← get;
  put (withConditions s conds).

(** The key under which the expectations of the pool are kept. *)
Definition expectationKey (s : State) : string :=
  NamespacedName_String (Namespace (pool s)) (Name (pool s)).

(** [a.client.Status().Update(ctx, pool)] *)
Definition statusUpdate : M (option error) :=
  s ← get;
  _ ← call (CallStatusUpdate (pool s));
  mret (client_Status_Update w (pool s)).

Definition expectCreations (key : string) (adds : Z) : M unit :=
  s ← get;
  _ ← call (CallExpectCreations key adds);
  put {| pool := pool s;
         expectations := controllerutils.ExpectCreations key adds (expectations s) |}.

Definition deleteExpectations (key : string) : M unit :=
  s ← get;
  _ ← call (CallDeleteExpectations key);
  put {| pool := pool s;
         expectations := controllerutils.DeleteExpectations key (expectations s) |}.

(** The loop of [findAvailableLeaseChars]; [None] is the panic of
    [lease.Name[len(lease.Name)-1]] on an empty name. *)
Fixpoint removeClaimed (cd : ClusterDeployment) (leases : list MachinePoolNameLease)
    (availChars : gset rune) : option (gset rune) :=
  match leases with
  | [] => Some availChars
  | lease :: rest =>
      if decide (label (lease_Labels lease) ClusterDeploymentNameLabel ≠ cd_Name cd)
      then removeClaimed cd rest availChars
      else
        match strings.lastByte (lease_Name lease) with
        | None => None
        | Some char => removeClaimed cd rest (availChars ∖ {[char]})
        end
  end.

Definition findAvailableLeaseChars (cd : ClusterDeployment)
    (leases : list MachinePoolNameLease) : M (list rune * option error) :=
  let availChars := stringToRuneSet validLeaseChars in
  availChars ← must (removeClaimed cd leases availChars);
  let keys := range_keys (iter_seed w) availChars in
  mret (keys, None).

(** The lease that [obtainLease] tries to create for the pool. *)
Definition newLease (pool : MachinePool) (cd : ClusterDeployment) (leaseName : string)
    : MachinePoolNameLease :=
  {| lease_Name := leaseName;
     lease_Namespace := Namespace pool;
     lease_Labels :=
       <[MachinePoolNameLabel := Name pool]>
         (<[ClusterDeploymentNameLabel := cd_Name cd]> ∅);
     lease_OwnerReferences :=
       [ {| metav1.APIVersion := "hive.openshift.io/v1";
            metav1.Kind := "MachinePool";
            metav1.OwnerName := Name pool;
            metav1.OwnerUID := UID pool;
            metav1.Controller := Some true |} ] |}.

(** The end of [obtainLease], from the chosen [leaseRune] on. *)
Definition claimLease (cd : ClusterDeployment) (leaseRune : rune)
    : M (string * bool * option error) :=
  s ← get;
  let pool := pool s in
  md ← must (Spec_ClusterMetadata cd);
  let leaseName := InfraID md +:+ "-" +:+ string_of_rune leaseRune in
  let l := newLease pool cd leaseName in
  let expectKey := expectationKey s in
  _ ← expectCreations expectKey 1;
  _ ← call (CallCreate l);
  match client_Create w l with
  | Some err =>
      _ ← deleteExpectations expectKey;
      mret (EmptyString, false, Some err)
  | None => mret (string_of_rune leaseRune, false, None)
  end.

Definition obtainLease (cd : ClusterDeployment) (leases : list MachinePoolNameLease)
    : M (string * bool * option error) :=
  s ← get;
  let pool := pool s in
  match List.find (fun l => bool_decide (label (lease_Labels l) MachinePoolNameLabel = Name pool))
                  leases with
  | Some l =>
      c ← must (strings.lastByte (lease_Name l));
      let leaseChar := String c EmptyString in
      md ← must (Spec_ClusterMetadata cd);
      let expectedLeaseName := InfraID md +:+ "-" +:+ leaseChar in
      if decide (expectedLeaseName ≠ lease_Name l) then
        mret (EmptyString, false,
              Some ("lease " +:+ lease_Name l
                    +:+ " did not match expected lease name format ("
                    +:+ expectedLeaseName +:+ "[CHAR])"))
      else mret (leaseChar, true, None)
  | None =>
      if decide (Spec_Name pool = "worker") then claimLease cd "w"%char
      else
        '(availLeaseChars, err) ← findAvailableLeaseChars cd leases;
        match err with
        | Some err => mret (EmptyString, false, Some err)
        | None =>
            if decide (length availLeaseChars = 0) then
              let '(conds, changed) :=
                controllerutils.SetMachinePoolConditionWithChangeCheck
                  (Status_Conditions pool) NoMachinePoolNameLeasesAvailable
                  corev1.ConditionTrue "OutOfMachinePoolNames"
                  "All machine pool names are in use"
                  controllerutils.UpdateConditionIfReasonOrMessageChange in
              err ← (if changed then _ ← setConditions conds; statusUpdate else mret None);
              match err with
              | Some err => mret (EmptyString, false, Some err)
              | None => mret (EmptyString, false, None)
              end
            else
              let '(conds, changed) :=
                controllerutils.SetMachinePoolConditionWithChangeCheck
                  (Status_Conditions pool) NoMachinePoolNameLeasesAvailable
                  corev1.ConditionFalse "MachinePoolNamesAvailable"
                  "Machine pool names available"
                  controllerutils.UpdateConditionNever in
              err ← (if changed then _ ← setConditions conds; statusUpdate else mret None);
              match err with
              | Some err => mret (EmptyString, false, Some err)
              | None =>
                  leaseRune ← must (availLeaseChars
                                      !! (rand_seed w mod length availLeaseChars));
                  claimLease cd leaseRune
              end
        end
  end.

(** The [for] loop of [getZones]; [pages] bounds the pages asked for. *)
Fixpoint getZones_loop (pages : nat) (zoneFilter pageToken : string) (zones : list string)
    : M (list string * option error) :=
  match pages with
  | O => unfinished
  | S pages' =>
      let opts := {| gcpclient.Filter := zoneFilter; gcpclient.PageToken := pageToken |} in
      _ ← call (CallListComputeZones opts);
      match gcp_ListComputeZones w opts with
      | Err err => mret (zones, Some err)
      | Ok zoneList =>
          let zones := zones ++ map gcpclient.ZoneName (gcpclient.ZoneItems zoneList) in
          if decide (gcpclient.NextPageToken zoneList = EmptyString) then mret (zones, None)
          else getZones_loop pages' zoneFilter (gcpclient.NextPageToken zoneList) zones
      end
  end.

Definition getZones (pages : nat) (region : string) : M (list string * option error) :=
  let zoneFilter := "(region eq '.*" +:+ region +:+ ".*') (status eq UP)" in
  getZones_loop pages zoneFilter EmptyString [].

Definition getImageID (cd : ClusterDeployment) : M (string * option error) :=
  md ← must (Spec_ClusterMetadata cd);
  let infra := InfraID md in
  let filter := "name eq " +:+ dquote +:+ infra +:+ "-.*" +:+ dquote in
  let opts := {| gcpclient.ImagesFilter := filter |} in
  _ ← call (CallListComputeImages opts);
  match gcp_ListComputeImages w opts with
  | Err err => mret (EmptyString, Some err)
  | Ok result =>
      match gcpclient.ImageItems result with
      | [] =>
          let msg := "found 0 results searching for GCP image starting with name: "
                     +:+ infra in
          mret (EmptyString, Some (errors.New msg))
      | [image] => mret (gcpclient.ImageName image, None)
      | _ =>
          let msg := "unexpected number of results when looking for GCP image with name starting with "
                     +:+ infra in
          mret (EmptyString, Some (errors.New msg))
      end
  end.

(** The body of the loop of [requireLeases] over the remote machine sets. *)
Definition notePoolName (poolNames : gset string) (ms : machineapi.MachineSet)
    : gset string :=
  let nameParts := strings.Split (machineapi.ms_Name ms) "-"%char in
  if decide (length nameParts < 3) then poolNames
  else match nameParts !! (length nameParts - 2) with
       | Some poolName => {[poolName]} ∪ poolNames
       | None => poolNames
       end.

Definition requireLeases (clusterVersion : string)
    (remoteMachineSets : list machineapi.MachineSet) : bool :=
  let unsupported :=
    match semver_ParseTolerant clusterVersion with
    | Some v => negb (versionsSupportingFullNames v)
    | None => false
    end in
  if unsupported then true
  else
    let poolNames := foldl notePoolName ∅ remoteMachineSets in
    if bool_decide ("w" ∈ poolNames) && negb (bool_decide ("worker" ∈ poolNames))
    then true
    else false.

(** [NewGCPActuator] once the GCP client and the project id were read
    from the credentials secret. *)
Definition NewGCPActuator (project clusterVersion : string)
    (remoteMachineSets : list machineapi.MachineSet) : GCPActuator :=
  {| projectID := project;
     leasesRequired := requireLeases clusterVersion remoteMachineSets |}.

(** The end of [GenerateMachineSets], from the chosen [poolName] on. *)
Definition machineSetsFor (a : GCPActuator) (pages : nat) (cd : ClusterDeployment)
    (clusterVersion poolName : string)
    : M (list machineapi.MachineSet * bool * option error) :=
  s ← get;
  let pool := pool s in
  md ← must (Spec_ClusterMetadata cd);
  cdGCP ← must (Spec_Platform_GCP_ cd);
  poolGCP ← must (Spec_Platform_GCP pool);
  let ic := {| installertypes.Region := Region cdGCP;
               installertypes.ProjectID := projectID a |} in
  let base := baseMachinePool pool in
  let computePool (zones : list string) :=
    {| installertypes.Name := poolName;
       installertypes.Replicas := installertypes.Replicas base;
       installertypes.Platform_GCP :=
         Some {| installertypes.Zones := zones;
                 installertypes.InstanceType := InstanceType poolGCP;
                 installertypes.OSDisk_ :=
                   {| installertypes.DiskType := "pd-ssd";
                      installertypes.DiskSizeGB := 128 |} |} |} in
  '(imageID, err) ← getImageID cd;
  match errors.Wrap err "failed to find image ID for the machine sets" with
  | Some err => mret ([], false, Some err)
  | None =>
      zones ←
        (if decide (length (Zones poolGCP) = 0) then
           '(zones, err) ← getZones pages (Region cdGCP);
           match errors.Wrap err
                   "compute pool not providing list of zones and failed to fetch list of zones" with
           | Some err => mret (Err err)
           | None =>
               if decide (length zones = 0)
               then mret (Err ("zero zones returned for region " +:+ Region cdGCP))
               else mret (Ok zones)
           end
         else mret (Ok (Zones poolGCP)));
      match zones with
      | Err err => mret ([], false, Some err)
      | Ok zones =>
          let '(workerUserDataSecret, err) := workerUserData clusterVersion in
          match err with
          | Some err =>
              mret ([], false,
                    Some ("error determining worker user data secret: " +:+ err))
          | None =>
              _ ← call (CallMachineSets (InfraID md) ic (computePool zones) imageID
                          workerRole workerUserDataSecret);
              let '(installerMachineSets, err) :=
                installgcp_MachineSets (InfraID md) ic (computePool zones) imageID
                  workerRole workerUserDataSecret in
              mret (installerMachineSets, bool_decide (err = None),
                    errors.Wrap err "failed to generate machinesets")
          end
      end
  end.

Definition GenerateMachineSets (a : GCPActuator) (pages : nat) (cd : ClusterDeployment)
    : M (list machineapi.MachineSet * bool * option error) :=
  s ← get;
  let pool := pool s in
  if decide (Spec_ClusterMetadata cd = None) then
    mret ([], false, Some (errors.New "ClusterDeployment does not have cluster metadata"))
  else if decide (Spec_Platform_GCP_ cd = None) then
    mret ([], false, Some (errors.New "ClusterDeployment is not for GCP"))
  else if decide (Spec_Platform_GCP pool = None) then
    mret ([], false, Some (errors.New "MachinePool is not for GCP"))
  else
    let '(clusterVersion, err) := getClusterVersion cd in
    match err with
    | Some err => mret ([], false, Some ("Unable to get cluster version: " +:+ err))
    | None =>
        let matching : gmap string string :=
          <[ClusterDeploymentNameLabel := cd_Name cd]> ∅ in
        _ ← call (CallList (Namespace pool) matching);
        match client_List w (Namespace pool) matching with
        | Err err => mret ([], false, Some err)
        | Ok leases =>
            let poolName := Spec_Name pool in
            let useLeases :=
              if leasesRequired a then true
              else if decide (0 < length leases) then true
              else false in
            if useLeases then
              '(leaseChar, proceed, err) ← obtainLease cd leases;
              match err with
              | Some err => mret ([], false, Some err)
              | None =>
                  if negb proceed then mret ([], false, None)
                  else machineSetsFor a pages cd clusterVersion leaseChar
              end
            else machineSetsFor a pages cd clusterVersion poolName
        end
    end.

End Actuator.

(** ** Notions the statements below are phrased in *)

(** The middle token of a machine-set name: the second-to-last of its
    dash-separated parts, for a name of at least three parts. *)
Definition middleToken (name : string) : option string :=
  match rev (strings.Split name "-"%char) with
  | _ :: middle :: _ :: _ => Some middle
  | _ => None
  end.

Definition hasMiddleToken (token : string) (sets : list machineapi.MachineSet) : Prop :=
  ∃ ms, ms ∈ sets ∧ middleToken (machineapi.ms_Name ms) = Some token.

Section Notions.

Context `{pkg : Package} (w : World).

Import hivev1.

(** The lease is labelled as owned by the pool named [name]. *)
Definition ofPool (name : string) (l : MachinePoolNameLease) : Prop :=
  label (lease_Labels l) MachinePoolNameLabel = name.

(** The lease is labelled as belonging to the cluster deployment [cd]. *)
Definition ofCluster (cd : ClusterDeployment) (l : MachinePoolNameLease) : Prop :=
  label (lease_Labels l) ClusterDeploymentNameLabel = cd_Name cd.

(** Some lease of the cluster ends in the character [r]. *)
Definition claimedBy (cd : ClusterDeployment) (leases : list MachinePoolNameLease)
    (r : rune) : Prop :=
  ∃ l, l ∈ leases ∧ ofCluster cd l ∧ strings.lastByte (lease_Name l) = Some r.

(** Every lease of the cluster has an identifier, as the store requires. *)
Definition identified (cd : ClusterDeployment) (leases : list MachinePoolNameLease)
    : Prop :=
  Forall (λ l, ofCluster cd l → lease_Name l ≠ EmptyString) leases.

(** The condition of a type that a pool carries: the first of that type. *)
Fixpoint conditionOf (ty : MachinePoolConditionType)
    (conds : list MachinePoolCondition) : option MachinePoolCondition :=
  match conds with
  | [] => None
  | c :: rest => if decide (Type_ c = ty) then Some c else conditionOf ty rest
  end.

(** The condition that [obtainLease] sets when no character is free. *)
Definition exhausted : MachinePoolCondition :=
  {| Type_ := NoMachinePoolNameLeasesAvailable;
     Status := corev1.ConditionTrue;
     Reason := "OutOfMachinePoolNames";
     Message := "All machine pool names are in use" |}.

Definition isStatusUpdate (c : Call) : Prop := ∃ p, c = CallStatusUpdate p.

(** The calls of the lease allocator: status writes, expectations, creation. *)
Definition isLeaseCall (c : Call) : Prop :=
  match c with
  | CallStatusUpdate _ | CallExpectCreations _ _ | CallDeleteExpectations _
  | CallCreate _ => True
  | _ => False
  end.

(** The calls made once the pool name is chosen: cloud queries, and the
    installer asked for machine sets of a pool named [poolName]. *)
Definition isBuildCall (poolName : string) (c : Call) : Prop :=
  match c with
  | CallListComputeZones _ | CallListComputeImages _ => True
  | CallMachineSets _ _ computePool _ _ _ => installertypes.Name computePool = poolName
  | _ => False
  end.

(** Every call of [m], from whatever state, satisfies [P]. *)
Definition callsAll {A} (P : Call → Prop) (m : M A) : Prop :=
  ∀ s, Forall P (calls (m s)).

(** What a run of [obtainLease] from [s] that asked for the creation of [l]
    looks like: the lease is the pool's, named by a chosen character [r];
    the expectation is registered before the creation and deleted after a
    failed one. *)
Definition claimed (cd : ClusterDeployment) (s : State) (l : MachinePoolNameLease)
    (R : Run (string * bool * option error)) : Prop :=
  ∃ md r pre,
    Spec_ClusterMetadata cd = Some md
    ∧ l = newLease (pool s) cd (InfraID md +:+ "-" +:+ string_of_rune r)
    ∧ Forall isStatusUpdate pre
    ∧ match client_Create w l with
      | None =>
          returned R = Returns (string_of_rune r, false, None)
          ∧ calls R = pre ++ [CallExpectCreations (expectationKey s) 1; CallCreate l]
          ∧ expectations (final R) = <[expectationKey s := 1%Z]> (expectations s)
      | Some err =>
          returned R = Returns (EmptyString, false, Some err)
          ∧ calls R = pre ++ [CallExpectCreations (expectationKey s) 1; CallCreate l;
                              CallDeleteExpectations (expectationKey s)]
          ∧ expectations (final R) =
              delete (expectationKey s) (<[expectationKey s := 1%Z]> (expectations s))
      end.

(** From the page token [token] on, the zone query with [zoneFilter] is
    answered by the pages [pages] in this order, each naming a next page;
    [last] is the token that the last of them names. *)
Fixpoint served (zoneFilter token : string) (pages : list gcpclient.ZoneList)
    (last : string) : Prop :=
  match pages with
  | [] => last = token
  | page :: rest =>
      gcp_ListComputeZones w
        {| gcpclient.Filter := zoneFilter; gcpclient.PageToken := token |} = Ok page
      ∧ gcpclient.NextPageToken page ≠ EmptyString
      ∧ served zoneFilter (gcpclient.NextPageToken page) rest last
  end.

Definition zoneNames (pages : list gcpclient.ZoneList) : list string :=
  concat (map (λ page, map gcpclient.ZoneName (gcpclient.ZoneItems page)) pages).

(** The options of the zone queries for a sequence of page tokens. *)
Definition zoneCalls (zoneFilter : string) (tokens : list string) : list Call :=
  map (λ token, CallListComputeZones
                  {| gcpclient.Filter := zoneFilter; gcpclient.PageToken := token |})
      tokens.

End Notions.

(** ** A sample package and world, to run the actuator on concrete inputs *)

Module Sample.

Fixpoint digits (s : string) (acc : nat) : option nat :=
  match s with
  | EmptyString => Some acc
  | String c rest =>
      match Ascii.is_nat c with
      | Some d => digits rest (10 * acc + d)
      | None => None
      end
  end.

Definition number (s : string) : option nat :=
  match s with
  | EmptyString => None
  | _ => digits s 0
  end.

(** Plain [MAJOR.MINOR.PATCH] versions only. *)
Definition parseVersion (s : string) : option (nat * nat * nat) :=
  match strings.Split s "."%char with
  | [a; b; c] =>
      match number a, number b, number c with
      | Some x, Some y, Some z => Some (x, y, z)
      | _, _, _ => None
      end
  | _ => None
  end.

Definition atLeast_4_4_7 (v : nat * nat * nat) : bool :=
  let '(x, y, z) := v in
  if decide (x = 4) then
    if decide (y = 4) then bool_decide (7 ≤ z)%nat else bool_decide (4 < y)%nat
  else bool_decide (4 < x)%nat.

Definition versionLabel : string := "hive.openshift.io/version-major-minor-patch".

(** One machine set per zone, named [<infra>-<pool>-<zone>]. *)
Definition machineSets (infraID : string) (ic : installertypes.InstallConfig)
    (computePool : installertypes.MachinePool) (imageID role userData : string)
    : list machineapi.MachineSet * option error :=
  match installertypes.Platform_GCP computePool with
  | None => ([], Some "no GCP platform")
  | Some gcp =>
      (map (fun zone =>
              {| machineapi.ms_Name :=
                   infraID +:+ "-" +:+ installertypes.Name computePool +:+ "-" +:+ zone |})
           (installertypes.Zones gcp),
       None)
  end.

Definition package : Package := {|
  MachinePoolNameLabel := "hive.openshift.io/machine-pool-name";
  ClusterDeploymentNameLabel := "hive.openshift.io/cluster-deployment-name";
  semver_Version := nat * nat * nat;
  semver_ParseTolerant := parseVersion;
  versionsSupportingFullNames := atLeast_4_4_7;
  getClusterVersion := fun cd => (label (hivev1.cd_Labels cd) versionLabel, None);
  baseMachinePool := fun pool =>
    {| installertypes.Name := hivev1.Spec_Name pool;
       installertypes.Replicas := hivev1.Spec_Replicas pool;
       installertypes.Platform_GCP := None |};
  workerUserData := fun _ => ("worker-user-data", None);
  workerRole := "worker";
  installgcp_MachineSets := machineSets;
|}.

Definition machineSet (name : string) : machineapi.MachineSet :=
  {| machineapi.ms_Name := name |}.

Definition cluster : hivev1.ClusterDeployment :=
  {| hivev1.cd_Name := "mycluster";
     hivev1.cd_Labels := <[versionLabel := "4.5.0"]> ∅;
     hivev1.Spec_ClusterMetadata := Some {| hivev1.InfraID := "abc123" |};
     hivev1.Spec_Platform_GCP_ := Some {| hivev1.Region := "us-east1" |} |}.

(** The machine pool [mycluster-<logical name>] of the cluster. *)
Definition machinePool (logicalName : string) (conds : list hivev1.MachinePoolCondition)
    : hivev1.MachinePool :=
  {| hivev1.Name := "mycluster-" +:+ logicalName;
     hivev1.Namespace := "ns";
     hivev1.UID := "uid-1";
     hivev1.Spec_Name := logicalName;
     hivev1.Spec_Replicas := Some 3%Z;
     hivev1.Spec_Platform_GCP :=
       Some {| hivev1.Zones := []; hivev1.InstanceType := "n1-standard-4" |};
     hivev1.Status_Conditions := conds |}.

Definition state (logicalName : string) : State :=
  {| pool := machinePool logicalName []; expectations := ∅ |}.

(** A lease named [name] that the pool object [poolName] of the cluster owns. *)
Definition lease (name poolName : string) : hivev1.MachinePoolNameLease :=
  {| hivev1.lease_Name := name;
     hivev1.lease_Namespace := "ns";
     hivev1.lease_Labels :=
       <[MachinePoolNameLabel (Package := package) := poolName]>
         (<[ClusterDeploymentNameLabel (Package := package) := "mycluster"]> ∅);
     hivev1.lease_OwnerReferences := [] |}.

(** One lease per character of the alphabet, all owned by other pools. *)
Definition allClaimed : list hivev1.MachinePoolNameLease :=
  map (fun r => lease ("abc123-" +:+ String r EmptyString)
                  ("mycluster-pool" +:+ String r EmptyString))
      (runes validLeaseChars).

Definition zone (name : string) : gcpclient.Zone := {| gcpclient.ZoneName := name |}.

(** Zones come in two pages; [secondPage] is the answer to the second. *)
Definition listZones (secondPage : result gcpclient.ZoneList)
    (o : gcpclient.ListComputeZonesOptions) : result gcpclient.ZoneList :=
  if decide (gcpclient.PageToken o = EmptyString) then
    Ok {| gcpclient.ZoneItems := [zone "us-east1-b"; zone "us-east1-c"];
          gcpclient.NextPageToken := "page2" |}
  else secondPage.

Definition lastZones : result gcpclient.ZoneList :=
  Ok {| gcpclient.ZoneItems := [zone "us-east1-d"]; gcpclient.NextPageToken := EmptyString |}.

(** A world that shows [leases], answers the creation and the status write
    with [created] and [written], the second zone page with [secondPage] and
    the image query with [images]. *)
Definition world (leases : list hivev1.MachinePoolNameLease)
    (created written : option error) (secondPage : result gcpclient.ZoneList)
    (images : list string) : World :=
  {| client_List := fun _ _ => Ok leases;
     client_Create := fun _ => created;
     client_Status_Update := fun _ => written;
     gcp_ListComputeZones := listZones secondPage;
     gcp_ListComputeImages := fun _ =>
       Ok {| gcpclient.ImageItems :=
               map (fun n => {| gcpclient.ImageName := n |}) images |};
     rand_seed := 5;
     iter_seed := 3 |}.

(** The store accepts every call and the cloud has one image. *)
Definition calm (leases : list hivev1.MachinePoolNameLease) : World :=
  world leases None None lastZones ["abc123-rhcos-image"].

Definition actuator (required : bool) : GCPActuator :=
  {| projectID := "my-project"; leasesRequired := required |}.

End Sample.

(** ** The operator: deploying Hive

    A shallow embedding of [deployHive], of the operator's package [hive].
    The asset reader, the resource helper and the client answer from an
    [Operator.World]; the calls made are logged, oldest first. *)

Module Operator.

Record EnvVar := { EnvName : string; EnvValue : string }.

Record Container := { Image : string; Env : list EnvVar }.

(** Of the deployment read from the asset only the containers of the pod
    template are looked at. *)
Record Deployment := { Containers : list Container }.

(** The answer of [r.Get]: the object, an error for which
    [errors.IsNotFound] holds, or another error. *)
Inductive GetAnswer :=
| Found
| NotFound (err : error)
| GetFailed (err : error).

Record World := {
  (** [r.hiveImage] *)
  hiveImage : string;
  (** [os.Getenv] *)
  Getenv : string -> string;
  (** [ReadDeploymentV1OrDie(MustAsset("config/manager/deployment.yaml"))];
      [None] when either dies. *)
  deploymentAsset : option Deployment;
  (** [h.ApplyRuntimeObject] *)
  ApplyRuntimeObject : Deployment -> result string;
  (** [util.ApplyAsset] *)
  ApplyAsset : string -> option error;
  (** [r.Get] and [r.Delete] of a cluster image set *)
  Get : string -> GetAnswer;
  Delete : string -> option error;
}.

Inductive Call :=
| CallApplyRuntimeObject (d : Deployment)
| CallApplyAsset (asset : string)
| CallGet (name : string)
| CallDelete (name : string).

Definition dnsServersEnvVar : string := "ZONE_CHECK_DNS_SERVERS".

Definition applyAssets : list string :=
  [ "config/manager/service.yaml";
    "config/clusterimagesets/openshift-4.0-latest.yaml";
    "config/rbac/hive_admin_role.yaml";
    "config/rbac/hive_admin_role_binding.yaml";
    "config/rbac/hive_reader_role.yaml";
    "config/rbac/hive_reader_role_binding.yaml";
    "config/crds/hive_v1alpha1_clusterdeployment.yaml";
    "config/crds/hive_v1alpha1_clusterdeprovisionrequest.yaml";
    "config/crds/hive_v1alpha1_clusterimageset.yaml";
    "config/crds/hive_v1alpha1_dnsendpoint.yaml";
    "config/crds/hive_v1alpha1_dnszone.yaml";
    "config/crds/hive_v1alpha1_hiveconfig.yaml";
    "config/crds/hive_v1alpha1_selectorsyncidentityprovider.yaml";
    "config/crds/hive_v1alpha1_selectorsyncset.yaml";
    "config/crds/hive_v1alpha1_syncidentityprovider.yaml";
    "config/crds/hive_v1alpha1_syncset.yaml" ].

Definition removeImageSets : list string :=
  [ "openshift-v4.0-beta3"; "openshift-v4.0-beta4" ].

(** [...Containers[0].Image = image] followed by
    [...Containers[0].Env = append(...Containers[0].Env, envVar)], or the
    append alone; [None] is the panic of indexing an empty slice. *)
Definition onFirstContainer (f : Container -> Container) (d : Deployment)
    : option Deployment :=
  match Containers d with
  | [] => None
  | c :: cs => Some {| Containers := f c :: cs |}
  end.

Definition setImage (image : string) (envVar : EnvVar) (c : Container) : Container :=
  {| Image := image; Env := Env c ++ [envVar] |}.

Definition appendEnv (envVar : EnvVar) (c : Container) : Container :=
  {| Image := Image c; Env := Env c ++ [envVar] |}.

(** The loop over [applyAssets]: the error of the first asset that fails. *)
Fixpoint applyAll (w : World) (assets : list string) : option error * list Call :=
  match assets with
  | [] => (None, [])
  | a :: rest =>
      match ApplyAsset w a with
      | Some err => (Some err, [CallApplyAsset a])
      | None => let '(err, cs) := applyAll w rest in (err, CallApplyAsset a :: cs)
      end
  end.

(** The loop over [removeImageSets]. *)
Fixpoint removeAll (w : World) (names : list string) : option error * list Call :=
  match names with
  | [] => (None, [])
  | isName :: rest =>
      match Get w isName with
      | GetFailed err => (Some err, [CallGet isName])
      | NotFound _ =>
          let '(err, cs) := removeAll w rest in (err, CallGet isName :: cs)
      | Found =>
          match Delete w isName with
          | Some err => (Some err, [CallGet isName; CallDelete isName])
          | None =>
              let '(err, cs) := removeAll w rest in
              (err, CallGet isName :: CallDelete isName :: cs)
          end
      end
  end.

(** The first part of [deployHive]: the deployment of the asset, with the
    image and the environment of its first container adjusted.
    [HiveImageEnvVar] is the constant of package [images]; [None] is a
    panic. *)
Definition prepareDeployment (HiveImageEnvVar : string) (w : World) : option Deployment :=
  match deploymentAsset w with
  | None => None
  | Some hiveDeployment =>
      let withImage :=
        if decide (hiveImage w ≠ EmptyString) then
          onFirstContainer
            (setImage (hiveImage w)
               {| EnvName := HiveImageEnvVar; EnvValue := hiveImage w |})
            hiveDeployment
        else Some hiveDeployment in
      match withImage with
      | None => None
      | Some hiveDeployment =>
          let zoneCheckDNSServers := Getenv w dnsServersEnvVar in
          if decide (0 < String.length zoneCheckDNSServers) then
            onFirstContainer
              (appendEnv {| EnvName := dnsServersEnvVar;
                            EnvValue := zoneCheckDNSServers |})
              hiveDeployment
          else Some hiveDeployment
      end
  end.

Definition deployHive (HiveImageEnvVar : string) (w : World)
    : outcome (option error) * list Call :=
  match prepareDeployment HiveImageEnvVar w with
  | None => (Panics, [])
  | Some hiveDeployment =>
      match ApplyRuntimeObject w hiveDeployment with
      | Err err => (Returns (Some err), [CallApplyRuntimeObject hiveDeployment])
      | Ok _ =>
          let '(err, applied) := applyAll w applyAssets in
          match err with
          | Some err =>
              (Returns (Some err), CallApplyRuntimeObject hiveDeployment :: applied)
          | None =>
              let '(err, removed) := removeAll w removeImageSets in
              (Returns err, CallApplyRuntimeObject hiveDeployment :: applied ++ removed)
          end
      end
  end.

(** The calls of the removal loop for image sets that are found or not
    found. *)
Definition removalCalls (w : World) (names : list string) : list Call :=
  concat (map (fun isName =>
                 match Get w isName with
                 | Found => [CallGet isName; CallDelete isName]
                 | _ => [CallGet isName]
                 end) names).

(** A sample: a deployment with a manager and a sidecar container, an image
    override, a store in which [failing] cannot be applied and the first
    legacy image set is still there. *)
Definition sampleDeployment : Deployment :=
  {| Containers :=
       [ {| Image := "hive:latest";
            Env := [ {| EnvName := "LOG_LEVEL"; EnvValue := "debug" |} ] |};
         {| Image := "sidecar:1"; Env := [] |} ] |}.

Definition sampleWorld (failing : string) : World :=
  {| hiveImage := "quay.io/hive:v1";
     Getenv := fun name =>
       if decide (name = dnsServersEnvVar) then "8.8.8.8" else EmptyString;
     deploymentAsset := Some sampleDeployment;
     ApplyRuntimeObject := fun _ => Ok "configured";
     ApplyAsset := fun a => if decide (a = failing) then Some "forbidden" else None;
     Get := fun n => if decide (n = "openshift-v4.0-beta3") then Found
                     else NotFound "not found";
     Delete := fun _ => None |}.

End Operator.

(** * Theorems *)

(** ** Runs of the monad *)

Section Runs.

Context {A B : Type}.
Implicit Types (m : M A) (k : A → M B) (s : State).

Lemma bind_get (k : State → M B) s : (get ≫= k) s = k s s.
Proof. reflexivity. Qed.

Lemma bind_must_Some k a s : (must (Some a) ≫= k) s = k a s.
Proof. reflexivity. Qed.

Lemma callsAll_ret (P : Call → Prop) (a : A) : callsAll P (mret a : M A).
Proof. intros s. apply Forall_nil_2. Qed.

Lemma callsAll_bind (P : Call → Prop) m k :
  callsAll P m → (∀ a, callsAll P (k a)) → callsAll P (m ≫= k).
Proof.
  intros Hm Hk s. unfold mbind, M_bind.
  destruct (returned (m s)) as [a| |]; cbn [after calls]; [|apply Hm..].
  apply Forall_app. split; [apply Hm|apply Hk].
Qed.

Lemma callsAll_must (P : Call → Prop) (o : option A) : callsAll P (must o).
Proof. intros s. destruct o; apply Forall_nil_2. Qed.

End Runs.

Lemma callsAll_get (P : Call → Prop) : callsAll P get.
Proof. intros s. apply Forall_nil_2. Qed.

Lemma callsAll_put (P : Call → Prop) s : callsAll P (put s).
Proof. intros s'. apply Forall_nil_2. Qed.

Lemma callsAll_call (P : Call → Prop) c : P c → callsAll P (call c).
Proof. intros Hc s. by apply Forall_singleton. Qed.

Lemma callsAll_panic {A} (P : Call → Prop) : callsAll P (panic : M A).
Proof. intros s. apply Forall_nil_2. Qed.

Lemma callsAll_unfinished {A} (P : Call → Prop) : callsAll P (unfinished : M A).
Proof. intros s. apply Forall_nil_2. Qed.

(** One step of a run whose next scrutinee is a constructor. *)
Ltac step :=
  unfold setConditions, statusUpdate, expectCreations, deleteExpectations;
  unfold mbind;
  cbn [M_bind mret M_ret must get put call panic unfinished after
       returned final calls app fst snd].

(** All calls of a computation satisfy a predicate, by its syntax. *)
Ltac calls_all :=
  repeat first
    [ apply callsAll_ret | apply callsAll_get | apply callsAll_put
    | apply callsAll_must | apply callsAll_panic | apply callsAll_unfinished
    | apply callsAll_call; cbn; done
    | apply callsAll_bind; [|intros ?]
    | case_match ].

(** ** The lease-requirement policy *)

Section Policy.

Context `{pkg : Package}.

Lemma Split_nonempty s sep : strings.Split s sep ≠ [].
Proof.
  destruct s as [|c s]; simpl; [done|].
  destruct (decide (c = sep)); [done|].
  destruct (strings.Split s sep); done.
Qed.

(** The index [len(nameParts)-2] of the code and the second-to-last part
    of the definition above are the same part. *)
Lemma middleToken_index name :
  let nameParts := strings.Split name "-"%char in
  middleToken name =
    if decide (length nameParts < 3) then None
    else nameParts !! (length nameParts - 2).
Proof.
  intros nameParts. unfold middleToken. fold nameParts.
  destruct (decide (length nameParts < 3)) as [Hlt|Hge].
  - rewrite <- (length_rev nameParts) in Hlt.
    destruct (rev nameParts) as [|a [|b [|c l]]]; simpl in *; try done; lia.
  - destruct (rev nameParts) as [|a [|b [|c l]]] eqn:E;
      try (apply (f_equal length) in E; rewrite length_rev in E; simpl in E; lia).
    assert (Hparts : nameParts = (rev l ++ [c]) ++ b :: [a]).
    { rewrite <- (rev_involutive nameParts), E. simpl. by rewrite <- !app_assoc. }
    rewrite Hparts. symmetry. apply list_lookup_middle.
    rewrite !length_app. simpl. lia.
Qed.

Lemma notePoolName_middleToken poolNames ms :
  notePoolName poolNames ms =
    match middleToken (machineapi.ms_Name ms) with
    | Some poolName => {[poolName]} ∪ poolNames
    | None => poolNames
    end.
Proof.
  unfold notePoolName. rewrite middleToken_index.
  by destruct (decide _).
Qed.

Lemma poolNames_elem token sets : ∀ poolNames,
  token ∈ foldl notePoolName poolNames sets ↔
  token ∈ poolNames ∨ hasMiddleToken token sets.
Proof.
  unfold hasMiddleToken.
  induction sets as [|ms sets IH]; intros poolNames; simpl.
  - split; [by left|]. intros [?|(ms & Hin & _)]; [done|]. by apply elem_of_nil in Hin.
  - rewrite IH, notePoolName_middleToken. split.
    + intros [Hin|(ms' & Hin & Hmid)].
      * destruct (middleToken (machineapi.ms_Name ms)) as [p|] eqn:E.
        -- apply elem_of_union in Hin as [Hin|Hin]; [|by left].
           apply elem_of_singleton in Hin as ->.
           right. exists ms. split; [apply list_elem_of_here|done].
        -- by left.
      * right. exists ms'. split; [by apply list_elem_of_further|done].
    + intros [Hin|(ms' & Hin & Hmid)].
      * left. destruct (middleToken _); [|done]. apply elem_of_union. by right.
      * apply elem_of_cons in Hin as [->|Hin].
        -- left. rewrite Hmid. apply elem_of_union. left. by apply elem_of_singleton.
        -- right. by exists ms'.
Qed.

(** C7. For a cluster version that parses and lies in the supported range
    (>=4.4.7), [requireLeases] answers true exactly when some existing
    machine set has the middle token "w" and none has the middle token
    "worker"; in every other case it answers false. *)
Theorem requireLeases_supported_version clusterVersion v sets :
  semver_ParseTolerant clusterVersion = Some v →
  versionsSupportingFullNames v = true →
  (requireLeases clusterVersion sets = true ↔
   hasMiddleToken "w" sets ∧ ¬ hasMiddleToken "worker" sets)
  ∧ (requireLeases clusterVersion sets = false ↔
     ¬ (hasMiddleToken "w" sets ∧ ¬ hasMiddleToken "worker" sets)).
Proof.
  intros Hparse Hrange.
  assert (Hmem : ∀ token, token ∈ foldl notePoolName ∅ sets ↔ hasMiddleToken token sets).
  { intros token. rewrite poolNames_elem. split; [|by right].
    intros [Hin|?]; [|done]. by apply not_elem_of_empty in Hin. }
  assert (Htrue : requireLeases clusterVersion sets = true ↔
                  hasMiddleToken "w" sets ∧ ¬ hasMiddleToken "worker" sets).
  { unfold requireLeases. rewrite Hparse, Hrange. simpl.
    destruct (bool_decide ("w" ∈ foldl notePoolName ∅ sets)) eqn:Ew;
      destruct (bool_decide ("worker" ∈ foldl notePoolName ∅ sets)) eqn:Eworker; simpl.
    - apply bool_decide_eq_true in Eworker. split; [done|].
      intros [_ Hno]. exfalso. apply Hno. by apply Hmem.
    - apply bool_decide_eq_true in Ew. apply bool_decide_eq_false in Eworker.
      split; [|done]. intros _. split; [by apply Hmem|].
      intros Hworker. apply Eworker. by apply Hmem.
    - apply bool_decide_eq_false in Ew. split; [done|].
      intros [Hw _]. exfalso. apply Ew. by apply Hmem.
    - apply bool_decide_eq_false in Ew. split; [done|].
      intros [Hw _]. exfalso. apply Ew. by apply Hmem. }
  split; [done|].
  rewrite <- Htrue. destruct (requireLeases clusterVersion sets); split; done.
Qed.

(** Below the supported range the machine-set names are not looked at. *)
Lemma requireLeases_unsupported_version clusterVersion v sets :
  semver_ParseTolerant clusterVersion = Some v →
  versionsSupportingFullNames v = false →
  requireLeases clusterVersion sets = true.
Proof.
  intros Hparse Hrange. unfold requireLeases. by rewrite Hparse, Hrange.
Qed.

End Policy.

Lemma requireLeases_supported_version_witness :
  semver_ParseTolerant (Package := Sample.package) "4.5.0" = Some (4, 5, 0)
  ∧ versionsSupportingFullNames (Package := Sample.package) (4, 5, 0) = true
  ∧ ((requireLeases (pkg := Sample.package) "4.5.0" [Sample.machineSet "abc123-w-a"] = true ↔
      hasMiddleToken "w" [Sample.machineSet "abc123-w-a"]
      ∧ ¬ hasMiddleToken "worker" [Sample.machineSet "abc123-w-a"])
     ∧ (requireLeases (pkg := Sample.package) "4.5.0" [Sample.machineSet "abc123-w-a"] = false ↔
        ¬ (hasMiddleToken "w" [Sample.machineSet "abc123-w-a"]
           ∧ ¬ hasMiddleToken "worker" [Sample.machineSet "abc123-w-a"]))).
Proof.
  split; [reflexivity|]. split; [reflexivity|].
  apply (requireLeases_supported_version (pkg := Sample.package) "4.5.0" (4, 5, 0));
    reflexivity.
Defined.

(** ** The alphabet, the claimed characters and the order of a map *)

Lemma validLeaseChars_runes :
  length (runes validLeaseChars) = 34
  ∧ NoDup (runes validLeaseChars)
  ∧ ("m"%char ∉ runes validLeaseChars)
  ∧ ("w"%char ∉ runes validLeaseChars)
  ∧ Forall (λ r, string_of_rune r = String r EmptyString) (runes validLeaseChars).
Proof.
  split; [reflexivity|].
  repeat split; apply (bool_decide_unpack _); by vm_compute.
Qed.

Lemma stringToRuneSet_elem s r : r ∈ stringToRuneSet s ↔ r ∈ runes s.
Proof.
  unfold stringToRuneSet.
  assert (Hfold : ∀ l (chars : gset rune),
            r ∈ foldl (λ chars char, {[char]} ∪ chars) chars l ↔ r ∈ chars ∨ r ∈ l).
  { induction l as [|x l IH]; intros chars; simpl.
    - rewrite elem_of_nil. tauto.
    - rewrite IH, elem_of_union, elem_of_singleton, elem_of_cons. tauto. }
  rewrite Hfold. rewrite elem_of_empty. tauto.
Qed.

Lemma extract_Some {A} (l : list A) i :
  i < length l → ∃ x r, extract i l = Some (x, r) ∧ l ≡ₚ x :: r.
Proof.
  revert i. induction l as [|y l IH]; intros i Hi; simpl in *; [lia|].
  destruct i as [|i]; simpl; [by exists y, l|].
  destruct (IH i) as (x & r & -> & Hperm); [lia|].
  exists x, (y :: r). split; [done|].
  rewrite Hperm. apply perm_swap.
Qed.

(** Whatever the seed, every key is visited once. *)
Lemma visit_order_perm {A} seed (l : list A) :
  visit_order (length l) seed l ≡ₚ l.
Proof.
  remember (length l) as n eqn:Hn. revert seed l Hn.
  induction n as [|n IH]; intros seed l Hn; simpl.
  - by destruct l.
  - destruct (extract_Some l (seed `mod` length l)) as (x & r & -> & Hperm).
    { apply Nat.mod_upper_bound. lia. }
    etrans; [|symmetry; exact Hperm]. constructor. apply IH.
    apply Permutation_length in Hperm. simpl in Hperm. lia.
Qed.

Lemma range_keys_elem seed (m : gset rune) r : r ∈ range_keys seed m ↔ r ∈ m.
Proof.
  unfold range_keys. by rewrite visit_order_perm, elem_of_elements.
Qed.

Lemma range_keys_empty seed (m : gset rune) :
  length (range_keys seed m) = 0 ↔ m = ∅.
Proof.
  unfold range_keys. rewrite visit_order_perm. split.
  - intros Hlen. apply nil_length_inv in Hlen.
    apply elements_empty_inv in Hlen. by apply leibniz_equiv.
  - intros ->. by rewrite elements_empty.
Qed.

(** ** The lease allocator *)

Section Leases.

Context `{pkg : Package} (w : World).

Import hivev1.

Implicit Types (cd : ClusterDeployment) (l : MachinePoolNameLease) (s : State).

Lemma claimLease_run cd md r s :
  Spec_ClusterMetadata cd = Some md →
  let l := newLease (pool s) cd (InfraID md +:+ "-" +:+ string_of_rune r) in
  claimLease w cd r s =
    match client_Create w l with
    | Some err =>
        {| returned := Returns (EmptyString, false, Some err);
           final := {| pool := pool s;
                       expectations :=
                         delete (expectationKey s)
                           (<[expectationKey s := 1%Z]> (expectations s)) |};
           calls := [CallExpectCreations (expectationKey s) 1; CallCreate l;
                     CallDeleteExpectations (expectationKey s)] |}
    | None =>
        {| returned := Returns (string_of_rune r, false, None);
           final := {| pool := pool s;
                       expectations := <[expectationKey s := 1%Z]> (expectations s) |};
           calls := [CallExpectCreations (expectationKey s) 1; CallCreate l] |}
    end.
Proof.
  intros Hmd l. unfold claimLease. rewrite bind_get, Hmd, bind_must_Some.
  fold l. destruct (client_Create w l); reflexivity.
Qed.

Lemma claimLease_panics cd r s :
  Spec_ClusterMetadata cd = None →
  claimLease w cd r s = {| returned := Panics; final := s; calls := [] |}.
Proof. intros Hmd. unfold claimLease. by rewrite bind_get, Hmd. Qed.

Lemma not_create_in_updates l pre :
  Forall isStatusUpdate pre → CallCreate l ∉ pre.
Proof.
  intros Hpre Hin. rewrite Forall_forall in Hpre.
  destruct (Hpre _ Hin) as [p Hp]. discriminate.
Qed.

(** A creation asked for after status writes only, from the state of the
    call or from that state with new conditions. *)
Lemma claimLease_claimed cd s l r s' pre :
  (s' = s ∨ ∃ conds, s' = withConditions s conds) →
  Forall isStatusUpdate pre →
  CallCreate l ∈ calls (after pre (claimLease w cd r s')) →
  claimed w cd s l (after pre (claimLease w cd r s')).
Proof.
  intros Hs' Hpre Hin.
  assert (Hpool : newLease (pool s') cd = newLease (pool s) cd
                  ∧ expectationKey s' = expectationKey s
                  ∧ expectations s' = expectations s).
  { destruct Hs' as [->|[conds ->]]; done. }
  destruct Hpool as (Hlease & Hkey & Hexp).
  cbn [after calls] in Hin. apply elem_of_app in Hin as [Hin|Hin];
    [by apply not_create_in_updates in Hin|].
  destruct (Spec_ClusterMetadata cd) as [md|] eqn:Hmd;
    [|rewrite claimLease_panics in Hin by done; by apply elem_of_nil in Hin].
  rewrite (claimLease_run cd md) in Hin |- * by done.
  rewrite Hlease, Hkey, Hexp in Hin |- *.
  set (l' := newLease (pool s) cd _) in *.
  assert (l = l') as ->.
  { destruct (client_Create w l'); cbn [calls] in Hin;
      repeat (apply elem_of_cons in Hin as [Hin|Hin]; [congruence|]);
      by apply elem_of_nil in Hin. }
  exists md, r, pre. split; [done|]. split; [done|]. split; [done|].
  destruct (client_Create w l'); done.
Qed.

(** Whatever the path, a creation is asked for by [claimLease] only. *)
Lemma obtainLease_claimed cd leases s l :
  CallCreate l ∈ calls (obtainLease w cd leases s) →
  claimed w cd s l (obtainLease w cd leases s).
Proof.
  unfold obtainLease. rewrite bind_get.
  destruct (List.find _ leases) as [l0|] eqn:Hfind.
  { destruct (strings.lastByte (lease_Name l0)) as [c|]; step;
      [|intros Hin; by apply elem_of_nil in Hin].
    destruct (Spec_ClusterMetadata cd) as [md|]; step;
      [|intros Hin; by apply elem_of_nil in Hin].
    case_decide; step; intros Hin; by apply elem_of_nil in Hin. }
  destruct (decide (Spec_Name (pool s) = "worker")) as [Hworker|Hworker].
  { exact (claimLease_claimed cd s l "w"%char s [] (or_introl eq_refl) (Forall_nil_2 _)). }
  unfold findAvailableLeaseChars.
  destruct (removeClaimed cd leases (stringToRuneSet validLeaseChars)) as [avail|];
    step; [|intros Hin; by apply elem_of_nil in Hin].
  set (keys := range_keys (iter_seed w) avail).
  case_decide.
  { destruct (controllerutils.SetMachinePoolConditionWithChangeCheck _ _ _ _ _ _)
      as [conds [|]]; step; [|intros Hin; by apply elem_of_nil in Hin].
    destruct (client_Status_Update w _); step; intros Hin;
      apply list_elem_of_singleton in Hin; discriminate. }
  destruct (controllerutils.SetMachinePoolConditionWithChangeCheck _ _ _ _ _ _)
    as [conds [|]]; step.
  - destruct (client_Status_Update w _); step;
      [intros Hin; apply list_elem_of_singleton in Hin; discriminate|].
    destruct (keys !! _) as [r|]; step;
      [|intros Hin; apply list_elem_of_singleton in Hin; discriminate].
    refine (claimLease_claimed cd s l r (withConditions s conds) [CallStatusUpdate _]
              (or_intror (ex_intro _ conds eq_refl)) _).
    apply Forall_singleton. by eexists.
  - destruct (keys !! _) as [r|]; step; [|intros Hin; by apply elem_of_nil in Hin].
    exact (claimLease_claimed cd s l r s [] (or_introl eq_refl) (Forall_nil_2 _)).
Qed.

(** C6. Whenever the creation of the lease fails, with whatever error,
    [obtainLease] has registered the expectation for the pool's key just
    before the creation, deletes it right after, and returns that error:
    the expectations it leaves behind have no entry for the key. *)
Theorem obtainLease_create_failure cd leases s l err :
  CallCreate l ∈ calls (obtainLease w cd leases s) →
  client_Create w l = Some err →
  returned (obtainLease w cd leases s) = Returns (EmptyString, false, Some err)
  ∧ (∃ pre, calls (obtainLease w cd leases s) =
              pre ++ [CallExpectCreations (expectationKey s) 1; CallCreate l;
                      CallDeleteExpectations (expectationKey s)])
  ∧ expectations (final (obtainLease w cd leases s)) !! expectationKey s = None.
Proof.
  intros Hin Hfail.
  destruct (obtainLease_claimed cd leases s l Hin) as (md & r & pre & _ & _ & _ & Hrun).
  rewrite Hfail in Hrun. destruct Hrun as (Hret & Hcalls & Hexp).
  split; [done|]. split; [by exists pre|].
  rewrite Hexp. unfold controllerutils.DeleteExpectations. apply lookup_delete_eq.
Qed.

(** The store shows no lease and the pool is the worker pool. *)
Lemma obtainLease_worker_run cd s :
  Spec_Name (pool s) = "worker" →
  obtainLease w cd [] s = claimLease w cd "w"%char s.
Proof.
  intros Hworker. unfold obtainLease. rewrite bind_get. cbn [List.find].
  by rewrite decide_True.
Qed.

(** C1, as the code has it.  For a pool whose logical name is "worker" and
    an empty visible lease list, [obtainLease] asks for the creation of
    exactly one lease, named [<infra id>-w], and returns ("w", false, nil)
    when the creation succeeds, the error of the creation when it fails. *)
Theorem obtainLease_worker_without_leases cd md s :
  Spec_ClusterMetadata cd = Some md →
  Spec_Name (pool s) = "worker" →
  let l := newLease (pool s) cd (InfraID md +:+ "-w") in
  let R := obtainLease w cd [] s in
  lease_Name l = InfraID md +:+ "-w"
  ∧ (client_Create w l = None →
     returned R = Returns ("w", false, None)
     ∧ calls R = [CallExpectCreations (expectationKey s) 1; CallCreate l])
  ∧ (∀ err, client_Create w l = Some err →
     returned R = Returns (EmptyString, false, Some err)
     ∧ calls R = [CallExpectCreations (expectationKey s) 1; CallCreate l;
                  CallDeleteExpectations (expectationKey s)]).
Proof.
  intros Hmd Hworker l R. subst R.
  rewrite obtainLease_worker_run, (claimLease_run cd md) by done.
  change (newLease (pool s) cd (InfraID md +:+ "-" +:+ string_of_rune "w"%char)) with l.
  change (string_of_rune "w"%char) with "w".
  split; [done|]. split.
  - intros ->. done.
  - intros err ->. done.
Qed.

Lemma removeClaimed_elem cd leases : ∀ (availChars remaining : gset rune),
  removeClaimed cd leases availChars = Some remaining →
  ∀ r, r ∈ remaining ↔ r ∈ availChars ∧ ¬ claimedBy cd leases r.
Proof.
  unfold claimedBy, ofCluster.
  induction leases as [|lease leases IH]; intros availChars remaining; simpl.
  - intros [= <-] r. split; [|tauto]. intros Hr. split; [done|].
    intros (l & Hin & _). by apply elem_of_nil in Hin.
  - case_decide as Hcluster.
    + intros Hrest r. rewrite (IH _ _ Hrest r). split.
      * intros [Hr Hno]. split; [done|]. intros (l & Hin & Hl & Hlast).
        apply elem_of_cons in Hin as [->|Hin]; [done|]. apply Hno. by exists l.
      * intros [Hr Hno]. split; [done|]. intros (l & Hin & Hl & Hlast).
        apply Hno. exists l. split; [by apply list_elem_of_further|done].
    + destruct (strings.lastByte (lease_Name lease)) as [char|] eqn:Hchar; [|done].
      intros Hrest r. rewrite (IH _ _ Hrest r), elem_of_difference, elem_of_singleton.
      split.
      * intros [[Hr Hne] Hno]. split; [done|]. intros (l & Hin & Hl & Hlast).
        apply elem_of_cons in Hin as [->|Hin]; [congruence|]. apply Hno. by exists l.
      * intros [Hr Hno]. split; [split; [done|]|].
        -- intros ->. apply Hno. exists lease. split; [apply list_elem_of_here|done].
        -- intros (l & Hin & Hl & Hlast). apply Hno. exists l.
           split; [by apply list_elem_of_further|done].
Qed.

Lemma lastByte_None name : strings.lastByte name = None → name = EmptyString.
Proof.
  induction name as [|c name IH]; [done|]. simpl.
  destruct name; [done|]. intros Hlast. by specialize (IH Hlast).
Qed.

Lemma removeClaimed_identified cd leases : ∀ (availChars : gset rune),
  identified cd leases → is_Some (removeClaimed cd leases availChars).
Proof.
  unfold identified, ofCluster.
  induction leases as [|lease leases IH]; intros availChars Hall; simpl; [done|].
  apply Forall_cons in Hall as [Hlease Hall].
  case_decide as Hcluster; [by apply IH|].
  destruct (strings.lastByte (lease_Name lease)) as [char|] eqn:Hchar; [by apply IH|].
  apply lastByte_None in Hchar. by destruct (Hlease Hcluster).
Qed.

(** The scan of [obtainLease] stops at the first lease of the pool. *)
Lemma find_first_of_pool name before l after :
  Forall (λ l', ¬ ofPool name l') before →
  ofPool name l →
  List.find (λ l', bool_decide (label (lease_Labels l') MachinePoolNameLabel = name))
            (before ++ l :: after) = Some l.
Proof.
  unfold ofPool. intros Hbefore Hl.
  induction Hbefore as [|l' before Hne _ IH]; simpl.
  - by rewrite bool_decide_eq_true_2.
  - by rewrite bool_decide_eq_false_2.
Qed.

Lemma find_none_of_pool name leases :
  List.find (λ l', bool_decide (label (lease_Labels l') MachinePoolNameLabel = name))
            leases = None ↔
  Forall (λ l', ¬ ofPool name l') leases.
Proof.
  unfold ofPool. induction leases as [|l' leases IH]; simpl.
  - split; [intros _; apply Forall_nil_2|done].
  - case_bool_decide as Hl'.
    + split; [done|]. intros Hall. by apply Forall_cons in Hall as [? _].
    + rewrite IH. split.
      * intros Hall. by apply Forall_cons.
      * intros Hall. by apply Forall_cons in Hall as [_ ?].
Qed.

Lemma find_some_of_pool name leases l :
  List.find (λ l', bool_decide (label (lease_Labels l') MachinePoolNameLabel = name))
            leases = Some l →
  ∃ before after,
    leases = before ++ l :: after ∧ Forall (λ l', ¬ ofPool name l') before ∧ ofPool name l.
Proof.
  unfold ofPool. induction leases as [|l' leases IH]; simpl; [done|].
  case_bool_decide as Hl'.
  - intros [= ->]. exists [], leases. split; [done|]. split; [apply Forall_nil_2|done].
  - intros Hfind. destruct (IH Hfind) as (before & after & -> & Hbefore & Hl).
    exists (l' :: before), after. split; [done|]. split; [by apply Forall_cons|done].
Qed.

(** C4. When the visible leases contain a lease labelled with the pool's
    name, the scan takes the first such lease; its identifier has a last
    character [c].  If the identifier is [<infra id>-c], [obtainLease]
    returns (c, true, nil); otherwise it returns an error.  Either way it
    returns at once: no call is made and the state is left as it was. *)
Theorem obtainLease_existing_lease cd md s before l after c :
  Spec_ClusterMetadata cd = Some md →
  Forall (λ l', ¬ ofPool (Name (pool s)) l') before →
  ofPool (Name (pool s)) l →
  strings.lastByte (lease_Name l) = Some c →
  let R := obtainLease w cd (before ++ l :: after) s in
  calls R = [] ∧ final R = s
  ∧ (lease_Name l = InfraID md +:+ "-" +:+ String c EmptyString →
     returned R = Returns (String c EmptyString, true, None))
  ∧ (lease_Name l ≠ InfraID md +:+ "-" +:+ String c EmptyString →
     ∃ err, returned R = Returns (EmptyString, false, Some err)).
Proof.
  intros Hmd Hbefore Hl Hc R. subst R.
  unfold obtainLease. rewrite bind_get.
  rewrite (find_first_of_pool _ _ _ _ Hbefore Hl), Hc, Hmd. step.
  case_decide as Hname; step.
  - split; [done|]. split; [done|]. split; [congruence|].
    intros _. by eexists.
  - split; [done|]. split; [done|]. split; [done|].
    intros Hne. exfalso. apply Hne. symmetry. by apply dec_stable.
Qed.

Lemma claimLease_returned cd r s c proceed :
  returned (claimLease w cd r s) = Returns (c, proceed, None) →
  c = string_of_rune r ∧ proceed = false.
Proof.
  destruct (Spec_ClusterMetadata cd) as [md|] eqn:Hmd;
    [rewrite (claimLease_run cd md) by done|by rewrite claimLease_panics].
  destruct (client_Create w _); cbn [returned]; [done|].
  by intros [= <- <-].
Qed.

(** C3, as the code has it.  When [obtainLease] returns a non-empty
    character without error, then either the pool has a lease among the
    visible ones and the character is the last one of the identifier of the
    first such lease, whatever it is, with proceed = true; or the pool has
    none, proceed = false, and the character is "w" for the pool whose
    logical name is "worker", and for any other pool a character of
    [validLeaseChars], hence neither "m" nor "w", that no lease of the
    cluster claims. *)
Theorem obtainLease_character cd leases s c proceed :
  returned (obtainLease w cd leases s) = Returns (c, proceed, None) →
  c ≠ EmptyString →
  (∃ before l after ch,
     leases = before ++ l :: after
     ∧ Forall (λ l', ¬ ofPool (Name (pool s)) l') before
     ∧ ofPool (Name (pool s)) l
     ∧ strings.lastByte (lease_Name l) = Some ch
     ∧ c = String ch EmptyString ∧ proceed = true)
  ∨ (Forall (λ l', ¬ ofPool (Name (pool s)) l') leases
     ∧ proceed = false
     ∧ ((Spec_Name (pool s) = "worker" ∧ c = "w")
        ∨ (Spec_Name (pool s) ≠ "worker"
           ∧ ∃ r, c = String r EmptyString
                  ∧ r ∈ runes validLeaseChars
                  ∧ r ≠ "m"%char ∧ r ≠ "w"%char
                  ∧ ¬ claimedBy cd leases r))).
Proof.
  unfold obtainLease. rewrite bind_get.
  destruct (List.find _ leases) as [l0|] eqn:Hfind.
  { apply find_some_of_pool in Hfind as (before & after & -> & Hbefore & Hl0).
    destruct (strings.lastByte (lease_Name l0)) as [ch|] eqn:Hch; step; [|done].
    destruct (Spec_ClusterMetadata cd) as [md|]; step; [|done].
    case_decide; step; [done|]. intros [= <- <-] _.
    left. by exists before, l0, after, ch. }
  apply find_none_of_pool in Hfind.
  destruct (decide (Spec_Name (pool s) = "worker")) as [Hworker|Hworker].
  { intros Hret _. apply claimLease_returned in Hret as [-> ->].
    right. split; [done|]. split; [done|]. by left. }
  unfold findAvailableLeaseChars.
  destruct (removeClaimed cd leases (stringToRuneSet validLeaseChars))
    as [avail|] eqn:Havail; step; [|done].
  set (keys := range_keys (iter_seed w) avail).
  assert (Hpick : ∀ r s', keys !! (rand_seed w `mod` length keys) = Some r →
            returned (claimLease w cd r s') = Returns (c, proceed, None) →
            Forall (λ l', ¬ ofPool (Name (pool s)) l') leases
            ∧ proceed = false
            ∧ ((Spec_Name (pool s) = "worker" ∧ c = "w")
               ∨ (Spec_Name (pool s) ≠ "worker"
                  ∧ ∃ r, c = String r EmptyString
                         ∧ r ∈ runes validLeaseChars
                         ∧ r ≠ "m"%char ∧ r ≠ "w"%char
                         ∧ ¬ claimedBy cd leases r))).
  { intros r s' Hr Hret. apply claimLease_returned in Hret as [-> ->].
    split; [done|]. split; [done|]. right. split; [done|]. exists r.
    apply list_elem_of_lookup_2 in Hr. apply range_keys_elem in Hr.
    apply (removeClaimed_elem _ _ _ _ Havail) in Hr as [Hr Hfree].
    apply stringToRuneSet_elem in Hr.
    destruct validLeaseChars_runes as (_ & _ & Hm & Hw & Hascii).
    rewrite Forall_forall in Hascii.
    split; [by apply Hascii|]. split; [done|].
    split; [by intros ->|]. split; [by intros ->|done]. }
  case_decide.
  { destruct (controllerutils.SetMachinePoolConditionWithChangeCheck _ _ _ _ _ _)
      as [conds [|]]; step; [|by intros [= <- <-]].
    destruct (client_Status_Update w _); step; [done|by intros [= <- <-]]. }
  destruct (controllerutils.SetMachinePoolConditionWithChangeCheck _ _ _ _ _ _)
    as [conds [|]]; step.
  - destruct (client_Status_Update w _); step; [done|].
    destruct (keys !! _) as [r|] eqn:Hr; step; [|done].
    intros Hret _. right. by apply (Hpick r (withConditions s conds)).
  - destruct (keys !! _) as [r|] eqn:Hr; step; [|done].
    intros Hret _. right. by apply (Hpick r s).
Qed.

(** The set-if-changed helper on the exhausted condition: the condition is
    there afterwards, and no write is asked for exactly when it was there
    before. *)
Lemma setExhausted conds :
  let result :=
    controllerutils.SetMachinePoolConditionWithChangeCheck conds
      NoMachinePoolNameLeasesAvailable corev1.ConditionTrue
      "OutOfMachinePoolNames" "All machine pool names are in use"
      controllerutils.UpdateConditionIfReasonOrMessageChange in
  conditionOf NoMachinePoolNameLeasesAvailable result.1 = Some exhausted
  ∧ (result.2 = false ↔ conditionOf NoMachinePoolNameLeasesAvailable conds = Some exhausted)
  ∧ (result.2 = false → result.1 = conds).
Proof.
  induction conds as [|c rest IH]; cbn [controllerutils.SetMachinePoolConditionWithChangeCheck].
  - rewrite decide_True by done. cbn. rewrite decide_True by done. by repeat split.
  - cbn [conditionOf]. case_decide as Hty.
    + destruct c as [ty st reason message]. cbn in Hty. subst ty.
      unfold controllerutils.UpdateConditionIfReasonOrMessageChange. cbn [Status Reason Message].
      destruct (bool_decide (st ≠ corev1.ConditionTrue)
                || (bool_decide (reason ≠ "OutOfMachinePoolNames")
                    || bool_decide (message ≠ "All machine pool names are in use")))
        eqn:Hchanged; cbn [fst snd conditionOf].
      * rewrite decide_True by done. split; [done|]. split; [|done].
        split; [done|]. intros [= -> -> ->]. by vm_compute in Hchanged.
      * rewrite decide_True by done.
        apply orb_false_elim in Hchanged as [Hst Hrest].
        apply orb_false_elim in Hrest as [Hreason Hmessage].
        apply bool_decide_eq_false, dec_stable in Hst, Hreason, Hmessage.
        subst. by repeat split.
    + destruct (controllerutils.SetMachinePoolConditionWithChangeCheck rest _ _ _ _ _)
        as [rest' changed]. cbn [fst snd conditionOf] in *.
      rewrite decide_False by done.
      destruct IH as (Hthere & Hsame & Hrest). split; [done|]. split; [done|].
      intros Hno. by rewrite Hrest.
Qed.

(** The run of [obtainLease] for a pool without lease, not the worker pool,
    when every character of the alphabet is claimed. *)
Lemma exhausted_run cd leases s :
  Forall (λ l, ¬ ofPool (Name (pool s)) l) leases →
  Spec_Name (pool s) ≠ "worker" →
  identified cd leases →
  (∀ r, r ∈ runes validLeaseChars → claimedBy cd leases r) →
  let result :=
    controllerutils.SetMachinePoolConditionWithChangeCheck (Status_Conditions (pool s))
      NoMachinePoolNameLeasesAvailable corev1.ConditionTrue
      "OutOfMachinePoolNames" "All machine pool names are in use"
      controllerutils.UpdateConditionIfReasonOrMessageChange in
  obtainLease w cd leases s =
    if result.2 then
      {| returned :=
           Returns (EmptyString, false,
                    client_Status_Update w (pool (withConditions s result.1)));
         final := withConditions s result.1;
         calls := [CallStatusUpdate (pool (withConditions s result.1))] |}
    else {| returned := Returns (EmptyString, false, None); final := s; calls := [] |}.
Proof.
  intros Hnone Hworker Hnamed Hall result. subst result.
  unfold obtainLease. rewrite bind_get.
  apply find_none_of_pool in Hnone. rewrite Hnone.
  rewrite decide_False by done.
  unfold findAvailableLeaseChars.
  destruct (removeClaimed_identified cd leases (stringToRuneSet validLeaseChars) Hnamed)
    as [avail Havail].
  rewrite Havail. step.
  assert (avail = ∅) as ->.
  { apply leibniz_equiv, elem_of_equiv_empty. intros r Hr.
    apply (removeClaimed_elem _ _ _ _ Havail) in Hr as [Hr Hfree].
    apply Hfree, Hall. by apply stringToRuneSet_elem. }
  rewrite decide_True by by apply range_keys_empty.
  destruct (controllerutils.SetMachinePoolConditionWithChangeCheck _ _ _ _ _ _)
    as [conds [|]]; step; [|done].
  by destruct (client_Status_Update w _).
Qed.

(** C5, as the code has it.  For a pool that is not the worker pool and has
    no lease, when every character of the alphabet is claimed by a lease of
    the cluster: if the pool already carries the exhausted condition,
    [obtainLease] returns ("", false, nil) without any call; otherwise it
    sets the condition and writes the status once, and returns ("", false,
    err) with the outcome [err] of that write, nil when the write succeeded.
    A further call from the state it leaves writes nothing. *)
Theorem obtainLease_exhausted cd leases s :
  Forall (λ l, ¬ ofPool (Name (pool s)) l) leases →
  Spec_Name (pool s) ≠ "worker" →
  identified cd leases →
  (∀ r, r ∈ runes validLeaseChars → claimedBy cd leases r) →
  let R := obtainLease w cd leases s in
  let carried s := conditionOf NoMachinePoolNameLeasesAvailable (Status_Conditions (pool s)) in
  (carried s = Some exhausted →
   R = {| returned := Returns (EmptyString, false, None); final := s; calls := [] |})
  ∧ (carried s ≠ Some exhausted →
     calls R = [CallStatusUpdate (pool (final R))]
     ∧ returned R = Returns (EmptyString, false, client_Status_Update w (pool (final R))))
  ∧ carried (final R) = Some exhausted
  ∧ obtainLease w cd leases (final R) =
      {| returned := Returns (EmptyString, false, None); final := final R; calls := [] |}.
Proof.
  intros Hnone Hworker Hnamed Hall R carried.
  assert (Hquiet : ∀ s', Name (pool s') = Name (pool s) →
            Spec_Name (pool s') = Spec_Name (pool s) →
            carried s' = Some exhausted →
            obtainLease w cd leases s' =
              {| returned := Returns (EmptyString, false, None); final := s'; calls := [] |}).
  { intros s' Hname Hspec Hcarried.
    rewrite exhausted_run; [|by rewrite Hname|by rewrite Hspec|done..].
    destruct (setExhausted (Status_Conditions (pool s'))) as (_ & Hsame & _).
    apply Hsame in Hcarried. by rewrite Hcarried. }
  destruct (setExhausted (Status_Conditions (pool s))) as (Hthere & Hsame & Hrest).
  assert (HR : R = obtainLease w cd leases s) by done.
  rewrite exhausted_run in HR by done.
  destruct (controllerutils.SetMachinePoolConditionWithChangeCheck _ _ _ _ _ _)
    as [conds changed]. cbn [fst snd] in *.
  destruct changed; rewrite HR; cbn [returned final calls].
  - split; [intros Hcarried; by apply Hsame in Hcarried|].
    split; [done|]. split; [done|]. by apply Hquiet.
  - assert (Hcarried : carried s = Some exhausted) by by apply Hsame.
    split; [done|]. split; [done|]. split; [done|]. by apply Hquiet.
Qed.

End Leases.

Lemma obtainLease_worker_without_leases_witness :
  let w := Sample.calm [] in
  let s := Sample.state "worker" in
  let l := newLease (pkg := Sample.package) (pool s) Sample.cluster "abc123-w" in
  let R := obtainLease (pkg := Sample.package) w Sample.cluster [] s in
  hivev1.Spec_ClusterMetadata Sample.cluster = Some {| hivev1.InfraID := "abc123" |}
  ∧ hivev1.Spec_Name (pool s) = "worker"
  ∧ client_Create w l = None
  ∧ returned R = Returns ("w", false, None)
  ∧ calls R = [CallExpectCreations "ns/mycluster-worker" 1; CallCreate l].
Proof.
  intros w s l R.
  split; [reflexivity|]. split; [reflexivity|]. split; [reflexivity|].
  apply (obtainLease_worker_without_leases (pkg := Sample.package) w Sample.cluster
           {| hivev1.InfraID := "abc123" |} s eq_refl eq_refl).
  reflexivity.
Defined.

(** C1 as the spec states it fails: with infra id abc123, logical name
    "worker" and no lease, the call returns proceed = false and has asked
    the store to create the lease abc123-w. *)
Lemma obtainLease_worker_not_ready :
  let R := obtainLease (pkg := Sample.package) (Sample.calm []) Sample.cluster []
             (Sample.state "worker") in
  ¬ (returned R = Returns ("w", true, None) ∧ ∀ l, CallCreate l ∉ calls R).
Proof.
  intros R [Hret _]. vm_compute in Hret. discriminate.
Qed.

Lemma obtainLease_create_failure_witness :
  let w := Sample.world [] (Some "already exists") None Sample.lastZones [] in
  let s := Sample.state "infra" in
  let R := obtainLease (pkg := Sample.package) w Sample.cluster [] s in
  let l := newLease (pkg := Sample.package) (pool s) Sample.cluster "abc123-3" in
  CallCreate l ∈ calls R
  ∧ client_Create w l = Some "already exists"
  ∧ returned R = Returns (EmptyString, false, Some "already exists")
  ∧ (∃ pre, calls R = pre ++ [CallExpectCreations (expectationKey s) 1; CallCreate l;
                              CallDeleteExpectations (expectationKey s)])
  ∧ expectations (final R) !! expectationKey s = None.
Proof.
  intros w s R l.
  assert (Hin : CallCreate l ∈ calls R).
  { vm_compute. apply list_elem_of_further, list_elem_of_here. }
  split; [exact Hin|]. split; [reflexivity|].
  exact (obtainLease_create_failure (pkg := Sample.package) w Sample.cluster [] s l
           "already exists" Hin eq_refl).
Defined.

Lemma obtainLease_existing_lease_witness :
  let s := Sample.state "infra" in
  let l := Sample.lease "abc123-k" "mycluster-infra" in
  let other := Sample.lease "abc123-a" "mycluster-worker" in
  let R := obtainLease (pkg := Sample.package) (Sample.calm []) Sample.cluster
             ([other] ++ l :: []) s in
  Forall (λ l', ¬ ofPool (pkg := Sample.package) (hivev1.Name (pool s)) l') [other]
  ∧ ofPool (pkg := Sample.package) (hivev1.Name (pool s)) l
  ∧ strings.lastByte (hivev1.lease_Name l) = Some "k"%char
  ∧ hivev1.lease_Name l = "abc123-k"
  ∧ calls R = [] ∧ final R = s ∧ returned R = Returns ("k", true, None).
Proof.
  intros s l other R.
  assert (Hother : Forall (λ l', ¬ ofPool (pkg := Sample.package) (hivev1.Name (pool s)) l')
                     [other]).
  { apply Forall_singleton. vm_compute. discriminate. }
  assert (Hl : ofPool (pkg := Sample.package) (hivev1.Name (pool s)) l) by reflexivity.
  split; [exact Hother|]. split; [exact Hl|]. split; [reflexivity|]. split; [reflexivity|].
  destruct (obtainLease_existing_lease (pkg := Sample.package) (Sample.calm [])
              Sample.cluster {| hivev1.InfraID := "abc123" |} s [other] l [] "k"%char
              eq_refl Hother Hl eq_refl) as (Hcalls & Hfinal & Hsame & _).
  split; [exact Hcalls|]. split; [exact Hfinal|]. exact (Hsame eq_refl).
Defined.

Lemma obtainLease_character_witness :
  let R := obtainLease (pkg := Sample.package) (Sample.calm []) Sample.cluster []
             (Sample.state "infra") in
  returned R = Returns ("3", false, None)
  ∧ "3" ≠ EmptyString
  ∧ ∃ r, "3" = String r EmptyString
         ∧ r ∈ runes validLeaseChars ∧ r ≠ "m"%char ∧ r ≠ "w"%char
         ∧ ¬ claimedBy (pkg := Sample.package) Sample.cluster [] r.
Proof.
  intros R.
  assert (Hne : "3" ≠ EmptyString) by discriminate.
  split; [reflexivity|]. split; [exact Hne|].
  destruct (obtainLease_character (pkg := Sample.package) (Sample.calm []) Sample.cluster []
              (Sample.state "infra") "3" false eq_refl Hne)
    as [(before & l & after & ch & Hleases & _)|(_ & _ & [[Hworker _]|[_ Hchar]])].
  - by destruct before.
  - discriminate Hworker.
  - exact Hchar.
Defined.

(** C3 as the spec states it fails: a pool whose visible lease is named
    abc123-m is given the character "m", which is not in the alphabet. *)
Lemma reserved_character_returned :
  let R := obtainLease (pkg := Sample.package) (Sample.calm []) Sample.cluster
             [Sample.lease "abc123-m" "mycluster-infra"] (Sample.state "infra") in
  ¬ (∀ c proceed, returned R = Returns (c, proceed, None) → c ≠ EmptyString →
       ∃ r, c = String r EmptyString ∧ r ∈ runes validLeaseChars).
Proof.
  intros R Hclaim.
  destruct (Hclaim "m" true eq_refl) as (r & [= <-] & Hr); [discriminate|].
  by destruct validLeaseChars_runes as (_ & _ & Hm & _).
Qed.

(** The sample leases claim the whole alphabet, for pools other than
    [mycluster-infra]. *)
Lemma allClaimed_other_pools :
  Forall (λ l, ¬ ofPool (pkg := Sample.package) "mycluster-infra" l) Sample.allClaimed.
Proof. unfold ofPool. apply (bool_decide_unpack _). by vm_compute. Qed.

Lemma allClaimed_identified :
  identified (pkg := Sample.package) Sample.cluster Sample.allClaimed.
Proof. unfold identified, ofCluster. apply (bool_decide_unpack _). by vm_compute. Qed.

Lemma allClaimed_alphabet r :
  r ∈ runes validLeaseChars →
  claimedBy (pkg := Sample.package) Sample.cluster Sample.allClaimed r.
Proof.
  assert (Hall : Forall (λ r, Exists (λ l,
                     label (hivev1.lease_Labels l)
                       (ClusterDeploymentNameLabel (Package := Sample.package))
                       = hivev1.cd_Name Sample.cluster
                     ∧ strings.lastByte (hivev1.lease_Name l) = Some r) Sample.allClaimed)
                   (runes validLeaseChars)).
  { apply (bool_decide_unpack _). by vm_compute. }
  rewrite Forall_forall in Hall. intros Hr.
  apply Hall, Exists_exists in Hr as (l & Hin & Hl). by exists l.
Qed.

Lemma obtainLease_exhausted_witness :
  let w := Sample.calm Sample.allClaimed in
  let s := Sample.state "infra" in
  let R := obtainLease (pkg := Sample.package) w Sample.cluster Sample.allClaimed s in
  hivev1.Spec_Name (pool s) ≠ "worker"
  ∧ conditionOf hivev1.NoMachinePoolNameLeasesAvailable
      (hivev1.Status_Conditions (pool s)) ≠ Some exhausted
  ∧ calls R = [CallStatusUpdate (pool (final R))]
  ∧ returned R = Returns (EmptyString, false, None)
  ∧ conditionOf hivev1.NoMachinePoolNameLeasesAvailable
      (hivev1.Status_Conditions (pool (final R))) = Some exhausted
  ∧ obtainLease (pkg := Sample.package) w Sample.cluster Sample.allClaimed (final R) =
      {| returned := Returns (EmptyString, false, None); final := final R; calls := [] |}.
Proof.
  intros w s R.
  assert (Hworker : hivev1.Spec_Name (pool s) ≠ "worker") by discriminate.
  assert (Hfresh : conditionOf hivev1.NoMachinePoolNameLeasesAvailable
                     (hivev1.Status_Conditions (pool s)) ≠ Some exhausted) by discriminate.
  split; [exact Hworker|]. split; [exact Hfresh|].
  destruct (obtainLease_exhausted (pkg := Sample.package) w Sample.cluster Sample.allClaimed s
              allClaimed_other_pools Hworker allClaimed_identified allClaimed_alphabet)
    as (_ & Hwrite & Hcarried & Hagain).
  destruct (Hwrite Hfresh) as [Hcalls Hret].
  split; [exact Hcalls|]. split; [exact Hret|]. split; [exact Hcarried|exact Hagain].
Defined.

(** C5 as the spec states it fails: when the status write that records the
    exhaustion fails, the call returns that error, not ("", false, nil). *)
Lemma exhaustion_write_error_returned :
  let w := Sample.world Sample.allClaimed None (Some "conflict") Sample.lastZones [] in
  let R := obtainLease (pkg := Sample.package) w Sample.cluster Sample.allClaimed
             (Sample.state "infra") in
  (∀ r, r ∈ runes validLeaseChars →
        claimedBy (pkg := Sample.package) Sample.cluster Sample.allClaimed r)
  ∧ returned R = Returns (EmptyString, false, Some "conflict")
  ∧ returned R ≠ Returns (EmptyString, false, None).
Proof.
  intros w R. split; [exact allClaimed_alphabet|].
  assert (Hret : returned R = Returns (EmptyString, false, Some "conflict")) by by vm_compute.
  split; [exact Hret|]. rewrite Hret. discriminate.
Qed.

(** ** Zones and image *)

Section Topology.

Context `{pkg : Package} (w : World).

Import hivev1.

Implicit Types (cd : ClusterDeployment) (s : State).

(** C8. The image query asks for the names matching [<infra id>-.*].  When
    it answers with exactly one image, [getImageID] returns the name of
    that image and no error; when it answers with none, or with two or
    more, [getImageID] returns an error, and the message for none differs
    from the message for several. *)
Theorem getImageID_results cd md s result :
  Spec_ClusterMetadata cd = Some md →
  gcp_ListComputeImages w
    {| gcpclient.ImagesFilter :=
         "name eq " +:+ dquote +:+ InfraID md +:+ "-.*" +:+ dquote |} = Ok result →
  let none := "found 0 results searching for GCP image starting with name: "
              +:+ InfraID md in
  let several :=
    "unexpected number of results when looking for GCP image with name starting with "
    +:+ InfraID md in
  (∀ image, gcpclient.ImageItems result = [image] →
     returned (getImageID w cd s) = Returns (gcpclient.ImageName image, None))
  ∧ (gcpclient.ImageItems result = [] →
     returned (getImageID w cd s) = Returns (EmptyString, Some none))
  ∧ (2 ≤ length (gcpclient.ImageItems result) →
     returned (getImageID w cd s) = Returns (EmptyString, Some several))
  ∧ none ≠ several.
Proof.
  intros Hmd Hquery none several.
  unfold getImageID. rewrite Hmd. step. rewrite Hquery.
  split; [by intros image ->|].
  split; [by intros ->|].
  split; [|discriminate].
  destruct (gcpclient.ImageItems result) as [|image [|image' images]]; simpl; [lia..|done].
Qed.

(** The loop of [getZones] over pages that each name a next one, up to the
    query with the token [last]. *)
Lemma getZones_loop_pages zoneFilter s last pages : ∀ token zones n,
  served w zoneFilter token pages last →
  length pages < n →
  let R := getZones_loop w n zoneFilter token zones s in
  let tokens := token :: map gcpclient.NextPageToken pages in
  let query := {| gcpclient.Filter := zoneFilter; gcpclient.PageToken := last |} in
  (∀ page, gcp_ListComputeZones w query = Ok page →
     gcpclient.NextPageToken page = EmptyString →
     R = {| returned := Returns (zones ++ zoneNames (pages ++ [page]), None);
            final := s; calls := zoneCalls zoneFilter tokens |})
  ∧ (∀ err, gcp_ListComputeZones w query = Err err →
     R = {| returned := Returns (zones ++ zoneNames pages, Some err);
            final := s; calls := zoneCalls zoneFilter tokens |}).
Proof.
  induction pages as [|first pages IH]; intros token zones n Hserved Hn;
    (destruct n as [|n]; [simpl in Hn; lia|]); cbn [getZones_loop served] in *.
  - subst last. step. split.
    + intros page -> Hlast. rewrite decide_True by done.
      unfold zoneNames. cbn. by rewrite app_nil_r.
    + intros err ->. unfold zoneNames. cbn. by rewrite app_nil_r.
  - destruct Hserved as (Hfirst & Hnext & Hserved). step. rewrite Hfirst.
    rewrite decide_False by done.
    destruct (IH (gcpclient.NextPageToken first)
                 (zones ++ map gcpclient.ZoneName (gcpclient.ZoneItems first)) n Hserved)
      as [Hok Herr]; [simpl in Hn; lia|].
    split.
    + intros page Hpage Hlast. rewrite (Hok page Hpage Hlast).
      unfold after, zoneNames. cbn. by rewrite <- app_assoc.
    + intros err Hquery. rewrite (Herr err Hquery).
      unfold after, zoneNames. cbn. by rewrite <- app_assoc.
Qed.

(** C9, as the code has it.  When the zone query is answered by pages that
    each name a next page, [getZones] asks for every one of them in turn,
    with the empty token first and then the token each page names.  If the
    query after them answers with a page without next token, [getZones]
    returns the zone names of all pages, in order, and no error.  If it
    fails, [getZones] returns the error together with the zone names of the
    pages before it. *)
Theorem getZones_pages region s pages last n :
  let zoneFilter := "(region eq '.*" +:+ region +:+ ".*') (status eq UP)" in
  served w zoneFilter EmptyString pages last →
  length pages < n →
  let R := getZones w n region s in
  let tokens := EmptyString :: map gcpclient.NextPageToken pages in
  let query := {| gcpclient.Filter := zoneFilter; gcpclient.PageToken := last |} in
  (∀ page, gcp_ListComputeZones w query = Ok page →
     gcpclient.NextPageToken page = EmptyString →
     returned R = Returns (zoneNames (pages ++ [page]), None)
     ∧ calls R = zoneCalls zoneFilter tokens)
  ∧ (∀ err, gcp_ListComputeZones w query = Err err →
     returned R = Returns (zoneNames pages, Some err)
     ∧ calls R = zoneCalls zoneFilter tokens).
Proof.
  intros zoneFilter Hserved Hn R tokens query. subst R.
  destruct (getZones_loop_pages zoneFilter s last pages EmptyString [] n Hserved Hn)
    as [Hok Herr].
  unfold getZones. fold zoneFilter. split.
  - intros page Hpage Hlast. by rewrite (Hok page Hpage Hlast).
  - intros err Hquery. by rewrite (Herr err Hquery).
Qed.

End Topology.

Lemma getImageID_results_witness :
  let w := Sample.calm [] in
  let image := {| gcpclient.ImageName := "abc123-rhcos-image" |} in
  let result := {| gcpclient.ImageItems := [image] |} in
  hivev1.Spec_ClusterMetadata Sample.cluster = Some {| hivev1.InfraID := "abc123" |}
  ∧ gcp_ListComputeImages w
      {| gcpclient.ImagesFilter := "name eq " +:+ dquote +:+ "abc123" +:+ "-.*" +:+ dquote |}
    = Ok result
  ∧ returned (getImageID (Sample.calm []) Sample.cluster (Sample.state "infra"))
    = Returns ("abc123-rhcos-image", None).
Proof.
  intros w image result.
  split; [reflexivity|]. split; [reflexivity|].
  destruct (getImageID_results w Sample.cluster {| hivev1.InfraID := "abc123" |}
              (Sample.state "infra") result eq_refl eq_refl) as (Hone & _).
  exact (Hone image eq_refl).
Defined.

Lemma getZones_pages_witness :
  let w := Sample.calm [] in
  let zoneFilter := "(region eq '.*" +:+ "us-east1" +:+ ".*') (status eq UP)" in
  let first := {| gcpclient.ZoneItems := [Sample.zone "us-east1-b"; Sample.zone "us-east1-c"];
                  gcpclient.NextPageToken := "page2" |} in
  let second := {| gcpclient.ZoneItems := [Sample.zone "us-east1-d"];
                   gcpclient.NextPageToken := EmptyString |} in
  let R := getZones w 5 "us-east1" (Sample.state "infra") in
  served w zoneFilter EmptyString [first] "page2"
  ∧ length [first] < 5
  ∧ gcp_ListComputeZones w
      {| gcpclient.Filter := zoneFilter; gcpclient.PageToken := "page2" |} = Ok second
  ∧ returned R = Returns (["us-east1-b"; "us-east1-c"; "us-east1-d"], None)
  ∧ calls R = zoneCalls zoneFilter [EmptyString; "page2"].
Proof.
  intros w zoneFilter first second R.
  assert (Hserved : served w zoneFilter EmptyString [first] "page2").
  { split; [reflexivity|]. split; [discriminate|reflexivity]. }
  assert (Hn : length [first] < 5) by (simpl; lia).
  split; [exact Hserved|]. split; [exact Hn|]. split; [reflexivity|].
  destruct (getZones_pages w "us-east1" (Sample.state "infra") [first] "page2" 5 Hserved Hn)
    as [Hok _].
  exact (Hok second eq_refl eq_refl).
Defined.

(** C9 as the spec states it fails: when the second page fails, the zone
    names of the first page are returned together with the error. *)
Lemma getZones_partial_results :
  let w := Sample.world [] None None (Err "boom") [] in
  let R := getZones w 5 "us-east1" (Sample.state "infra") in
  returned R = Returns (["us-east1-b"; "us-east1-c"], Some "boom")
  ∧ ¬ (∃ err, returned R = Returns ([], Some err)).
Proof.
  intros w R.
  assert (Hret : returned R = Returns (["us-east1-b"; "us-east1-c"], Some "boom"))
    by by vm_compute.
  split; [exact Hret|]. rewrite Hret. intros [err Herr]. discriminate.
Qed.

(** ** Generating the machine sets *)

Section Generate.

Context `{pkg : Package} (w : World).

Import hivev1.

Implicit Types (cd : ClusterDeployment) (s : State) (a : GCPActuator).

Lemma M_bind_returns {A B} (m : M A) (k : A → M B) s x :
  returned (m s) = Returns x →
  M_bind A B k m s = after (calls (m s)) (k x (final (m s))).
Proof. intros E. unfold M_bind. by rewrite E. Qed.

Lemma M_bind_calls {A B} (m : M A) (k : A → M B) s :
  (∀ x, returned (m s) ≠ Returns x) →
  calls (M_bind A B k m s) = calls (m s)
  ∧ ∀ y, returned (M_bind A B k m s) ≠ Returns y.
Proof.
  intros E. unfold M_bind.
  destruct (returned (m s)) as [x| |]; [by destruct (E x)|done..].
Qed.

Lemma obtainLease_calls cd leases : callsAll isLeaseCall (obtainLease w cd leases).
Proof.
  unfold obtainLease, claimLease, findAvailableLeaseChars, setConditions, statusUpdate,
    expectCreations, deleteExpectations.
  calls_all.
Qed.

Lemma getZones_loop_calls poolName zoneFilter : ∀ n token zones,
  callsAll (isBuildCall poolName) (getZones_loop w n zoneFilter token zones).
Proof.
  induction n as [|n IH]; intros token zones; cbn [getZones_loop]; calls_all.
  apply IH.
Qed.

(** Once the name is chosen, only the cloud is asked, and the installer
    for machine sets of a pool of that name. *)
Lemma machineSetsFor_calls a pages cd clusterVersion poolName :
  callsAll (isBuildCall poolName) (machineSetsFor w a pages cd clusterVersion poolName).
Proof.
  unfold machineSetsFor, getImageID, getZones.
  calls_all; apply getZones_loop_calls.
Qed.

(** C2. Whenever [obtainLease] has asked for the creation of a lease and
    the creation succeeded, it returns the character it chose for the lease,
    with proceed = false and no error; and a call of [GenerateMachineSets]
    in which this happened returns (nil, false, nil): no machine set is
    generated in the invocation that created the lease. *)
Theorem created_lease_not_ready cd s l :
  client_Create w l = None →
  (∀ leases, CallCreate l ∈ calls (obtainLease w cd leases s) →
     ∃ md r, Spec_ClusterMetadata cd = Some md
             ∧ lease_Name l = InfraID md +:+ "-" +:+ string_of_rune r
             ∧ returned (obtainLease w cd leases s) = Returns (string_of_rune r, false, None))
  ∧ (∀ a pages, CallCreate l ∈ calls (GenerateMachineSets w a pages cd s) →
     returned (GenerateMachineSets w a pages cd s) = Returns ([], false, None)).
Proof.
  intros Hok. split.
  { intros leases Hin.
    apply obtainLease_claimed in Hin as (md & r & pre & Hmd & -> & _ & Hrun).
    rewrite Hok in Hrun. destruct Hrun as (Hret & _). by exists md, r. }
  intros a pages.
  assert (Hbuild : ∀ cv name s', CallCreate l ∉ calls (machineSetsFor w a pages cd cv name s')).
  { intros cv name s' Hin.
    pose proof (machineSetsFor_calls a pages cd cv name s') as Hall.
    rewrite Forall_forall in Hall. by apply Hall in Hin. }
  unfold GenerateMachineSets. rewrite bind_get.
  case_decide; [step; intros Hin; by apply elem_of_nil in Hin|].
  case_decide; [step; intros Hin; by apply elem_of_nil in Hin|].
  case_decide; [step; intros Hin; by apply elem_of_nil in Hin|].
  destruct (getClusterVersion cd) as [cv [e|]];
    [step; intros Hin; by apply elem_of_nil in Hin|].
  step.
  destruct (client_List w _ _) as [leases|e]; step;
    [|intros Hin; apply list_elem_of_singleton in Hin; discriminate].
  set (G := M_bind _ _ _ (obtainLease w cd leases)).
  assert (HG : CallCreate l ∈ CallList (Namespace (pool s))
                 (<[ClusterDeploymentNameLabel:=cd_Name cd]> ∅) :: calls (G s) →
               returned (G s) = Returns ([], false, None)).
  { intros Hin. apply elem_of_cons in Hin as [Hin|Hin]; [discriminate|].
    subst G.
    destruct (returned (obtainLease w cd leases s)) as [[[c p] e]| |] eqn:HL.
    2,3: (assert (Hne : ∀ x, returned (obtainLease w cd leases s) ≠ Returns x)
            by (intros x; by rewrite HL);
          rewrite (proj1 (M_bind_calls _ _ _ Hne)) in Hin;
          apply obtainLease_claimed in Hin as (md & r & pre & _ & _ & _ & Hrun);
          rewrite Hok, HL in Hrun; by destruct Hrun).
    rewrite (M_bind_returns _ _ _ _ HL) in Hin |- *. cbn [after calls returned] in *.
    apply elem_of_app in Hin as [Hin|Hin].
    - apply obtainLease_claimed in Hin as (md & r & pre & _ & _ & _ & Hrun).
      rewrite Hok in Hrun. destruct Hrun as (Hret & _).
      rewrite HL in Hret. by injection Hret as -> -> ->.
    - destruct e as [e|]; [by apply elem_of_nil in Hin|].
      destruct p; cbn [negb] in Hin; [by apply Hbuild in Hin|by apply elem_of_nil in Hin]. }
  destruct (leasesRequired a); [exact HG|].
  case_decide; [exact HG|].
  intros Hin. apply elem_of_cons in Hin as [Hin|Hin]; [discriminate|].
  by apply Hbuild in Hin.
Qed.

(** [obtainLease] answers proceed = true only for a lease it found among the
    visible ones: it has then made no call and left the state alone. *)
Lemma obtainLease_proceeds cd leases s c err :
  returned (obtainLease w cd leases s) = Returns (c, true, err) →
  obtainLease w cd leases s =
    {| returned := Returns (c, true, None); final := s; calls := [] |}.
Proof.
  assert (Hclaim : ∀ r s' pre,
            returned (after pre (claimLease w cd r s')) ≠ Returns (c, true, err)).
  { intros r s' pre.
    destruct (Spec_ClusterMetadata cd) as [md|] eqn:Hmd;
      [rewrite (claimLease_run w cd md) by done|by rewrite claimLease_panics].
    by destruct (client_Create w _). }
  unfold obtainLease. rewrite bind_get.
  destruct (List.find _ leases) as [l0|] eqn:Hfind.
  { destruct (strings.lastByte (lease_Name l0)) as [ch|]; step; [|done].
    destruct (Spec_ClusterMetadata cd) as [md|]; step; [|done].
    case_decide; step; [done|]. by intros [= <- <-]. }
  destruct (decide (Spec_Name (pool s) = "worker")) as [Hworker|Hworker].
  { intros Hret. by destruct (Hclaim "w"%char s [] Hret). }
  unfold findAvailableLeaseChars.
  destruct (removeClaimed cd leases (stringToRuneSet validLeaseChars))
    as [avail|]; step; [|done].
  case_decide.
  { destruct (controllerutils.SetMachinePoolConditionWithChangeCheck _ _ _ _ _ _)
      as [conds [|]]; step; [|done].
    destruct (client_Status_Update w _); step; done. }
  destruct (controllerutils.SetMachinePoolConditionWithChangeCheck _ _ _ _ _ _)
    as [conds [|]]; step.
  - destruct (client_Status_Update w _); step; [done|].
    destruct (_ !! _) as [r|]; step; [|done].
    intros Hret. by destruct (Hclaim r _ [CallStatusUpdate (pool (withConditions s conds))] Hret).
  - destruct (_ !! _) as [r|]; step; [|done].
    intros Hret. by destruct (Hclaim r s [] Hret).
Qed.

(** Asking for the zones leaves the state alone. *)
Lemma getZones_loop_final zoneFilter s : ∀ n token zones,
  final (getZones_loop w n zoneFilter token zones s) = s.
Proof.
  induction n as [|n IH]; intros token zones; cbn [getZones_loop]; [done|].
  step. destruct (gcp_ListComputeZones w _) as [zoneList|err]; step; [|done].
  case_decide; step; [done|apply IH].
Qed.

(** The end of [GenerateMachineSets] when the cloud answers: with one image
    found, at least one zone, given by the pool or else by the cloud, and the
    user data determined, the installer is asked for the machine sets of a
    pool named [poolName], and its answer is returned. *)
Lemma machineSetsFor_installer a pages cd clusterVersion poolName s md cdGCP poolGCP
    result image userData zones :
  Spec_ClusterMetadata cd = Some md →
  Spec_Platform_GCP_ cd = Some cdGCP →
  Spec_Platform_GCP (pool s) = Some poolGCP →
  gcp_ListComputeImages w
    {| gcpclient.ImagesFilter := "name eq " +:+ dquote +:+ InfraID md +:+ "-.*" +:+ dquote |}
    = Ok result →
  gcpclient.ImageItems result = [image] →
  workerUserData clusterVersion = (userData, None) →
  zones ≠ [] →
  Zones poolGCP = zones
  ∨ (Zones poolGCP = []
     ∧ returned (getZones w pages (Region cdGCP) s) = Returns (zones, None)) →
  let ic := {| installertypes.Region := Region cdGCP;
               installertypes.ProjectID := projectID a |} in
  let computePool :=
    {| installertypes.Name := poolName;
       installertypes.Replicas := installertypes.Replicas (baseMachinePool (pool s));
       installertypes.Platform_GCP :=
         Some {| installertypes.Zones := zones;
                 installertypes.InstanceType := InstanceType poolGCP;
                 installertypes.OSDisk_ :=
                   {| installertypes.DiskType := "pd-ssd";
                      installertypes.DiskSizeGB := 128 |} |} |} in
  let answer := installgcp_MachineSets (InfraID md) ic computePool
                  (gcpclient.ImageName image) workerRole userData in
  machineSetsFor w a pages cd clusterVersion poolName s =
    {| returned := Returns (answer.1, bool_decide (answer.2 = None),
                            errors.Wrap answer.2 "failed to generate machinesets");
       final := s;
       calls := CallListComputeImages
                  {| gcpclient.ImagesFilter :=
                       "name eq " +:+ dquote +:+ InfraID md +:+ "-.*" +:+ dquote |}
                :: (if decide (Zones poolGCP = [])
                    then calls (getZones w pages (Region cdGCP) s) else [])
                ++ [CallMachineSets (InfraID md) ic computePool (gcpclient.ImageName image)
                      workerRole userData] |}.
Proof.
  intros Hmd Hcd Hpool Himages Hone Hdata Hzones Hfrom ic computePool answer.
  subst answer computePool ic.
  assert (Himage : getImageID w cd s =
            {| returned := Returns (gcpclient.ImageName image, None); final := s;
               calls := [CallListComputeImages
                           {| gcpclient.ImagesFilter :=
                                "name eq " +:+ dquote +:+ InfraID md +:+ "-.*" +:+ dquote |}] |}).
  { unfold getImageID. rewrite Hmd. step. by rewrite Himages, Hone. }
  unfold machineSetsFor. rewrite bind_get, Hmd, Hcd, Hpool. step.
  rewrite (M_bind_returns _ _ _ (gcpclient.ImageName image, None)) by by rewrite Himage.
  rewrite Himage. cbn [after returned final calls app errors.Wrap]. step.
  rewrite Hdata.
  destruct Hfrom as [Hpoolzones|[Hnone Hquery]].
  - rewrite decide_False by (rewrite Hpoolzones; by destruct zones).
    rewrite decide_False by (rewrite Hpoolzones; by destruct zones).
    step. rewrite Hpoolzones.
    by destruct (installgcp_MachineSets _ _ _ _ _ _).
  - rewrite decide_True by by rewrite Hnone.
    rewrite decide_True by done.
    pose proof (getZones_loop_final
                  ("(region eq '.*" +:+ Region cdGCP +:+ ".*') (status eq UP)") s pages
                  EmptyString []) as Hfinal.
    fold (getZones w pages (Region cdGCP)) in Hfinal.
    set (fetch := M_bind _ _ _ (getZones w pages (Region cdGCP))).
    assert (Hfetch : fetch s = {| returned := Returns (Ok zones); final := s;
                                  calls := calls (getZones w pages (Region cdGCP) s) |}).
    { subst fetch. rewrite (M_bind_returns _ _ _ _ Hquery).
      cbn [errors.Wrap]. rewrite decide_False by by destruct zones.
      unfold after, mret, M_ret. cbn [returned final calls].
      by rewrite Hfinal, app_nil_r. }
    clearbody fetch.
    rewrite (M_bind_returns fetch _ _ (Ok zones)) by by rewrite Hfetch.
    rewrite Hfetch. step.
    by destruct (installgcp_MachineSets _ _ _ _ _ _).
Qed.

(** C10. In a call of [GenerateMachineSets] that gets as far as listing the
    leases: when the visible lease list is not empty, or leases are required,
    [obtainLease] is run on that list, whatever the lease requirement says;
    machine sets are only asked for under the character that it returned
    with proceed = true, and when it returned one, the pool is built under
    that character: with one image found, at least one zone and the user data
    determined, the run ends with the installer asked for a compute pool
    named by the character, and returns the installer's answer.  When the
    list is empty and leases are not required, no call of the lease allocator
    is made, and in the same way the pool is built under its logical name. *)
Theorem GenerateMachineSets_pool_name a pages cd s clusterVersion leases :
  Spec_ClusterMetadata cd ≠ None →
  Spec_Platform_GCP_ cd ≠ None →
  Spec_Platform_GCP (pool s) ≠ None →
  getClusterVersion cd = (clusterVersion, None) →
  client_List w (Namespace (pool s)) (<[ClusterDeploymentNameLabel := cd_Name cd]> ∅)
    = Ok leases →
  let G := GenerateMachineSets w a pages cd s in
  let L := obtainLease w cd leases s in
  let listed := CallList (Namespace (pool s))
                  (<[ClusterDeploymentNameLabel := cd_Name cd]> ∅) in
  let builtUnder (poolName : string) :=
    ∀ md cdGCP poolGCP result image userData zones,
      Spec_ClusterMetadata cd = Some md →
      Spec_Platform_GCP_ cd = Some cdGCP →
      Spec_Platform_GCP (pool s) = Some poolGCP →
      let query := {| gcpclient.ImagesFilter :=
                        "name eq " +:+ dquote +:+ InfraID md +:+ "-.*" +:+ dquote |} in
      gcp_ListComputeImages w query = Ok result →
      gcpclient.ImageItems result = [image] →
      workerUserData clusterVersion = (userData, None) →
      zones ≠ [] →
      Zones poolGCP = zones
      ∨ (Zones poolGCP = []
         ∧ returned (getZones w pages (Region cdGCP) s) = Returns (zones, None)) →
      let ic := {| installertypes.Region := Region cdGCP;
                   installertypes.ProjectID := projectID a |} in
      let computePool :=
        {| installertypes.Name := poolName;
           installertypes.Replicas := installertypes.Replicas (baseMachinePool (pool s));
           installertypes.Platform_GCP :=
             Some {| installertypes.Zones := zones;
                     installertypes.InstanceType := InstanceType poolGCP;
                     installertypes.OSDisk_ :=
                       {| installertypes.DiskType := "pd-ssd";
                          installertypes.DiskSizeGB := 128 |} |} |} in
      let answer := installgcp_MachineSets (InfraID md) ic computePool
                      (gcpclient.ImageName image) workerRole userData in
      calls G = listed :: CallListComputeImages query
                :: (if decide (Zones poolGCP = [])
                    then calls (getZones w pages (Region cdGCP) s) else [])
                ++ [CallMachineSets (InfraID md) ic computePool (gcpclient.ImageName image)
                      workerRole userData]
      ∧ returned G = Returns (answer.1, bool_decide (answer.2 = None),
                              errors.Wrap answer.2 "failed to generate machinesets") in
  (leases ≠ [] ∨ leasesRequired a = true →
     (∃ rest, calls G = listed :: calls L ++ rest)
     ∧ (∀ infraID ic computePool imageID role userData,
          CallMachineSets infraID ic computePool imageID role userData ∈ calls G →
          returned L = Returns (installertypes.Name computePool, true, None))
     ∧ (∀ c err, returned L = Returns (c, true, err) → builtUnder c))
  ∧ (leases = [] ∧ leasesRequired a = false →
     Forall (λ c, ¬ isLeaseCall c) (calls G)
     ∧ (∀ infraID ic computePool imageID role userData,
          CallMachineSets infraID ic computePool imageID role userData ∈ calls G →
          installertypes.Name computePool = Spec_Name (pool s))
     ∧ builtUnder (Spec_Name (pool s))).
Proof.
  intros Hmd Hcd Hpool Hversion Hlist G L listed builtUnder.
  subst G L listed builtUnder. cbn zeta.
  assert (Hbuild : ∀ name s' c,
            c ∈ calls (machineSetsFor w a pages cd clusterVersion name s') →
            isBuildCall name c).
  { intros name s' c Hin.
    pose proof (machineSetsFor_calls a pages cd clusterVersion name s') as Hall.
    rewrite Forall_forall in Hall. by apply Hall. }
  assert (Hlease : ∀ c, c ∈ calls (obtainLease w cd leases s) → isLeaseCall c).
  { intros c Hin. pose proof (obtainLease_calls cd leases s) as Hall.
    rewrite Forall_forall in Hall. by apply Hall. }
  unfold GenerateMachineSets. rewrite bind_get.
  rewrite !decide_False by done. rewrite Hversion. step. rewrite Hlist.
  split.
  - intros Huse.
    assert (Hyes : (if leasesRequired a then true
                    else if decide (0 < length leases) then true else false) = true).
    { destruct Huse as [Hne| ->]; [|done]. destruct (leasesRequired a); [done|].
      rewrite decide_True; [done|]. destruct leases; [done|simpl; lia]. }
    rewrite Hyes.
    destruct (returned (obtainLease w cd leases s)) as [[[c p] e]| |] eqn:HL.
    2,3: (assert (Hne : ∀ x, returned (obtainLease w cd leases s) ≠ Returns x)
            by (intros x; by rewrite HL);
          rewrite (proj1 (M_bind_calls _ _ _ Hne));
          split; [exists []; by rewrite app_nil_r|];
          split; [|done];
          intros infraID ic computePool imageID role userData Hin;
          apply elem_of_cons in Hin as [Hin|Hin]; [discriminate|];
          by apply Hlease in Hin).
    rewrite (M_bind_returns _ _ _ _ HL). cbn [after calls returned].
    split; [by eexists|]. split.
    + intros infraID ic computePool imageID role userData Hin.
      apply elem_of_cons in Hin as [Hin|Hin]; [discriminate|].
      apply elem_of_app in Hin as [Hin|Hin]; [by apply Hlease in Hin|].
      destruct e as [e|]; [by apply elem_of_nil in Hin|].
      destruct p; cbn [negb] in Hin; [|by apply elem_of_nil in Hin].
      apply Hbuild in Hin. cbn in Hin. by rewrite Hin.
    + intros c' err [= -> -> ->].
      pose proof (obtainLease_proceeds cd leases s c' err HL) as Hrun.
      rewrite Hrun in HL. cbn [returned] in HL. injection HL as <-.
      rewrite Hrun. cbn [returned final calls negb app].
      intros md cdGCP poolGCP result image userData zones
        Hmd' Hcd' Hpool' Himages Hone Hdata Hzones Hfrom.
      rewrite (machineSetsFor_installer a pages cd clusterVersion c' s md cdGCP poolGCP
                 result image userData zones Hmd' Hcd' Hpool' Himages Hone Hdata Hzones
                 Hfrom).
      by cbn [returned calls].
  - intros [-> Hno]. rewrite Hno. cbn [length]. rewrite decide_False by lia.
    cbn [calls after returned]. split; [|split].
    + apply Forall_cons. split; [by intros []|].
      apply Forall_forall. intros c Hin Hc. apply Hbuild in Hin. by destruct c.
    + intros infraID ic computePool imageID role userData Hin.
      apply elem_of_cons in Hin as [Hin|Hin]; [discriminate|].
      by apply Hbuild in Hin.
    + intros md cdGCP poolGCP result image userData zones
        Hmd' Hcd' Hpool' Himages Hone Hdata Hzones Hfrom.
      rewrite (machineSetsFor_installer a pages cd clusterVersion (Spec_Name (pool s)) s
                 md cdGCP poolGCP result image userData zones Hmd' Hcd' Hpool' Himages
                 Hone Hdata Hzones Hfrom).
      by cbn [returned calls].
Qed.

End Generate.

Lemma created_lease_not_ready_witness :
  let w := Sample.calm [] in
  let s := Sample.state "infra" in
  let l := newLease (pkg := Sample.package) (pool s) Sample.cluster "abc123-3" in
  let L := obtainLease (pkg := Sample.package) w Sample.cluster [] s in
  let G := GenerateMachineSets (pkg := Sample.package) w (Sample.actuator true) 5
             Sample.cluster s in
  client_Create w l = None
  ∧ CallCreate l ∈ calls L
  ∧ CallCreate l ∈ calls G
  ∧ (∃ md r, hivev1.Spec_ClusterMetadata Sample.cluster = Some md
             ∧ hivev1.lease_Name l = hivev1.InfraID md +:+ "-" +:+ string_of_rune r
             ∧ returned L = Returns (string_of_rune r, false, None))
  ∧ returned G = Returns ([], false, None).
Proof.
  intros w s l L G.
  assert (HL : CallCreate l ∈ calls L).
  { vm_compute. apply list_elem_of_further, list_elem_of_here. }
  assert (HG : CallCreate l ∈ calls G).
  { vm_compute. do 2 apply list_elem_of_further. apply list_elem_of_here. }
  split; [reflexivity|]. split; [exact HL|]. split; [exact HG|].
  destruct (created_lease_not_ready (pkg := Sample.package) w Sample.cluster s l eq_refl)
    as [Hlease Hgenerate].
  split; [exact (Hlease [] HL)|exact (Hgenerate (Sample.actuator true) 5 HG)].
Defined.

Lemma GenerateMachineSets_pool_name_witness :
  let leases := [Sample.lease "abc123-k" "mycluster-infra"] in
  let s := Sample.state "infra" in
  let a := Sample.actuator false in
  let G := GenerateMachineSets (pkg := Sample.package) (Sample.calm leases) a 5
             Sample.cluster s in
  let L := obtainLease (pkg := Sample.package) (Sample.calm leases) Sample.cluster leases s in
  let G0 := GenerateMachineSets (pkg := Sample.package) (Sample.calm []) a 5
              Sample.cluster s in
  let listed :=
    CallList "ns" (<[ClusterDeploymentNameLabel (Package := Sample.package) := "mycluster"]> ∅) in
  let images :=
    CallListComputeImages
      {| gcpclient.ImagesFilter := "name eq " +:+ dquote +:+ "abc123-.*" +:+ dquote |} in
  let zoneFilter := "(region eq '.*us-east1.*') (status eq UP)" in
  let firstPage :=
    CallListComputeZones
      {| gcpclient.Filter := zoneFilter; gcpclient.PageToken := EmptyString |} in
  let secondPage :=
    CallListComputeZones
      {| gcpclient.Filter := zoneFilter; gcpclient.PageToken := "page2" |} in
  let ic := {| installertypes.Region := "us-east1";
               installertypes.ProjectID := "my-project" |} in
  let computePool (name : string) :=
    {| installertypes.Name := name;
       installertypes.Replicas := Some 3%Z;
       installertypes.Platform_GCP :=
         Some {| installertypes.Zones := ["us-east1-b"; "us-east1-c"; "us-east1-d"];
                 installertypes.InstanceType := "n1-standard-4";
                 installertypes.OSDisk_ :=
                   {| installertypes.DiskType := "pd-ssd";
                      installertypes.DiskSizeGB := 128 |} |} |} in
  (leases ≠ []
   ∧ leasesRequired a = false
   ∧ returned L = Returns ("k", true, None)
   ∧ (∃ rest, calls G = listed :: calls L ++ rest)
   ∧ (∀ infraID ic computePool imageID role userData,
        CallMachineSets infraID ic computePool imageID role userData ∈ calls G →
        returned L = Returns (installertypes.Name computePool, true, None))
   ∧ calls G =
       [listed; images; firstPage; secondPage;
        CallMachineSets "abc123" ic (computePool "k") "abc123-rhcos-image" "worker"
          "worker-user-data"]
   ∧ returned G =
       Returns ([Sample.machineSet "abc123-k-us-east1-b";
                 Sample.machineSet "abc123-k-us-east1-c";
                 Sample.machineSet "abc123-k-us-east1-d"], true, None))
  ∧ (Forall (λ c, ¬ isLeaseCall c) (calls G0)
     ∧ calls G0 =
         [listed; images; firstPage; secondPage;
          CallMachineSets "abc123" ic (computePool "infra") "abc123-rhcos-image" "worker"
            "worker-user-data"]
     ∧ returned G0 =
         Returns ([Sample.machineSet "abc123-infra-us-east1-b";
                   Sample.machineSet "abc123-infra-us-east1-c";
                   Sample.machineSet "abc123-infra-us-east1-d"], true, None)).
Proof.
  intros leases s a G L G0 listed images zoneFilter firstPage secondPage ic computePool.
  assert (Hne : leases ≠ []) by discriminate.
  assert (Hmd : hivev1.Spec_ClusterMetadata Sample.cluster ≠ None) by discriminate.
  assert (Hcd : hivev1.Spec_Platform_GCP_ Sample.cluster ≠ None) by discriminate.
  assert (Hpool : hivev1.Spec_Platform_GCP (pool s) ≠ None) by discriminate.
  assert (HL : returned L = Returns ("k", true, None)) by reflexivity.
  assert (Hzones : ["us-east1-b"; "us-east1-c"; "us-east1-d"] ≠ []) by discriminate.
  split.
  - split; [exact Hne|]. split; [reflexivity|]. split; [exact HL|].
    destruct (GenerateMachineSets_pool_name (pkg := Sample.package) (Sample.calm leases) a 5
                Sample.cluster s "4.5.0" leases Hmd Hcd Hpool eq_refl eq_refl) as [Hpath _].
    destruct (Hpath (or_introl Hne)) as (Hcalls & Honly & Hbuilt).
    split; [exact Hcalls|]. split; [exact Honly|].
    exact (Hbuilt "k" None HL
             {| hivev1.InfraID := "abc123" |} {| hivev1.Region := "us-east1" |}
             {| hivev1.Zones := []; hivev1.InstanceType := "n1-standard-4" |}
             {| gcpclient.ImageItems := [ {| gcpclient.ImageName := "abc123-rhcos-image" |} ] |}
             {| gcpclient.ImageName := "abc123-rhcos-image" |}
             "worker-user-data" ["us-east1-b"; "us-east1-c"; "us-east1-d"]
             eq_refl eq_refl eq_refl eq_refl eq_refl eq_refl Hzones
             (or_intror (conj eq_refl eq_refl))).
  - destruct (GenerateMachineSets_pool_name (pkg := Sample.package) (Sample.calm []) a 5
                Sample.cluster s "4.5.0" [] Hmd Hcd Hpool eq_refl eq_refl) as [_ Hpath].
    destruct (Hpath (conj eq_refl eq_refl)) as (Hnone & _ & Hbuilt).
    split; [exact Hnone|].
    exact (Hbuilt
             {| hivev1.InfraID := "abc123" |} {| hivev1.Region := "us-east1" |}
             {| hivev1.Zones := []; hivev1.InstanceType := "n1-standard-4" |}
             {| gcpclient.ImageItems := [ {| gcpclient.ImageName := "abc123-rhcos-image" |} ] |}
             {| gcpclient.ImageName := "abc123-rhcos-image" |}
             "worker-user-data" ["us-east1-b"; "us-east1-c"; "us-east1-d"]
             eq_refl eq_refl eq_refl eq_refl eq_refl eq_refl Hzones
             (or_intror (conj eq_refl eq_refl))).
Defined.

(** * Further properties of the code *)

(** ** The policy on every version string *)

Section PolicyCases.

Context `{pkg : Package}.

(** Splitting distributes over a separator: the parts of [a], then the parts
    of [b]. *)
Lemma Split_app a b sep :
  strings.Split (a +:+ String sep b) sep = strings.Split a sep ++ strings.Split b sep.
Proof.
  induction a as [|c a IH]; simpl.
  - by rewrite decide_True.
  - case_decide; [by rewrite IH|]. rewrite IH.
    pose proof (Split_nonempty a sep).
    by destruct (strings.Split a sep).
Qed.

Lemma Split_no_separator s sep : sep ∉ runes s → strings.Split s sep = [s].
Proof.
  induction s as [|c s IH]; simpl; [done|].
  intros Hno. apply not_elem_of_cons in Hno as [Hc Hs].
  rewrite decide_False by done. by rewrite IH.
Qed.

Lemma requireLeases_names clusterVersion sets :
  requireLeases clusterVersion sets = true ↔
  (∃ v, semver_ParseTolerant clusterVersion = Some v
        ∧ versionsSupportingFullNames v = false)
  ∨ (hasMiddleToken "w" sets ∧ ¬ hasMiddleToken "worker" sets).
Proof.
  assert (Hmem : ∀ token, token ∈ foldl notePoolName ∅ sets ↔ hasMiddleToken token sets).
  { intros token. rewrite poolNames_elem. split; [|by right].
    intros [Hin|?]; [|done]. by apply not_elem_of_empty in Hin. }
  assert (Hnames : (if bool_decide ("w" ∈ foldl notePoolName ∅ sets)
                       && negb (bool_decide ("worker" ∈ foldl notePoolName ∅ sets))
                    then true else false) = true ↔
                   hasMiddleToken "w" sets ∧ ¬ hasMiddleToken "worker" sets).
  { rewrite <- !Hmem.
    destruct (bool_decide_reflect ("w" ∈ foldl notePoolName ∅ sets));
      destruct (bool_decide_reflect ("worker" ∈ foldl notePoolName ∅ sets));
      simpl; split; try done; tauto. }
  unfold requireLeases.
  destruct (semver_ParseTolerant clusterVersion) as [v|] eqn:Hparse.
  - destruct (versionsSupportingFullNames v) eqn:Hrange; cbn [negb].
    + rewrite Hnames. split; [by right|]. by intros [(v' & [= <-] & Hno)|?]; [congruence|].
    + split; [|done]. intros _. left. by exists v.
  - rewrite Hnames. split; [by right|]. by intros [(v' & [=] & _)|?].
Qed.

(** X1. [requireLeases] answers true in exactly two cases: the version
    parses and lies outside the supported range, whatever the machine sets
    are; or some machine set has the middle token "w" and none has
    "worker".  A version that does not parse is not an error: the answer is
    then decided by the machine-set names alone. *)
Theorem requireLeases_cases clusterVersion sets :
  (requireLeases clusterVersion sets = true ↔
   (∃ v, semver_ParseTolerant clusterVersion = Some v
         ∧ versionsSupportingFullNames v = false)
   ∨ (hasMiddleToken "w" sets ∧ ¬ hasMiddleToken "worker" sets))
  ∧ (semver_ParseTolerant clusterVersion = None →
     (requireLeases clusterVersion sets = true ↔
      hasMiddleToken "w" sets ∧ ¬ hasMiddleToken "worker" sets)).
Proof.
  split; [apply requireLeases_names|].
  intros Hparse. rewrite requireLeases_names, Hparse. split; [|by right].
  by intros [(v & [=] & _)|?].
Qed.

Lemma requireLeases_same_tokens clusterVersion sets sets' :
  (∀ token, hasMiddleToken token sets ↔ hasMiddleToken token sets') →
  requireLeases clusterVersion sets = requireLeases clusterVersion sets'.
Proof.
  intros Hsame.
  destruct (requireLeases clusterVersion sets) eqn:E;
    destruct (requireLeases clusterVersion sets') eqn:E'; try done.
  - apply requireLeases_names in E. rewrite !Hsame in E.
    apply requireLeases_names in E. congruence.
  - apply requireLeases_names in E'. rewrite <- !Hsame in E'.
    apply requireLeases_names in E'. congruence.
Qed.

(** X2. Machine sets whose name has fewer than three dash-separated parts
    play no role, wherever they stand in the list: the answer is the one for
    the list without them. *)
Theorem requireLeases_short_names clusterVersion sets :
  requireLeases clusterVersion sets =
  requireLeases clusterVersion
    (filter (λ ms, 3 ≤ length (strings.Split (machineapi.ms_Name ms) "-"%char)) sets).
Proof.
  apply requireLeases_same_tokens. intros token. unfold hasMiddleToken. split.
  - intros (ms & Hin & Hmid). exists ms. split; [|done].
    apply list_elem_of_filter. split; [|done].
    rewrite middleToken_index in Hmid. cbn zeta in Hmid.
    case_decide; [done|lia].
  - intros (ms & Hin & Hmid). exists ms. split; [|done].
    by apply list_elem_of_filter in Hin as [_ ?].
Qed.

(** X3. The answer does not depend on the order of the machine sets. *)
Theorem requireLeases_order clusterVersion sets sets' :
  sets ≡ₚ sets' →
  requireLeases clusterVersion sets = requireLeases clusterVersion sets'.
Proof.
  intros Hperm. apply requireLeases_same_tokens. intros token. unfold hasMiddleToken.
  split; intros (ms & Hin & Hmid); exists ms; split; try done.
  - by rewrite <- Hperm.
  - by rewrite Hperm.
Qed.

(** X4. The loop of [requireLeases] reads the pool name out of a machine-set
    name [<prefix>-<pool>-<suffix>] even when the prefix itself has dashes,
    as long as the pool name and the suffix have none. *)
Theorem notePoolName_installer_name poolNames prefix poolName suffix :
  "-"%char ∉ runes poolName →
  "-"%char ∉ runes suffix →
  notePoolName poolNames
    {| machineapi.ms_Name := prefix +:+ "-" +:+ poolName +:+ "-" +:+ suffix |}
  = {[poolName]} ∪ poolNames.
Proof.
  intros Hpool Hsuffix. unfold notePoolName. cbn [machineapi.ms_Name].
  change (prefix +:+ "-" +:+ poolName +:+ "-" +:+ suffix)
    with (prefix +:+ String "-"%char (poolName +:+ String "-"%char suffix)).
  rewrite !Split_app.
  rewrite (Split_no_separator poolName), (Split_no_separator suffix) by done.
  assert (Hne : 1 ≤ length (strings.Split prefix "-"%char)).
  { pose proof (Split_nonempty prefix "-"%char).
    destruct (strings.Split prefix "-"%char); [done|simpl; lia]. }
  rewrite !length_app. cbn [length].
  rewrite decide_False by lia.
  replace (length (strings.Split prefix "-"%char) + (1 + 1) - 2)
    with (length (strings.Split prefix "-"%char) + 0) by lia.
  rewrite lookup_app_r by lia.
  replace (length (strings.Split prefix "-"%char) + 0
           - length (strings.Split prefix "-"%char)) with 0 by lia.
  done.
Qed.

End PolicyCases.

Lemma requireLeases_order_witness :
  let a := Sample.machineSet "abc123-w-a" in
  let b := Sample.machineSet "abc123-worker-b" in
  [a; b] ≡ₚ [b; a]
  ∧ requireLeases (pkg := Sample.package) "4.5.0" [a; b]
    = requireLeases (pkg := Sample.package) "4.5.0" [b; a].
Proof.
  intros a b.
  assert (Hperm : [a; b] ≡ₚ [b; a]) by apply perm_swap.
  split; [exact Hperm|].
  exact (requireLeases_order (pkg := Sample.package) "4.5.0" [a; b] [b; a] Hperm).
Defined.

Lemma notePoolName_installer_name_witness :
  ("-"%char ∉ runes "w")
  ∧ ("-"%char ∉ runes "a")
  ∧ notePoolName ∅ (Sample.machineSet ("my-cluster-x7k2p" +:+ "-" +:+ "w" +:+ "-" +:+ "a"))
    = {[ "w" ]} ∪ ∅.
Proof.
  assert (Hw : "-"%char ∉ runes "w") by (apply (bool_decide_unpack _); by vm_compute).
  assert (Ha : "-"%char ∉ runes "a") by (apply (bool_decide_unpack _); by vm_compute).
  split; [exact Hw|]. split; [exact Ha|].
  exact (notePoolName_installer_name ∅ "my-cluster-x7k2p" "w" "a" Hw Ha).
Defined.

Lemma requireLeases_cases_witness :
  semver_ParseTolerant (Package := Sample.package) "latest" = None
  ∧ (requireLeases (pkg := Sample.package) "latest" [Sample.machineSet "abc123-w-a"] = true ↔
     hasMiddleToken "w" [Sample.machineSet "abc123-w-a"]
     ∧ ¬ hasMiddleToken "worker" [Sample.machineSet "abc123-w-a"]).
Proof.
  split; [reflexivity|].
  exact (proj2 (requireLeases_cases (pkg := Sample.package) "latest"
                  [Sample.machineSet "abc123-w-a"]) eq_refl).
Defined.

(** ** The available characters *)

Section Available.

Context `{pkg : Package} (w : World).

Import hivev1.

Implicit Types (cd : ClusterDeployment) (l : MachinePoolNameLease) (s : State).

Lemma range_keys_NoDup seed (m : gset rune) : NoDup (range_keys seed m).
Proof.
  unfold range_keys. rewrite visit_order_perm. apply NoDup_elements.
Qed.

Lemma findAvailableLeaseChars_run cd leases s :
  identified cd leases →
  ∃ keys,
    findAvailableLeaseChars w cd leases s =
      {| returned := Returns (keys, None); final := s; calls := [] |}
    ∧ NoDup keys
    ∧ ∀ r, r ∈ keys ↔ r ∈ runes validLeaseChars ∧ ¬ claimedBy cd leases r.
Proof.
  intros Hnamed. unfold findAvailableLeaseChars.
  destruct (removeClaimed_identified cd leases (stringToRuneSet validLeaseChars) Hnamed)
    as [avail Havail].
  rewrite Havail. exists (range_keys (iter_seed w) avail).
  split; [done|]. split; [apply range_keys_NoDup|].
  intros r. rewrite range_keys_elem, (removeClaimed_elem _ _ _ _ Havail r).
  by rewrite stringToRuneSet_elem.
Qed.

(** X5. When every visible lease of the cluster has an identifier,
    [findAvailableLeaseChars] returns, without error, without any call and
    without touching the state, a list without repetition of exactly the
    characters of [validLeaseChars] that no lease of the cluster ends in.
    Leases labelled for another cluster are skipped. *)
Theorem findAvailableLeaseChars_available cd leases s :
  identified cd leases →
  ∃ keys,
    findAvailableLeaseChars w cd leases s =
      {| returned := Returns (keys, None); final := s; calls := [] |}
    ∧ NoDup keys
    ∧ ∀ r, r ∈ keys ↔ r ∈ runes validLeaseChars ∧ ¬ claimedBy cd leases r.
Proof. apply findAvailableLeaseChars_run. Qed.

Lemma removeClaimed_unnamed cd leases : ∀ (availChars : gset rune),
  Exists (λ l, ofCluster cd l ∧ lease_Name l = EmptyString) leases →
  removeClaimed cd leases availChars = None.
Proof.
  unfold ofCluster.
  induction leases as [|lease leases IH]; intros availChars Hex; simpl.
  - by apply Exists_nil in Hex.
  - apply Exists_cons in Hex as [[Hcluster Hname]|Hex].
    + rewrite decide_False by (intros Hne; by apply Hne). by rewrite Hname.
    + case_decide; [by apply IH|].
      destruct (strings.lastByte (lease_Name lease)); [by apply IH|done].
Qed.

(** X6. When some visible lease of the cluster has an empty identifier,
    [findAvailableLeaseChars] panics on indexing its last byte; it has made
    no call by then. *)
Theorem findAvailableLeaseChars_unnamed cd leases s :
  Exists (λ l, ofCluster cd l ∧ lease_Name l = EmptyString) leases →
  findAvailableLeaseChars w cd leases s =
    {| returned := Panics; final := s; calls := [] |}.
Proof.
  intros Hex. unfold findAvailableLeaseChars.
  by rewrite (removeClaimed_unnamed cd leases _ Hex).
Qed.

(** X7. A lease labelled for another cluster never takes a character away:
    with only such leases visible, all 34 characters are available. *)
Theorem findAvailableLeaseChars_other_clusters cd leases s :
  Forall (λ l, ¬ ofCluster cd l) leases →
  ∃ keys,
    returned (findAvailableLeaseChars w cd leases s) = Returns (keys, None)
    ∧ keys ≡ₚ runes validLeaseChars.
Proof.
  intros Hother.
  assert (Hnamed : identified cd leases).
  { unfold identified. eapply Forall_impl; [exact Hother|]. by intros l Hl Hcluster. }
  destruct (findAvailableLeaseChars_run cd leases s Hnamed)
    as (keys & Hrun & Hnodup & Hkeys).
  exists keys. split; [by rewrite Hrun|].
  apply NoDup_Permutation; [done|by destruct validLeaseChars_runes as (_ & ? & _)|].
  intros r. rewrite Hkeys. split; [by intros [? _]|].
  intros Hr. split; [done|]. intros (l & Hin & Hl & _).
  rewrite Forall_forall in Hother. by apply (Hother l).
Qed.

End Available.

(** ** The shape of every run of the lease allocator *)

Section Shape.

Context `{pkg : Package} (w : World).

Import hivev1.

Implicit Types (cd : ClusterDeployment) (l : MachinePoolNameLease) (s : State).

(** A run of [obtainLease] either ends after at most one status write, or
    goes on, after at most one status write, to claim a character: "w" for
    the worker pool, a free character of the alphabet for any other. *)
Lemma obtainLease_shape cd leases s :
  let R := obtainLease w cd leases s in
  ((final R = s ∨ ∃ conds, final R = withConditions s conds)
   ∧ (calls R = [] ∨ ∃ p, calls R = [CallStatusUpdate p]))
  ∨ (∃ r s' pre,
       Forall (λ l', ¬ ofPool (Name (pool s)) l') leases
       ∧ ((Spec_Name (pool s) = "worker" ∧ r = "w"%char)
          ∨ (Spec_Name (pool s) ≠ "worker"
             ∧ r ∈ runes validLeaseChars ∧ ¬ claimedBy cd leases r))
       ∧ ((s' = s ∧ pre = [])
          ∨ (∃ conds, s' = withConditions s conds ∧ pre = [CallStatusUpdate (pool s')]))
       ∧ R = after pre (claimLease w cd r s')).
Proof.
  intros R. subst R. unfold obtainLease. rewrite bind_get.
  destruct (List.find _ leases) as [l0|] eqn:Hfind.
  { left. destruct (strings.lastByte (lease_Name l0)) as [ch|]; step; [|by split; left].
    destruct (Spec_ClusterMetadata cd) as [md|]; step; [|by split; left].
    case_decide; step; by split; left. }
  apply find_none_of_pool in Hfind.
  destruct (decide (Spec_Name (pool s) = "worker")) as [Hworker|Hworker].
  { right. exists "w"%char, s, []. split; [done|]. split; [by left|]. split; [by left|done]. }
  unfold findAvailableLeaseChars.
  destruct (removeClaimed cd leases (stringToRuneSet validLeaseChars))
    as [avail|] eqn:Havail; step; [|by left; split; left].
  set (keys := range_keys (iter_seed w) avail).
  assert (Hfree : ∀ r, keys !! (rand_seed w `mod` length keys) = Some r →
            r ∈ runes validLeaseChars ∧ ¬ claimedBy cd leases r).
  { intros r Hr. apply list_elem_of_lookup_2 in Hr. apply range_keys_elem in Hr.
    apply (removeClaimed_elem _ _ _ _ Havail) in Hr as [Hr Hfree].
    by apply stringToRuneSet_elem in Hr. }
  case_decide.
  { left.
    destruct (controllerutils.SetMachinePoolConditionWithChangeCheck _ _ _ _ _ _)
      as [conds [|]]; step; [|by split; left].
    destruct (client_Status_Update w _); step; (split; right; by eexists). }
  destruct (controllerutils.SetMachinePoolConditionWithChangeCheck _ _ _ _ _ _)
    as [conds [|]]; step.
  - destruct (client_Status_Update w _); step; [left; split; right; by eexists|].
    destruct (keys !! _) as [r|] eqn:Hr; step; [|left; split; right; by eexists].
    right. exists r, (withConditions s conds), [CallStatusUpdate (pool (withConditions s conds))].
    split; [done|]. split; [right; split; [done|by apply Hfree]|].
    split; [right; by exists conds|done].
  - destruct (keys !! _) as [r|] eqn:Hr; step; [|by left; split; left].
    right. exists r, s, []. split; [done|].
    split; [right; split; [done|by apply Hfree]|]. split; [by left|done].
Qed.

Lemma claimLease_cases cd r s :
  claimLease w cd r s = {| returned := Panics; final := s; calls := [] |}
  ∨ ∃ md, Spec_ClusterMetadata cd = Some md
      ∧ let l := newLease (pool s) cd (InfraID md +:+ "-" +:+ string_of_rune r) in
        (client_Create w l = None
         ∧ claimLease w cd r s =
             {| returned := Returns (string_of_rune r, false, None);
                final := {| pool := pool s;
                            expectations := <[expectationKey s := 1%Z]> (expectations s) |};
                calls := [CallExpectCreations (expectationKey s) 1; CallCreate l] |})
        ∨ (∃ err, client_Create w l = Some err
           ∧ claimLease w cd r s =
               {| returned := Returns (EmptyString, false, Some err);
                  final := {| pool := pool s;
                              expectations :=
                                delete (expectationKey s)
                                  (<[expectationKey s := 1%Z]> (expectations s)) |};
                  calls := [CallExpectCreations (expectationKey s) 1; CallCreate l;
                            CallDeleteExpectations (expectationKey s)] |}).
Proof.
  destruct (Spec_ClusterMetadata cd) as [md|] eqn:Hmd;
    [right; exists md; split; [done|]|left; by apply claimLease_panics].
  intros l. rewrite (claimLease_run w cd md r s Hmd). fold l.
  destruct (client_Create w l) as [err|]; [right; by exists err|by left].
Qed.

Lemma lastByte_app a b :
  b ≠ EmptyString → strings.lastByte (a +:+ b) = strings.lastByte b.
Proof.
  intros Hb. induction a as [|x a IH]; [done|].
  change (String x a +:+ b) with (String x (a +:+ b)).
  cbn [strings.lastByte]. rewrite IH. destruct a; [by destruct b|done].
Qed.

Lemma pool_withConditions s :
  pool s = pool (withConditions s (Status_Conditions (pool s))).
Proof. destruct s as [[] ?]. reflexivity. Qed.

(** The rune claimed by a run is a single byte as a string. *)
Lemma claimed_rune_ascii cd leases s r :
  (Spec_Name (pool s) = "worker" ∧ r = "w"%char)
  ∨ (Spec_Name (pool s) ≠ "worker" ∧ r ∈ runes validLeaseChars ∧ ¬ claimedBy cd leases r) →
  string_of_rune r = String r EmptyString.
Proof.
  intros [[_ ->]|(_ & Hr & _)]; [done|].
  destruct validLeaseChars_runes as (_ & _ & _ & _ & Hascii).
  rewrite Forall_forall in Hascii. by apply Hascii.
Qed.

Lemma obtainLease_final cd leases s :
  let R := obtainLease w cd leases s in
  (∃ conds, pool (final R) = pool (withConditions s conds))
  ∧ ∀ key, key ≠ expectationKey s →
      expectations (final R) !! key = expectations s !! key.
Proof.
  intros R.
  destruct (obtainLease_shape cd leases s) as [[Hfinal _]|(r & s' & pre & _ & _ & Hs' & HR)];
    fold R in Hfinal || fold R in HR.
  - destruct Hfinal as [->|[conds ->]].
    + split; [eexists; apply pool_withConditions|done].
    + split; [by exists conds|done].
  - assert (Hpool : (∃ conds, pool s' = pool (withConditions s conds))
                    ∧ expectations s' = expectations s
                    ∧ expectationKey s' = expectationKey s).
    { destruct Hs' as [[-> _]|(conds & -> & _)].
      - split; [eexists; apply pool_withConditions|done].
      - split; [by exists conds|done]. }
    destruct Hpool as (Hpool & Hexp & Hkey).
    rewrite HR. cbn [after final].
    destruct (claimLease_cases cd r s') as [->|(md & _ & [[_ ->]|(err & _ & ->)])];
      cbn [final pool expectations]; rewrite ?Hexp, ?Hkey.
    + done.
    + split; [done|]. intros key Hne. by rewrite lookup_insert_ne.
    + split; [done|]. intros key Hne. by rewrite lookup_delete_ne, lookup_insert_ne.
Qed.

(** X8. Whatever happens, [obtainLease] leaves the machine pool as it was
    except for its status conditions, and leaves the expectations of every
    other key as they were. *)
Theorem obtainLease_keeps cd leases s :
  let R := obtainLease w cd leases s in
  (∃ conds, pool (final R) = pool (withConditions s conds))
  ∧ ∀ key, key ≠ expectationKey s →
      expectations (final R) !! key = expectations s !! key.
Proof. apply obtainLease_final. Qed.

(** X9. A run of [obtainLease] makes at most one status write, and it comes
    first; after it, either nothing, or the expectation is registered and
    the creation of one lease asked for, and after a failed creation the
    expectation is deleted.  Nothing else is ever called. *)
Theorem obtainLease_call_order cd leases s :
  ∃ pre post,
    calls (obtainLease w cd leases s) = pre ++ post
    ∧ (pre = [] ∨ ∃ p, pre = [CallStatusUpdate p])
    ∧ (post = []
       ∨ ∃ l, post = [CallExpectCreations (expectationKey s) 1; CallCreate l]
              ∨ post = [CallExpectCreations (expectationKey s) 1; CallCreate l;
                        CallDeleteExpectations (expectationKey s)]).
Proof.
  destruct (obtainLease_shape cd leases s)
    as [[_ Hcalls]|(r & s' & pre & _ & _ & Hs' & HR)].
  - destruct Hcalls as [Hcalls|[p Hcalls]]; cbn zeta in Hcalls; rewrite Hcalls.
    + exists [], []. split; [done|]. split; by left.
    + exists [CallStatusUpdate p], []. split; [done|]. split; [right; by exists p|by left].
  - cbn zeta in HR. rewrite HR. cbn [after calls]. exists pre.
    assert (Hkey : expectationKey s' = expectationKey s).
    { by destruct Hs' as [[-> _]|(conds & -> & _)]. }
    assert (Hpre : pre = [] ∨ ∃ p, pre = [CallStatusUpdate p]).
    { destruct Hs' as [[_ ->]|(conds & _ & ->)]; [by left|right; by eexists]. }
    destruct (claimLease_cases cd r s') as [->|(md & _ & [[_ ->]|(err & _ & ->)])];
      cbn [calls]; rewrite ?Hkey; eexists; (split; [done|]); (split; [done|]).
    + by left.
    + right. eexists. by left.
    + right. eexists. by right.
Qed.

(** X10. A lease that [obtainLease] created for a pool is found again once
    it is visible: a later call for the same pool, with the lease in the list
    and no other lease of the pool before it, returns the same character with
    proceed = true, makes no call and leaves the state alone. *)
Theorem created_lease_found cd leases s l :
  CallCreate l ∈ calls (obtainLease w cd leases s) →
  client_Create w l = None →
  ∃ c, returned (obtainLease w cd leases s) = Returns (c, false, None)
       ∧ ∀ (w' : World) s' before after,
           Name (pool s') = Name (pool s) →
           Forall (λ l', ¬ ofPool (Name (pool s')) l') before →
           obtainLease w' cd (before ++ l :: after) s' =
             {| returned := Returns (c, true, None); final := s'; calls := [] |}.
Proof.
  intros Hin Hok.
  destruct (obtainLease_shape cd leases s)
    as [[_ Hcalls]|(r & s1 & pre & _ & Hr & Hs1 & HR)]; cbn zeta in *.
  { destruct Hcalls as [Hcalls|[p Hcalls]]; rewrite Hcalls in Hin.
    - by apply elem_of_nil in Hin.
    - apply list_elem_of_singleton in Hin. discriminate. }
  apply claimed_rune_ascii in Hr as Hascii.
  assert (Hname : Name (pool s1) = Name (pool s)
                  ∧ ∀ p, pre = [] ∨ pre = [CallStatusUpdate p] → CallCreate l ∉ pre).
  { split; [by destruct Hs1 as [[-> _]|(conds & -> & _)]|].
    intros p [->| ->] Hpre; [by apply elem_of_nil in Hpre|].
    apply list_elem_of_singleton in Hpre. discriminate. }
  destruct Hname as [Hname Hpre].
  rewrite HR in Hin |- *. cbn [after calls returned] in *.
  apply elem_of_app in Hin as [Hin|Hin].
  { exfalso. destruct Hs1 as [[_ ->]|(conds & _ & ->)].
    - by apply elem_of_nil in Hin.
    - apply list_elem_of_singleton in Hin. discriminate. }
  destruct (claimLease_cases cd r s1) as [Hrun|(md & Hmd & [[Hcreate Hrun]|(err & Hcreate & Hrun)])];
    rewrite Hrun in Hin |- *; cbn [calls returned] in *.
  - by apply elem_of_nil in Hin.
  - apply elem_of_cons in Hin as [Hin|Hin]; [discriminate|].
    apply list_elem_of_singleton in Hin. injection Hin as ->.
    exists (string_of_rune r). split; [done|].
    intros w' s' before after Hsame Hbefore.
    unfold obtainLease. rewrite bind_get.
    rewrite (find_first_of_pool (Name (pool s')) before _ after Hbefore).
    2:{ unfold ofPool, newLease, label. cbn [lease_Labels].
        rewrite lookup_insert_eq. cbn. congruence. }
    cbn [newLease lease_Name]. rewrite Hascii.
    rewrite lastByte_app by done.
    change (strings.lastByte ("-" +:+ String r EmptyString)) with (Some r).
    rewrite Hmd. step. by rewrite decide_False by (intros Hne; by apply Hne).
  - apply elem_of_cons in Hin as [Hin|Hin]; [discriminate|].
    apply elem_of_cons in Hin as [Hin|Hin].
    + injection Hin as ->. congruence.
    + apply list_elem_of_singleton in Hin. discriminate.
Qed.

(** X11. For a pool other than the worker pool, [obtainLease] never asks
    for the creation of a lease under the identifier of a visible lease of
    the cluster. *)
Theorem created_name_not_visible cd leases s l l' :
  CallCreate l ∈ calls (obtainLease w cd leases s) →
  Spec_Name (pool s) ≠ "worker" →
  l' ∈ leases →
  ofCluster cd l' →
  lease_Name l ≠ lease_Name l'.
Proof.
  intros Hin Hworker Hl' Hcluster Hsame.
  destruct (obtainLease_shape cd leases s)
    as [[_ Hcalls]|(r & s1 & pre & _ & Hr & Hs1 & HR)]; cbn zeta in *.
  { destruct Hcalls as [Hcalls|[p Hcalls]]; rewrite Hcalls in Hin.
    - by apply elem_of_nil in Hin.
    - apply list_elem_of_singleton in Hin. discriminate. }
  apply claimed_rune_ascii in Hr as Hascii.
  destruct Hr as [[? _]|(_ & _ & Hfree)]; [done|].
  rewrite HR in Hin. cbn [after calls] in Hin.
  apply elem_of_app in Hin as [Hin|Hin].
  { destruct Hs1 as [[_ ->]|(conds & _ & ->)].
    - by apply elem_of_nil in Hin.
    - apply list_elem_of_singleton in Hin. discriminate. }
  assert (Hname : ∃ md, lease_Name l = InfraID md +:+ "-" +:+ String r EmptyString).
  { destruct (claimLease_cases cd r s1)
      as [Hrun|(md & Hmd & [[_ Hrun]|(err & _ & Hrun)])];
      rewrite Hrun in Hin; cbn [calls] in Hin.
    - by apply elem_of_nil in Hin.
    - apply elem_of_cons in Hin as [Hin|Hin]; [discriminate|].
      apply list_elem_of_singleton in Hin. injection Hin as ->.
      exists md. cbn [newLease lease_Name]. by rewrite Hascii.
    - apply elem_of_cons in Hin as [Hin|Hin]; [discriminate|].
      apply elem_of_cons in Hin as [Hin|Hin];
        [|apply list_elem_of_singleton in Hin; discriminate].
      injection Hin as ->. exists md. cbn [newLease lease_Name]. by rewrite Hascii. }
  destruct Hname as [md Hname].
  apply Hfree. exists l'. split; [done|]. split; [done|].
  rewrite <- Hsame, Hname. by rewrite lastByte_app.
Qed.

End Shape.

(** ** The shape of every run of [GenerateMachineSets] *)

Section Build.

Context `{pkg : Package} (w : World).

Import hivev1.

Implicit Types (cd : ClusterDeployment) (s : State) (a : GCPActuator).

Lemma getZones_loop_run zoneFilter s : ∀ n token zones,
  final (getZones_loop w n zoneFilter token zones s) = s
  ∧ Forall (λ c, ∃ o, c = CallListComputeZones o)
      (calls (getZones_loop w n zoneFilter token zones s)).
Proof.
  induction n as [|n IH]; intros token zones; cbn [getZones_loop]; [by split|].
  step. destruct (gcp_ListComputeZones w _) as [zoneList|err]; step.
  - case_decide; step.
    + split; [done|]. apply Forall_singleton. by eexists.
    + destruct (IH (gcpclient.NextPageToken zoneList)
                   (zones ++ map gcpclient.ZoneName (gcpclient.ZoneItems zoneList)))
        as [Hfinal Hcalls].
      split; [done|]. apply Forall_cons. split; [by eexists|done].
  - split; [done|]. apply Forall_singleton. by eexists.
Qed.

Lemma getImageID_run cd md s :
  Spec_ClusterMetadata cd = Some md →
  let query := {| gcpclient.ImagesFilter :=
                    "name eq " +:+ dquote +:+ InfraID md +:+ "-.*" +:+ dquote |} in
  ∃ image err,
    getImageID w cd s =
      {| returned := Returns (image, err); final := s;
         calls := [CallListComputeImages query] |}.
Proof.
  intros Hmd query. unfold getImageID. rewrite Hmd. step. fold query.
  destruct (gcp_ListComputeImages w query) as [result|err]; step; [|by eexists _, _].
  destruct (gcpclient.ImageItems result) as [|image [|image' images]]; step;
    by eexists _, _.
Qed.

(** Once the name is chosen: the image is asked for first, then the zones if
    the pool names none, then the installer, for a pool with at least one
    zone; the state is not touched. *)
Lemma machineSetsFor_shape a pages cd clusterVersion poolName s md cdGCP poolGCP :
  Spec_ClusterMetadata cd = Some md →
  Spec_Platform_GCP_ cd = Some cdGCP →
  Spec_Platform_GCP (pool s) = Some poolGCP →
  let R := machineSetsFor w a pages cd clusterVersion poolName s in
  let query := CallListComputeImages
                 {| gcpclient.ImagesFilter :=
                      "name eq " +:+ dquote +:+ InfraID md +:+ "-.*" +:+ dquote |} in
  final R = s
  ∧ ∃ zoneQueries,
      Forall (λ c, ∃ o, c = CallListComputeZones o) zoneQueries
      ∧ (Zones poolGCP ≠ [] → zoneQueries = [])
      ∧ ((calls R = query :: zoneQueries
          ∧ ∀ sets ready err, returned R = Returns (sets, ready, err) →
              sets = [] ∧ ready = false ∧ err ≠ None)
         ∨ (∃ zones imageID userData,
              zones ≠ []
              ∧ (Zones poolGCP ≠ [] → zones = Zones poolGCP)
              ∧ let ic := {| installertypes.Region := Region cdGCP;
                             installertypes.ProjectID := projectID a |} in
                let computePool :=
                  {| installertypes.Name := poolName;
                     installertypes.Replicas :=
                       installertypes.Replicas (baseMachinePool (pool s));
                     installertypes.Platform_GCP :=
                       Some {| installertypes.Zones := zones;
                               installertypes.InstanceType := InstanceType poolGCP;
                               installertypes.OSDisk_ :=
                                 {| installertypes.DiskType := "pd-ssd";
                                    installertypes.DiskSizeGB := 128 |} |} |} in
                calls R = query :: zoneQueries
                          ++ [CallMachineSets (InfraID md) ic computePool imageID
                                workerRole userData]
                ∧ returned R =
                    Returns
                      ((installgcp_MachineSets (InfraID md) ic computePool imageID
                          workerRole userData).1,
                       bool_decide
                         ((installgcp_MachineSets (InfraID md) ic computePool imageID
                             workerRole userData).2 = None),
                       errors.Wrap
                         (installgcp_MachineSets (InfraID md) ic computePool imageID
                            workerRole userData).2
                         "failed to generate machinesets"))).
Proof.
  intros Hmd Hcd Hpool R query. subst R.
  unfold machineSetsFor. rewrite bind_get, Hmd, Hcd, Hpool. step.
  destruct (getImageID_run cd md s Hmd) as (imageID & imageErr & Himage).
  rewrite (M_bind_returns _ _ _ (imageID, imageErr)) by by rewrite Himage.
  rewrite Himage. cbn [after returned final calls app].
  destruct imageErr as [imageErr|]; cbn [errors.Wrap]; step.
  { split; [done|]. exists []. split; [done|]. split; [done|]. left.
    split; [done|]. by intros sets ready err [= <- <- <-]. }
  set (k := λ zones : result (list string), _).
  assert (Hk_err : ∀ e s', k (Err e) s'
            = {| returned := Returns ([], false, Some e); final := s'; calls := [] |})
    by done.
  assert (Hk_ok : ∀ zones s',
            (∃ e, k (Ok zones) s'
               = {| returned := Returns ([], false, Some e); final := s'; calls := [] |})
            ∨ ∃ userData,
                let ic := {| installertypes.Region := Region cdGCP;
                             installertypes.ProjectID := projectID a |} in
                let computePool :=
                  {| installertypes.Name := poolName;
                     installertypes.Replicas :=
                       installertypes.Replicas (baseMachinePool (pool s));
                     installertypes.Platform_GCP :=
                       Some {| installertypes.Zones := zones;
                               installertypes.InstanceType := InstanceType poolGCP;
                               installertypes.OSDisk_ :=
                                 {| installertypes.DiskType := "pd-ssd";
                                    installertypes.DiskSizeGB := 128 |} |} |} in
                k (Ok zones) s' =
                  {| returned :=
                       Returns
                         ((installgcp_MachineSets (InfraID md) ic computePool imageID
                             workerRole userData).1,
                          bool_decide
                            ((installgcp_MachineSets (InfraID md) ic computePool imageID
                                workerRole userData).2 = None),
                          errors.Wrap
                            (installgcp_MachineSets (InfraID md) ic computePool imageID
                               workerRole userData).2
                            "failed to generate machinesets");
                     final := s';
                     calls := [CallMachineSets (InfraID md) ic computePool imageID
                                 workerRole userData] |}).
  { intros zones s'. subst k. cbn beta iota.
    destruct (workerUserData clusterVersion) as [userData [e|]]; step;
      [left; by eexists|].
    right. exists userData. cbn zeta.
    by destruct (installgcp_MachineSets _ _ _ _ _ _). }
  clearbody k.
  set (fetch := if decide (length (Zones poolGCP) = 0) then _ else _).
  assert (Hfetch : ∃ out zoneQueries,
            fetch s = {| returned := out; final := s; calls := zoneQueries |}
            ∧ Forall (λ c, ∃ o, c = CallListComputeZones o) zoneQueries
            ∧ (Zones poolGCP ≠ [] → zoneQueries = [])
            ∧ ∀ zones, out = Returns (Ok zones) →
                zones ≠ [] ∧ (Zones poolGCP ≠ [] → zones = Zones poolGCP)).
  { subst fetch. case_decide as Hzones.
    - destruct (getZones_loop_run
                  ("(region eq '.*" +:+ Region cdGCP +:+ ".*') (status eq UP)") s pages
                  EmptyString []) as [Hfinal Hcalls].
      fold (getZones w pages (Region cdGCP)) in Hfinal, Hcalls.
      assert (Hnone : Zones poolGCP ≠ [] → False).
      { intros Hne. by destruct (Zones poolGCP). }
      unfold M_bind.
      destruct (returned (getZones w pages (Region cdGCP) s)) as [[zones err]| |] eqn:HZ.
      + destruct err as [err|]; cbn [errors.Wrap]; [|case_decide as Hlen];
          unfold after, mret, M_ret; cbn [returned final calls];
          rewrite Hfinal, app_nil_r; eexists _, _; (split; [done|]);
          (split; [done|]); (split; [by intros ?%Hnone|]); intros zones';
          try done.
        intros [= <-]. split; [by destruct zones|by intros ?%Hnone].
      + rewrite Hfinal. eexists _, _. split; [done|]. split; [done|].
        split; [by intros ?%Hnone|done].
      + rewrite Hfinal. eexists _, _. split; [done|]. split; [done|].
        split; [by intros ?%Hnone|done].
    - eexists _, []. split; [done|]. split; [done|]. split; [done|].
      intros zones [= <-]. split; [|done]. intros Hnil. by rewrite Hnil in Hzones. }
  clearbody fetch.
  destruct Hfetch as (out & zoneQueries & Hfetch & Hqueries & Hnoquery & Hzones).
  set (T := M_bind _ _ k fetch s).
  assert (HT : T = match out with
                   | Returns zones => after zoneQueries (k zones s)
                   | Panics => {| returned := Panics; final := s; calls := zoneQueries |}
                   | Unfinished =>
                       {| returned := Unfinished; final := s; calls := zoneQueries |}
                   end).
  { subst T. unfold M_bind. rewrite Hfetch. by destruct out. }
  rewrite HT. clear HT T.
  destruct out as [[zones|e]| |].
  - destruct (Hzones zones eq_refl) as [Hne Hsame].
    destruct (Hk_ok zones s) as [[e Hrun]|[userData Hrun]]; cbn zeta in Hrun; rewrite Hrun;
      cbn [after returned final calls].
    + split; [done|]. exists zoneQueries. split; [done|]. split; [done|]. left.
      rewrite app_nil_r. split; [done|]. by intros sets ready err [= <- <- <-].
    + split; [done|]. exists zoneQueries. split; [done|]. split; [done|]. right.
      by exists zones, imageID, userData.
  - rewrite Hk_err. cbn [after returned final calls].
    split; [done|]. exists zoneQueries. split; [done|]. split; [done|]. left.
    rewrite app_nil_r. split; [done|]. by intros sets ready err [= <- <- <-].
  - split; [done|]. exists zoneQueries. split; [done|]. split; [done|]. by left.
  - split; [done|]. exists zoneQueries. split; [done|]. split; [done|]. by left.
Qed.

(** Every run of [GenerateMachineSets]: it stops with an error before or at
    the listing of the leases; or it runs [obtainLease] and stops there
    unless a character came back with proceed = true; or it goes on to the
    machine sets, under that character or under the logical name. *)
Lemma GenerateMachineSets_shape a pages cd s :
  let G := GenerateMachineSets w a pages cd s in
  (∃ e, returned G = Returns ([], false, Some e) ∧ final G = s
        ∧ (calls G = [] ∨ ∃ namespace matching, calls G = [CallList namespace matching]))
  ∨ ∃ md cdGCP poolGCP clusterVersion leases,
      Spec_ClusterMetadata cd = Some md
      ∧ Spec_Platform_GCP_ cd = Some cdGCP
      ∧ Spec_Platform_GCP (pool s) = Some poolGCP
      ∧ client_List w (Namespace (pool s)) (<[ClusterDeploymentNameLabel := cd_Name cd]> ∅)
        = Ok leases
      ∧ let L := obtainLease w cd leases s in
        let listed := CallList (Namespace (pool s))
                        (<[ClusterDeploymentNameLabel := cd_Name cd]> ∅) in
        ((∃ c, returned L = Returns (c, true, None)
               ∧ G = after (listed :: calls L)
                       (machineSetsFor w a pages cd clusterVersion c (final L)))
         ∨ (calls G = listed :: calls L ∧ final G = final L
            ∧ ((∃ c, returned L = Returns (c, false, None)
                     ∧ returned G = Returns ([], false, None))
               ∨ (∃ e, returned G = Returns ([], false, Some e))
               ∨ (∀ x, returned G ≠ Returns x)))
         ∨ (leases = [] ∧ leasesRequired a = false
            ∧ G = after [listed]
                    (machineSetsFor w a pages cd clusterVersion (Spec_Name (pool s)) s))).
Proof.
  intros G. subst G. unfold GenerateMachineSets. rewrite bind_get.
  case_decide as Hmd; [left; step; eexists; split; [done|]; split; [done|by left]|].
  case_decide as Hcd; [left; step; eexists; split; [done|]; split; [done|by left]|].
  case_decide as Hpool; [left; step; eexists; split; [done|]; split; [done|by left]|].
  destruct (getClusterVersion cd) as [clusterVersion [e|]];
    [left; step; eexists; split; [done|]; split; [done|by left]|].
  step.
  destruct (client_List w _ _) as [leases|e] eqn:Hlist; step;
    [|left; eexists; split; [done|]; split; [done|right; by eexists _, _]].
  destruct (Spec_ClusterMetadata cd) as [md|]; [|done].
  destruct (Spec_Platform_GCP_ cd) as [cdGCP|]; [|done].
  destruct (Spec_Platform_GCP (pool s)) as [poolGCP|]; [|done].
  right. exists md, cdGCP, poolGCP, clusterVersion, leases.
  split; [done|]. split; [done|]. split; [done|]. split; [done|]. cbn zeta.
  set (k := λ pat : string * bool * option error, _).
  assert (Hlease :
    let T := after [CallList (Namespace (pool s))
                      (<[ClusterDeploymentNameLabel := cd_Name cd]> ∅)]
               (M_bind _ _ k (obtainLease w cd leases) s) in
    (∃ c, returned (obtainLease w cd leases s) = Returns (c, true, None)
          ∧ T = after (CallList (Namespace (pool s))
                         (<[ClusterDeploymentNameLabel := cd_Name cd]> ∅)
                       :: calls (obtainLease w cd leases s))
                  (machineSetsFor w a pages cd clusterVersion c
                     (final (obtainLease w cd leases s))))
    ∨ (calls T = CallList (Namespace (pool s))
                   (<[ClusterDeploymentNameLabel := cd_Name cd]> ∅)
                 :: calls (obtainLease w cd leases s)
       ∧ final T = final (obtainLease w cd leases s)
       ∧ ((∃ c, returned (obtainLease w cd leases s) = Returns (c, false, None)
                ∧ returned T = Returns ([], false, None))
          ∨ (∃ e, returned T = Returns ([], false, Some e))
          ∨ (∀ x, returned T ≠ Returns x)))).
  { intros T. subst T. unfold M_bind.
    destruct (returned (obtainLease w cd leases s)) as [[[c p] e]| |] eqn:HL.
    - subst k. cbn beta iota. destruct e as [e|].
      + right. unfold after, mret, M_ret. cbn [returned final calls app].
        rewrite app_nil_r. split; [done|]. split; [done|]. right. left. by eexists.
      + destruct p; cbn [negb].
        * left. by exists c.
        * right. unfold after, mret, M_ret. cbn [returned final calls app].
          rewrite app_nil_r. split; [done|]. split; [done|]. left. by exists c.
    - right. cbn [after returned final calls app]. split; [done|]. split; [done|].
      by right; right.
    - right. cbn [after returned final calls app]. split; [done|]. split; [done|].
      by right; right. }
  clearbody k. cbn zeta in Hlease.
  destruct (leasesRequired a) eqn:Hrequired.
  { destruct Hlease as [?|?]; [by left|by right; left]. }
  case_decide as Hlen.
  { destruct Hlease as [?|?]; [by left|by right; left]. }
  right. right. split; [by destruct leases; [|simpl in Hlen; lia]|]. done.
Qed.

(** X12. When the cluster deployment has no cluster metadata or is not for
    GCP, or the machine pool is not for GCP, [GenerateMachineSets] returns an
    error before it lists the leases or asks the cloud anything: it makes no
    call and leaves the state alone. *)
Theorem GenerateMachineSets_validation a pages cd s :
  Spec_ClusterMetadata cd = None ∨ Spec_Platform_GCP_ cd = None
  ∨ Spec_Platform_GCP (pool s) = None →
  ∃ e, GenerateMachineSets w a pages cd s =
         {| returned := Returns ([], false, Some e); final := s; calls := [] |}
       ∧ (Spec_ClusterMetadata cd = None →
          e = "ClusterDeployment does not have cluster metadata").
Proof.
  intros Hmissing. unfold GenerateMachineSets. rewrite bind_get.
  case_decide as Hmd; [by eexists|].
  case_decide as Hcd; [by eexists|].
  case_decide as Hpool; [by eexists|].
  by destruct Hmissing as [?|[?|?]].
Qed.

(** X13. Whenever [GenerateMachineSets] returns ready = true, the error is
    nil and the machine sets are those the installer returned, without error,
    for the last call of the run: a call for the infra id of the cluster, its
    region and the project of the actuator, the worker role, and a compute
    pool with at least one zone, the instance type of the machine pool and a
    128 GB pd-ssd disk. *)
Theorem GenerateMachineSets_ready a pages cd s sets err :
  returned (GenerateMachineSets w a pages cd s) = Returns (sets, true, err) →
  err = None
  ∧ ∃ md cdGCP poolGCP before poolName zones imageID userData,
      Spec_ClusterMetadata cd = Some md
      ∧ Spec_Platform_GCP_ cd = Some cdGCP
      ∧ Spec_Platform_GCP (pool s) = Some poolGCP
      ∧ zones ≠ []
      ∧ let ic := {| installertypes.Region := Region cdGCP;
                     installertypes.ProjectID := projectID a |} in
        let computePool :=
          {| installertypes.Name := poolName;
             installertypes.Replicas :=
               installertypes.Replicas
                 (baseMachinePool (pool (final (GenerateMachineSets w a pages cd s))));
             installertypes.Platform_GCP :=
               Some {| installertypes.Zones := zones;
                       installertypes.InstanceType := InstanceType poolGCP;
                       installertypes.OSDisk_ :=
                         {| installertypes.DiskType := "pd-ssd";
                            installertypes.DiskSizeGB := 128 |} |} |} in
        calls (GenerateMachineSets w a pages cd s) =
          before ++ [CallMachineSets (InfraID md) ic computePool imageID workerRole userData]
        ∧ installgcp_MachineSets (InfraID md) ic computePool imageID workerRole userData
          = (sets, None).
Proof.
  intros Hret.
  destruct (GenerateMachineSets_shape a pages cd s)
    as [(e & He & _)|(md & cdGCP & poolGCP & cv & leases & Hmd & Hcd & Hpool & Hlist & Hpath)];
    cbn zeta in *.
  { rewrite He in Hret. discriminate. }
  assert (Hbuild : ∀ before name s1,
            Spec_Platform_GCP (pool s1) = Some poolGCP →
            GenerateMachineSets w a pages cd s =
              after before (machineSetsFor w a pages cd cv name s1) →
            err = None
            ∧ ∃ md cdGCP poolGCP before poolName zones imageID userData,
                Spec_ClusterMetadata cd = Some md
                ∧ Spec_Platform_GCP_ cd = Some cdGCP
                ∧ Spec_Platform_GCP (pool s) = Some poolGCP
                ∧ zones ≠ []
                ∧ calls (GenerateMachineSets w a pages cd s) =
                    before ++ [CallMachineSets (InfraID md)
                                 {| installertypes.Region := Region cdGCP;
                                    installertypes.ProjectID := projectID a |}
                                 {| installertypes.Name := poolName;
                                    installertypes.Replicas :=
                                      installertypes.Replicas
                                        (baseMachinePool
                                           (pool (final (GenerateMachineSets w a pages cd s))));
                                    installertypes.Platform_GCP :=
                                      Some {| installertypes.Zones := zones;
                                              installertypes.InstanceType :=
                                                InstanceType poolGCP;
                                              installertypes.OSDisk_ :=
                                                {| installertypes.DiskType := "pd-ssd";
                                                   installertypes.DiskSizeGB := 128 |} |} |}
                                 imageID workerRole userData]
                ∧ installgcp_MachineSets (InfraID md)
                    {| installertypes.Region := Region cdGCP;
                       installertypes.ProjectID := projectID a |}
                    {| installertypes.Name := poolName;
                       installertypes.Replicas :=
                         installertypes.Replicas
                           (baseMachinePool
                              (pool (final (GenerateMachineSets w a pages cd s))));
                       installertypes.Platform_GCP :=
                         Some {| installertypes.Zones := zones;
                                 installertypes.InstanceType := InstanceType poolGCP;
                                 installertypes.OSDisk_ :=
                                   {| installertypes.DiskType := "pd-ssd";
                                      installertypes.DiskSizeGB := 128 |} |} |}
                    imageID workerRole userData = (sets, None)).
  { intros before name s1 Hpool1 HG.
    destruct (machineSetsFor_shape a pages cd cv name s1 md cdGCP poolGCP Hmd Hcd Hpool1)
      as (Hfinal & zoneQueries & _ & _ & [[_ Hstop]|Hgo]); cbn zeta in *.
    - rewrite HG in Hret. cbn [after returned] in Hret.
      by destruct (Hstop _ _ _ Hret) as (_ & ? & _).
    - destruct Hgo as (zones & imageID & userData & Hzones & _ & Hcalls & Hreturned).
      rewrite HG in Hret |- *. cbn [after returned final calls] in *.
      rewrite Hreturned in Hret. rewrite Hfinal, Hcalls.
      destruct (installgcp_MachineSets _ _ _ _ _ _) as [sets' err'] eqn:Hinstall.
      cbn [fst snd] in Hret. injection Hret as <- Hready <-.
      apply bool_decide_eq_true in Hready. subst err'.
      split; [done|].
      exists md, cdGCP, poolGCP, (before ++ CallListComputeImages
                {| gcpclient.ImagesFilter :=
                     "name eq " +:+ dquote +:+ InfraID md +:+ "-.*" +:+ dquote |}
              :: zoneQueries), name, zones, imageID, userData.
      split; [done|]. split; [done|]. split; [done|]. split; [done|].
      split; [|done]. by rewrite <- !app_assoc. }
  destruct Hpath as [(c & HL & HG)|[(_ & _ & Hstop)|(_ & _ & HG)]].
  - refine (Hbuild _ c (final (obtainLease w cd leases s)) _ HG).
    destruct (obtainLease_final w cd leases s) as [[conds ->] _]. done.
  - destruct Hstop as [(c & _ & HG)|[(e & HG)|HG]].
    + rewrite HG in Hret. discriminate.
    + rewrite HG in Hret. discriminate.
    + by destruct (HG _ Hret).
  - exact (Hbuild _ (Spec_Name (pool s)) s Hpool HG).
Qed.

(** X14. Whenever [GenerateMachineSets] returns ready = false without error,
    it returns no machine set, [obtainLease] has returned proceed = false
    without error, and the run has asked the cloud and the installer nothing:
    its calls are the listing of the leases and calls of the lease
    allocator. *)
Theorem GenerateMachineSets_waiting a pages cd s sets :
  returned (GenerateMachineSets w a pages cd s) = Returns (sets, false, None) →
  sets = []
  ∧ ∃ leases c,
      client_List w (Namespace (pool s)) (<[ClusterDeploymentNameLabel := cd_Name cd]> ∅)
        = Ok leases
      ∧ returned (obtainLease w cd leases s) = Returns (c, false, None)
      ∧ calls (GenerateMachineSets w a pages cd s) =
          CallList (Namespace (pool s)) (<[ClusterDeploymentNameLabel := cd_Name cd]> ∅)
          :: calls (obtainLease w cd leases s)
      ∧ Forall isLeaseCall (calls (obtainLease w cd leases s)).
Proof.
  intros Hret.
  destruct (GenerateMachineSets_shape a pages cd s)
    as [(e & He & _)|(md & cdGCP & poolGCP & cv & leases & Hmd & Hcd & Hpool & Hlist & Hpath)];
    cbn zeta in *.
  { rewrite He in Hret. discriminate. }
  assert (Hbuild : ∀ before name s1,
            Spec_Platform_GCP (pool s1) = Some poolGCP →
            GenerateMachineSets w a pages cd s =
              after before (machineSetsFor w a pages cd cv name s1) →
            False).
  { intros before name s1 Hpool1 HG.
    rewrite HG in Hret. cbn [after returned] in Hret.
    destruct (machineSetsFor_shape a pages cd cv name s1 md cdGCP poolGCP Hmd Hcd Hpool1)
      as (_ & zoneQueries & _ & _ & [[_ Hstop]|Hgo]); cbn zeta in *.
    - by destruct (Hstop _ _ _ Hret) as (_ & _ & ?).
    - destruct Hgo as (zones & imageID & userData & _ & _ & _ & Hreturned).
      rewrite Hreturned in Hret.
      destruct (installgcp_MachineSets _ _ _ _ _ _) as [sets' [err'|]];
        cbn in Hret; discriminate. }
  destruct Hpath as [(c & HL & HG)|[(Hcalls & _ & Hstop)|(_ & _ & HG)]].
  - exfalso. refine (Hbuild _ c (final (obtainLease w cd leases s)) _ HG).
    destruct (obtainLease_final w cd leases s) as [[conds ->] _]. done.
  - destruct Hstop as [(c & HL & HG)|[(e & HG)|HG]].
    + rewrite HG in Hret. injection Hret as <-. split; [done|].
      exists leases, c. split; [done|]. split; [done|]. split; [done|].
      apply obtainLease_calls.
    + rewrite HG in Hret. discriminate.
    + by destruct (HG _ Hret).
  - exfalso. exact (Hbuild _ (Spec_Name (pool s)) s Hpool HG).
Qed.

(** X15. When the machine pool names its zones, [GenerateMachineSets] never
    asks the cloud for zones, and the installer is asked for machine sets in
    exactly the zones of the pool. *)
Theorem GenerateMachineSets_pool_zones a pages cd s poolGCP :
  Spec_Platform_GCP (pool s) = Some poolGCP →
  Zones poolGCP ≠ [] →
  (∀ o, CallListComputeZones o ∉ calls (GenerateMachineSets w a pages cd s))
  ∧ ∀ infraID ic computePool imageID role userData,
      CallMachineSets infraID ic computePool imageID role userData
        ∈ calls (GenerateMachineSets w a pages cd s) →
      ∃ gcp, installertypes.Platform_GCP computePool = Some gcp
             ∧ installertypes.Zones gcp = Zones poolGCP.
Proof.
  intros Hpool Hzones.
  assert (Hgoal : ∀ c, c ∈ calls (GenerateMachineSets w a pages cd s) →
            (∀ o, c ≠ CallListComputeZones o)
            ∧ ∀ infraID ic computePool imageID role userData,
                c = CallMachineSets infraID ic computePool imageID role userData →
                ∃ gcp, installertypes.Platform_GCP computePool = Some gcp
                       ∧ installertypes.Zones gcp = Zones poolGCP).
  2:{ split.
      - intros o Hin. destruct (Hgoal _ Hin) as [Hno _]. by apply (Hno o).
      - intros infraID ic computePool imageID role userData Hin.
        destruct (Hgoal _ Hin) as [_ Hbuild]. by eapply Hbuild. }
  intros c0 Hin.
  destruct (GenerateMachineSets_shape a pages cd s)
    as [(e & _ & _ & Hcalls)
       |(md & cdGCP & poolGCP' & cv & leases & Hmd & Hcd & Hpool' & Hlist & Hpath)];
    cbn zeta in *.
  { destruct Hcalls as [Hcalls|(ns & m & Hcalls)]; rewrite Hcalls in Hin.
    - by apply elem_of_nil in Hin.
    - apply list_elem_of_singleton in Hin as ->. by split. }
  rewrite Hpool in Hpool'. injection Hpool' as <-.
  assert (Hlease : ∀ c, c ∈ calls (obtainLease w cd leases s) →
            (∀ o, c ≠ CallListComputeZones o)
            ∧ ∀ infraID ic computePool imageID role userData,
                c ≠ CallMachineSets infraID ic computePool imageID role userData).
  { intros c Hc. pose proof (obtainLease_calls w cd leases s) as Hall.
    rewrite Forall_forall in Hall. apply Hall in Hc. by destruct c. }
  assert (Hbuild : ∀ name s1 c,
            Spec_Platform_GCP (pool s1) = Some poolGCP →
            c ∈ calls (machineSetsFor w a pages cd cv name s1) →
            (∀ o, c ≠ CallListComputeZones o)
            ∧ ∀ infraID ic computePool imageID role userData,
                c = CallMachineSets infraID ic computePool imageID role userData →
                ∃ gcp, installertypes.Platform_GCP computePool = Some gcp
                       ∧ installertypes.Zones gcp = Zones poolGCP).
  { intros name s1 c Hpool1 Hc.
    destruct (machineSetsFor_shape a pages cd cv name s1 md cdGCP poolGCP Hmd Hcd Hpool1)
      as (_ & zoneQueries & _ & Hnone & [[Hcalls _]|Hgo]); cbn zeta in *.
    - rewrite Hcalls, (Hnone Hzones) in Hc. apply list_elem_of_singleton in Hc as ->.
      by split.
    - destruct Hgo as (zones & imageID & userData & _ & Hsame & Hcalls & _).
      rewrite Hcalls, (Hnone Hzones), (Hsame Hzones) in Hc.
      apply elem_of_cons in Hc as [->|Hc]; [by split|].
      apply list_elem_of_singleton in Hc as ->. split; [done|].
      intros infraID ic computePool imageID' role userData' [= _ _ <- _ _ _].
      by eexists. }
  destruct Hpath as [(c & HL & HG)|[(Hcalls & _ & _)|(_ & _ & HG)]].
  - rewrite HG in Hin. cbn [after calls] in Hin.
    apply elem_of_cons in Hin as [->|Hin]; [by split|].
    apply elem_of_app in Hin as [Hin|Hin].
    + destruct (Hlease _ Hin) as [Hno Hnot]. split; [done|].
      intros infraID ic computePool imageID role userData Heq. by destruct (Hnot _ _ _ _ _ _ Heq).
    + apply (Hbuild c (final (obtainLease w cd leases s))); [|done].
      destruct (obtainLease_final w cd leases s) as [[conds ->] _]. done.
  - rewrite Hcalls in Hin.
    apply elem_of_cons in Hin as [->|Hin]; [by split|].
    destruct (Hlease _ Hin) as [Hno Hnot]. split; [done|].
    intros infraID ic computePool imageID role userData Heq. by destruct (Hnot _ _ _ _ _ _ Heq).
  - rewrite HG in Hin. cbn [after calls] in Hin.
    apply elem_of_cons in Hin as [->|Hin]; [by split|].
    by apply (Hbuild (Spec_Name (pool s)) s).
Qed.

(** X16. Whatever happens, [GenerateMachineSets] leaves the machine pool as
    it was except for its status conditions, and leaves the expectations of
    every other key as they were. *)
Theorem GenerateMachineSets_keeps a pages cd s :
  let G := GenerateMachineSets w a pages cd s in
  (∃ conds, pool (final G) = pool (withConditions s conds))
  ∧ ∀ key, key ≠ expectationKey s →
      expectations (final G) !! key = expectations s !! key.
Proof.
  intros G. subst G.
  destruct (GenerateMachineSets_shape a pages cd s)
    as [(e & _ & Hfinal & _)
       |(md & cdGCP & poolGCP & cv & leases & Hmd & Hcd & Hpool & Hlist & Hpath)];
    cbn zeta in *.
  { rewrite Hfinal. split; [eexists; apply pool_withConditions|done]. }
  destruct Hpath as [(c & HL & HG)|[(_ & Hfinal & _)|(_ & _ & HG)]].
  - rewrite HG. cbn [after final].
    assert (Hpool1 : Spec_Platform_GCP (pool (final (obtainLease w cd leases s)))
                     = Some poolGCP).
    { destruct (obtainLease_final w cd leases s) as [[conds ->] _]. done. }
    destruct (machineSetsFor_shape a pages cd cv c _ md cdGCP poolGCP Hmd Hcd Hpool1)
      as (-> & _).
    apply obtainLease_final.
  - rewrite Hfinal. apply obtainLease_final.
  - rewrite HG. cbn [after final].
    destruct (machineSetsFor_shape a pages cd cv (Spec_Name (pool s)) s md cdGCP poolGCP
                Hmd Hcd Hpool) as (-> & _).
    split; [eexists; apply pool_withConditions|done].
Qed.

End Build.

(** ** Deploying Hive *)

Section Deploy.

Import Operator.

Context (HiveImageEnvVar : string) (w : Operator.World).

Lemma applyAll_succeeds assets :
  Forall (λ a, ApplyAsset w a = None) assets →
  applyAll w assets = (None, map CallApplyAsset assets).
Proof.
  induction 1 as [|a rest Ha _ IH]; simpl; [done|]. by rewrite Ha, IH.
Qed.

Lemma applyAll_fails applied failing rest e :
  Forall (λ a, ApplyAsset w a = None) applied →
  ApplyAsset w failing = Some e →
  applyAll w (applied ++ failing :: rest)
  = (Some e, map CallApplyAsset (applied ++ [failing])).
Proof.
  intros Happlied Hfailing.
  induction Happlied as [|a applied Ha _ IH]; simpl; [by rewrite Hfailing|].
  by rewrite Ha, IH.
Qed.

Lemma removeAll_succeeds names :
  Forall (λ n, (∀ e, Get w n ≠ GetFailed e) ∧ (Get w n = Found → Delete w n = None)) names →
  removeAll w names = (None, removalCalls w names).
Proof.
  unfold removalCalls.
  induction 1 as [|n rest [Hget Hdelete] _ IH]; simpl; [done|].
  destruct (Get w n) as [|e|e]; [|by rewrite IH|by destruct (Hget e)].
  by rewrite Hdelete, IH.
Qed.

Lemma removeAll_fails before n rest e :
  Forall (λ n, (∀ e, Get w n ≠ GetFailed e) ∧ (Get w n = Found → Delete w n = None)) before →
  Get w n = GetFailed e ∨ (Get w n = Found ∧ Delete w n = Some e) →
  removeAll w (before ++ n :: rest)
  = (Some e, removalCalls w (before ++ [n])).
Proof.
  unfold removalCalls. intros Hbefore Hn.
  induction Hbefore as [|n' before [Hget Hdelete] _ IH]; simpl.
  - destruct Hn as [->|[-> ->]]; done.
  - destruct (Get w n') as [|e'|e']; [|by rewrite IH|by destruct (Hget e')].
    by rewrite Hdelete, IH.
Qed.

(** X17. The assets are applied in the order of the list, after the
    deployment; when one cannot be applied, [deployHive] returns its error at
    once: no later asset is applied and no image set is looked at. *)
Theorem deployHive_asset_failure d answer applied failing rest e :
  prepareDeployment HiveImageEnvVar w = Some d →
  ApplyRuntimeObject w d = Ok answer →
  applyAssets = applied ++ failing :: rest →
  Forall (λ a, ApplyAsset w a = None) applied →
  ApplyAsset w failing = Some e →
  deployHive HiveImageEnvVar w =
    (Returns (Some e),
     CallApplyRuntimeObject d :: map CallApplyAsset (applied ++ [failing])).
Proof.
  intros Hd Hanswer Hassets Happlied Hfailing.
  unfold deployHive. rewrite Hd, Hanswer, Hassets.
  by rewrite (applyAll_fails applied failing rest e).
Qed.

(** X18. When the deployment and all assets are applied, each legacy image
    set is looked up in turn; one that is not found is passed over, which is
    no error, and one that is found is deleted right after its lookup.
    [deployHive] then returns nil. *)
Theorem deployHive_succeeds d answer :
  prepareDeployment HiveImageEnvVar w = Some d →
  ApplyRuntimeObject w d = Ok answer →
  Forall (λ a, ApplyAsset w a = None) applyAssets →
  Forall (λ n, (∀ e, Get w n ≠ GetFailed e) ∧ (Get w n = Found → Delete w n = None))
    removeImageSets →
  deployHive HiveImageEnvVar w =
    (Returns None,
     CallApplyRuntimeObject d :: map CallApplyAsset applyAssets
     ++ removalCalls w removeImageSets).
Proof.
  intros Hd Hanswer Hassets Hsets.
  unfold deployHive. rewrite Hd, Hanswer.
  by rewrite (applyAll_succeeds _ Hassets), (removeAll_succeeds _ Hsets).
Qed.

(** X19. When the lookup of a legacy image set fails with an error other
    than not found, or its deletion fails, [deployHive] returns that error
    at once and does not look at the image sets after it. *)
Theorem deployHive_removal_failure d answer before n rest e :
  prepareDeployment HiveImageEnvVar w = Some d →
  ApplyRuntimeObject w d = Ok answer →
  Forall (λ a, ApplyAsset w a = None) applyAssets →
  removeImageSets = before ++ n :: rest →
  Forall (λ n, (∀ e, Get w n ≠ GetFailed e) ∧ (Get w n = Found → Delete w n = None))
    before →
  Get w n = GetFailed e ∨ (Get w n = Found ∧ Delete w n = Some e) →
  deployHive HiveImageEnvVar w =
    (Returns (Some e),
     CallApplyRuntimeObject d :: map CallApplyAsset applyAssets
     ++ removalCalls w (before ++ [n])).
Proof.
  intros Hd Hanswer Hassets Hsets Hbefore Hn.
  unfold deployHive. rewrite Hd, Hanswer, Hsets.
  by rewrite (applyAll_succeeds _ Hassets), (removeAll_fails before n rest e).
Qed.

(** X20. The deployment that is applied is the one of the asset with only
    its first container changed: the image is that of the operator when one
    is set, and the environment keeps its variables and gains, at the end,
    the image variable when an image is set and then the DNS servers
    variable when [ZONE_CHECK_DNS_SERVERS] is set in the environment. *)
Theorem prepareDeployment_first_container d c cs :
  deploymentAsset w = Some d →
  Containers d = c :: cs →
  let servers := Getenv w "ZONE_CHECK_DNS_SERVERS" in
  prepareDeployment HiveImageEnvVar w =
    Some {| Containers :=
              {| Image := if decide (hiveImage w = EmptyString) then Image c
                          else hiveImage w;
                 Env := Env c
                        ++ (if decide (hiveImage w = EmptyString) then []
                            else [ {| EnvName := HiveImageEnvVar;
                                      EnvValue := hiveImage w |} ])
                        ++ (if decide (servers = EmptyString) then []
                            else [ {| EnvName := "ZONE_CHECK_DNS_SERVERS";
                                      EnvValue := servers |} ]) |}
              :: cs |}.
Proof.
  intros Hasset Hcontainers servers. unfold prepareDeployment. rewrite Hasset.
  change (Getenv w dnsServersEnvVar) with servers.
  assert (Hlen : ∀ x : string, 0 < String.length x ↔ x ≠ EmptyString).
  { intros [|? ?]; simpl; split; try done; lia. }
  destruct d as [containers]. cbn in Hcontainers. subst containers.
  destruct c as [image env].
  destruct (decide (hiveImage w = EmptyString)) as [Himage|Himage].
  - rewrite decide_False by (intros Hne; by apply Hne).
    destruct (decide (servers = EmptyString)) as [Hservers|Hservers].
    + rewrite decide_False by (rewrite Hlen; intros Hne; by apply Hne).
      cbn. by rewrite ?app_nil_r.
    + rewrite decide_True by by apply Hlen. by unfold appendEnv.
  - rewrite decide_True by done. unfold onFirstContainer, setImage. cbn.
    destruct (decide (servers = EmptyString)) as [Hservers|Hservers].
    + rewrite decide_False by (rewrite Hlen; intros Hne; by apply Hne).
      by rewrite ?app_nil_r.
    + rewrite decide_True by by apply Hlen. unfold appendEnv, setImage. cbn.
      by rewrite <- ?app_assoc.
Qed.

(** X21. A deployment without containers makes [deployHive] panic, before
    anything is applied, as soon as an image or the DNS servers are to be
    set; without either it is applied as it is. *)
Theorem deployHive_no_container d :
  deploymentAsset w = Some d →
  Containers d = [] →
  (hiveImage w ≠ EmptyString ∨ Getenv w "ZONE_CHECK_DNS_SERVERS" ≠ EmptyString →
   deployHive HiveImageEnvVar w = (Panics, []))
  ∧ (hiveImage w = EmptyString → Getenv w "ZONE_CHECK_DNS_SERVERS" = EmptyString →
     prepareDeployment HiveImageEnvVar w = Some d).
Proof.
  intros Hasset Hcontainers.
  assert (Hlen : ∀ x : string, 0 < String.length x ↔ x ≠ EmptyString).
  { intros [|? ?]; simpl; split; try done; lia. }
  destruct d as [containers]. cbn in Hcontainers. subst containers.
  unfold deployHive, prepareDeployment. rewrite Hasset.
  change (Getenv w dnsServersEnvVar) with (Getenv w "ZONE_CHECK_DNS_SERVERS").
  unfold onFirstContainer.
  split.
  - intros Hset. case_decide as Himage; [done|].
    destruct Hset as [?|Hservers]; [done|].
    by rewrite decide_True by by apply Hlen.
  - intros Himage Hservers.
    rewrite decide_False by (intros Hne; by apply Hne).
    rewrite decide_False; [done|]. rewrite Hlen. intros Hne. by apply Hne.
Qed.

End Deploy.

(** ** The further properties on the sample *)

Lemma findAvailableLeaseChars_available_witness :
  let leases := [Sample.lease "abc123-a" "mycluster-worker"] in
  identified (pkg := Sample.package) Sample.cluster leases
  ∧ ∃ keys,
      findAvailableLeaseChars (pkg := Sample.package) (Sample.calm leases) Sample.cluster
        leases (Sample.state "infra")
      = {| returned := Returns (keys, None); final := Sample.state "infra"; calls := [] |}
      ∧ NoDup keys
      ∧ ∀ r, r ∈ keys ↔
             r ∈ runes validLeaseChars
             ∧ ¬ claimedBy (pkg := Sample.package) Sample.cluster leases r.
Proof.
  intros leases.
  assert (Hnamed : identified (pkg := Sample.package) Sample.cluster leases).
  { unfold identified, ofCluster. apply (bool_decide_unpack _). by vm_compute. }
  split; [exact Hnamed|].
  exact (findAvailableLeaseChars_available (pkg := Sample.package) (Sample.calm leases)
           Sample.cluster leases (Sample.state "infra") Hnamed).
Defined.

Lemma findAvailableLeaseChars_unnamed_witness :
  let leases := [Sample.lease "abc123-a" "mycluster-worker";
                 Sample.lease EmptyString "mycluster-other"] in
  Exists (λ l, ofCluster (pkg := Sample.package) Sample.cluster l
               ∧ hivev1.lease_Name l = EmptyString) leases
  ∧ findAvailableLeaseChars (pkg := Sample.package) (Sample.calm leases) Sample.cluster
      leases (Sample.state "infra")
    = {| returned := Panics; final := Sample.state "infra"; calls := [] |}.
Proof.
  intros leases.
  assert (Hex : Exists (λ l, ofCluster (pkg := Sample.package) Sample.cluster l
                             ∧ hivev1.lease_Name l = EmptyString) leases).
  { apply Exists_cons_tl, Exists_cons_hd. split; reflexivity. }
  split; [exact Hex|].
  exact (findAvailableLeaseChars_unnamed (pkg := Sample.package) (Sample.calm leases)
           Sample.cluster leases (Sample.state "infra") Hex).
Defined.

Lemma findAvailableLeaseChars_other_clusters_witness :
  let foreign :=
    {| hivev1.lease_Name := "xyz789-a"; hivev1.lease_Namespace := "ns";
       hivev1.lease_Labels :=
         <[ClusterDeploymentNameLabel (Package := Sample.package) := "othercluster"]> ∅;
       hivev1.lease_OwnerReferences := [] |} in
  Forall (λ l, ¬ ofCluster (pkg := Sample.package) Sample.cluster l) [foreign]
  ∧ ∃ keys,
      returned (findAvailableLeaseChars (pkg := Sample.package) (Sample.calm [foreign])
                  Sample.cluster [foreign] (Sample.state "infra"))
      = Returns (keys, None)
      ∧ keys ≡ₚ runes validLeaseChars.
Proof.
  intros foreign.
  assert (Hother : Forall (λ l, ¬ ofCluster (pkg := Sample.package) Sample.cluster l)
                     [foreign]).
  { apply Forall_singleton. unfold ofCluster. vm_compute. discriminate. }
  split; [exact Hother|].
  exact (findAvailableLeaseChars_other_clusters (pkg := Sample.package)
           (Sample.calm [foreign]) Sample.cluster [foreign] (Sample.state "infra") Hother).
Defined.

Lemma obtainLease_keeps_witness :
  let s := Sample.state "infra" in
  let R := obtainLease (pkg := Sample.package) (Sample.calm []) Sample.cluster [] s in
  "ns/mycluster-other" ≠ expectationKey s
  ∧ expectations (final R) !! "ns/mycluster-other" = expectations s !! "ns/mycluster-other".
Proof.
  intros s R.
  assert (Hne : "ns/mycluster-other" ≠ expectationKey s) by discriminate.
  split; [exact Hne|].
  exact (proj2 (obtainLease_keeps (pkg := Sample.package) (Sample.calm []) Sample.cluster
                  [] s) "ns/mycluster-other" Hne).
Defined.

Lemma created_lease_found_witness :
  let w := Sample.calm [] in
  let s := Sample.state "infra" in
  let l := newLease (pkg := Sample.package) (pool s) Sample.cluster "abc123-3" in
  CallCreate l ∈ calls (obtainLease (pkg := Sample.package) w Sample.cluster [] s)
  ∧ client_Create w l = None
  ∧ ∃ c, returned (obtainLease (pkg := Sample.package) w Sample.cluster [] s)
         = Returns (c, false, None)
         ∧ ∀ (w' : World) s' before after,
             hivev1.Name (pool s') = hivev1.Name (pool s) →
             Forall (λ l', ¬ ofPool (pkg := Sample.package) (hivev1.Name (pool s')) l')
               before →
             obtainLease (pkg := Sample.package) w' Sample.cluster (before ++ l :: after) s'
             = {| returned := Returns (c, true, None); final := s'; calls := [] |}.
Proof.
  intros w s l.
  assert (Hin : CallCreate l
                ∈ calls (obtainLease (pkg := Sample.package) w Sample.cluster [] s)).
  { vm_compute. apply list_elem_of_further, list_elem_of_here. }
  split; [exact Hin|]. split; [reflexivity|].
  exact (created_lease_found (pkg := Sample.package) w Sample.cluster [] s l Hin eq_refl).
Defined.

Lemma created_name_not_visible_witness :
  let visible := Sample.lease "abc123-3" "mycluster-other" in
  let w := Sample.calm [visible] in
  let s := Sample.state "infra" in
  let l := newLease (pkg := Sample.package) (pool s) Sample.cluster "abc123-c" in
  CallCreate l ∈ calls (obtainLease (pkg := Sample.package) w Sample.cluster [visible] s)
  ∧ hivev1.Spec_Name (pool s) ≠ "worker"
  ∧ visible ∈ [visible]
  ∧ ofCluster (pkg := Sample.package) Sample.cluster visible
  ∧ hivev1.lease_Name l ≠ hivev1.lease_Name visible.
Proof.
  intros visible w s l.
  assert (Hin : CallCreate l
                ∈ calls (obtainLease (pkg := Sample.package) w Sample.cluster [visible] s)).
  { vm_compute. apply list_elem_of_further, list_elem_of_here. }
  assert (Hworker : hivev1.Spec_Name (pool s) ≠ "worker") by discriminate.
  assert (Hvisible : visible ∈ [visible]) by apply list_elem_of_here.
  assert (Hcluster : ofCluster (pkg := Sample.package) Sample.cluster visible)
    by reflexivity.
  split; [exact Hin|]. split; [exact Hworker|]. split; [exact Hvisible|].
  split; [exact Hcluster|].
  exact (created_name_not_visible (pkg := Sample.package) w Sample.cluster [visible] s l
           visible Hin Hworker Hvisible Hcluster).
Defined.

Lemma GenerateMachineSets_validation_witness :
  let cd := {| hivev1.cd_Name := "mycluster"; hivev1.cd_Labels := ∅;
               hivev1.Spec_ClusterMetadata := None;
               hivev1.Spec_Platform_GCP_ := Some {| hivev1.Region := "us-east1" |} |} in
  let s := Sample.state "infra" in
  hivev1.Spec_ClusterMetadata cd = None
  ∧ ∃ e, GenerateMachineSets (pkg := Sample.package) (Sample.calm []) (Sample.actuator true)
           5 cd s
         = {| returned := Returns ([], false, Some e); final := s; calls := [] |}
         ∧ (hivev1.Spec_ClusterMetadata cd = None →
            e = "ClusterDeployment does not have cluster metadata").
Proof.
  intros cd s. split; [reflexivity|].
  exact (GenerateMachineSets_validation (pkg := Sample.package) (Sample.calm [])
           (Sample.actuator true) 5 cd s (or_introl eq_refl)).
Defined.

Lemma GenerateMachineSets_ready_witness :
  let w := Sample.calm [Sample.lease "abc123-k" "mycluster-infra"] in
  let G := GenerateMachineSets (pkg := Sample.package) w (Sample.actuator false) 5
             Sample.cluster (Sample.state "infra") in
  let sets := [Sample.machineSet "abc123-k-us-east1-b";
               Sample.machineSet "abc123-k-us-east1-c";
               Sample.machineSet "abc123-k-us-east1-d"] in
  returned G = Returns (sets, true, None)
  ∧ ∃ before infraID ic computePool imageID userData,
      calls G = before ++ [CallMachineSets infraID ic computePool imageID
                             (workerRole (Package := Sample.package)) userData]
      ∧ installgcp_MachineSets (Package := Sample.package) infraID ic computePool imageID
          (workerRole (Package := Sample.package)) userData = (sets, None).
Proof.
  intros w G sets.
  assert (Hret : returned G = Returns (sets, true, None)) by by vm_compute.
  split; [exact Hret|].
  destruct (GenerateMachineSets_ready (pkg := Sample.package) w (Sample.actuator false) 5
              Sample.cluster (Sample.state "infra") sets None Hret)
    as (_ & md & cdGCP & poolGCP & before & poolName & zones & imageID & userData
        & _ & _ & _ & _ & Hcalls & Hinstall).
  eexists before, _, _, _, imageID, userData. split; [exact Hcalls|exact Hinstall].
Defined.

Lemma GenerateMachineSets_waiting_witness :
  let w := Sample.calm [] in
  let s := Sample.state "infra" in
  let G := GenerateMachineSets (pkg := Sample.package) w (Sample.actuator true) 5
             Sample.cluster s in
  returned G = Returns ([], false, None)
  ∧ ∃ leases c,
      returned (obtainLease (pkg := Sample.package) w Sample.cluster leases s)
      = Returns (c, false, None)
      ∧ Forall isLeaseCall
          (calls (obtainLease (pkg := Sample.package) w Sample.cluster leases s)).
Proof.
  intros w s G.
  assert (Hret : returned G = Returns ([], false, None)) by by vm_compute.
  split; [exact Hret|].
  destruct (GenerateMachineSets_waiting (pkg := Sample.package) w (Sample.actuator true) 5
              Sample.cluster s [] Hret)
    as (_ & leases & c & _ & HL & _ & Hcalls).
  exists leases, c. split; [exact HL|exact Hcalls].
Defined.

Lemma GenerateMachineSets_pool_zones_witness :
  let poolGCP := {| hivev1.Zones := ["us-east1-x"];
                    hivev1.InstanceType := "n1-standard-4" |} in
  let s := {| pool := {| hivev1.Name := "mycluster-infra"; hivev1.Namespace := "ns";
                         hivev1.UID := "uid-1"; hivev1.Spec_Name := "infra";
                         hivev1.Spec_Replicas := Some 3%Z;
                         hivev1.Spec_Platform_GCP := Some poolGCP;
                         hivev1.Status_Conditions := [] |};
              expectations := ∅ |} in
  let G := GenerateMachineSets (pkg := Sample.package) (Sample.calm [])
             (Sample.actuator false) 5 Sample.cluster s in
  hivev1.Spec_Platform_GCP (pool s) = Some poolGCP
  ∧ hivev1.Zones poolGCP ≠ []
  ∧ (∀ o, CallListComputeZones o ∉ calls G)
  ∧ returned G = Returns ([Sample.machineSet "abc123-infra-us-east1-x"], true, None).
Proof.
  intros poolGCP s G.
  assert (Hzones : hivev1.Zones poolGCP ≠ []) by discriminate.
  split; [reflexivity|]. split; [exact Hzones|].
  split; [|by vm_compute].
  exact (proj1 (GenerateMachineSets_pool_zones (pkg := Sample.package) (Sample.calm [])
                  (Sample.actuator false) 5 Sample.cluster s poolGCP eq_refl Hzones)).
Defined.

Lemma GenerateMachineSets_keeps_witness :
  let s := Sample.state "infra" in
  let G := GenerateMachineSets (pkg := Sample.package) (Sample.calm [])
             (Sample.actuator true) 5 Sample.cluster s in
  "ns/mycluster-other" ≠ expectationKey s
  ∧ expectations (final G) !! "ns/mycluster-other" = expectations s !! "ns/mycluster-other".
Proof.
  intros s G.
  assert (Hne : "ns/mycluster-other" ≠ expectationKey s) by discriminate.
  split; [exact Hne|].
  exact (proj2 (GenerateMachineSets_keeps (pkg := Sample.package) (Sample.calm [])
                  (Sample.actuator true) 5 Sample.cluster s) "ns/mycluster-other" Hne).
Defined.

Lemma deployHive_asset_failure_witness :
  let failing := "config/rbac/hive_reader_role.yaml" in
  let w := Operator.sampleWorld failing in
  let applied := take 4 Operator.applyAssets in
  let rest := drop 5 Operator.applyAssets in
  ∃ d, Operator.prepareDeployment "HIVE_IMAGE" w = Some d
       ∧ Operator.ApplyRuntimeObject w d = Ok "configured"
       ∧ Operator.applyAssets = applied ++ failing :: rest
       ∧ Forall (λ a, Operator.ApplyAsset w a = None) applied
       ∧ Operator.ApplyAsset w failing = Some "forbidden"
       ∧ Operator.deployHive "HIVE_IMAGE" w =
           (Returns (Some "forbidden"),
            Operator.CallApplyRuntimeObject d
            :: map Operator.CallApplyAsset (applied ++ [failing])).
Proof.
  intros failing w applied rest.
  destruct (Operator.prepareDeployment "HIVE_IMAGE" w) as [d|] eqn:Hd; [|discriminate].
  exists d.
  assert (Happlied : Forall (λ a, Operator.ApplyAsset w a = None) applied).
  { apply (bool_decide_unpack _). by vm_compute. }
  split; [reflexivity|]. split; [reflexivity|]. split; [reflexivity|].
  split; [exact Happlied|]. split; [reflexivity|].
  exact (deployHive_asset_failure "HIVE_IMAGE" w d "configured" applied failing rest
           "forbidden" Hd eq_refl eq_refl Happlied eq_refl).
Defined.

Lemma deployHive_succeeds_witness :
  let w := Operator.sampleWorld "none" in
  ∃ d, Operator.prepareDeployment "HIVE_IMAGE" w = Some d
       ∧ Forall (λ a, Operator.ApplyAsset w a = None) Operator.applyAssets
       ∧ Operator.deployHive "HIVE_IMAGE" w =
           (Returns None,
            Operator.CallApplyRuntimeObject d
            :: map Operator.CallApplyAsset Operator.applyAssets
            ++ [Operator.CallGet "openshift-v4.0-beta3";
                Operator.CallDelete "openshift-v4.0-beta3";
                Operator.CallGet "openshift-v4.0-beta4"]).
Proof.
  intros w.
  destruct (Operator.prepareDeployment "HIVE_IMAGE" w) as [d|] eqn:Hd; [|discriminate].
  exists d.
  assert (Hassets : Forall (λ a, Operator.ApplyAsset w a = None) Operator.applyAssets).
  { apply (bool_decide_unpack _). by vm_compute. }
  assert (Hsets : Forall (λ n, (∀ e, Operator.Get w n ≠ Operator.GetFailed e)
                               ∧ (Operator.Get w n = Operator.Found →
                                  Operator.Delete w n = None))
                    Operator.removeImageSets).
  { repeat apply Forall_cons_2; [| |apply Forall_nil_2]; by split. }
  split; [reflexivity|]. split; [exact Hassets|].
  exact (deployHive_succeeds "HIVE_IMAGE" w d "configured" Hd eq_refl Hassets Hsets).
Defined.

Lemma deployHive_removal_failure_witness :
  let w := {| Operator.hiveImage := EmptyString;
              Operator.Getenv := fun _ => EmptyString;
              Operator.deploymentAsset := Some Operator.sampleDeployment;
              Operator.ApplyRuntimeObject := fun _ => Ok "configured";
              Operator.ApplyAsset := fun _ => None;
              Operator.Get := fun _ => Operator.GetFailed "timeout";
              Operator.Delete := fun _ => None |} in
  Operator.prepareDeployment "HIVE_IMAGE" w = Some Operator.sampleDeployment
  ∧ Operator.removeImageSets = [] ++ "openshift-v4.0-beta3" :: ["openshift-v4.0-beta4"]
  ∧ Operator.Get w "openshift-v4.0-beta3" = Operator.GetFailed "timeout"
  ∧ Operator.deployHive "HIVE_IMAGE" w =
      (Returns (Some "timeout"),
       Operator.CallApplyRuntimeObject Operator.sampleDeployment
       :: map Operator.CallApplyAsset Operator.applyAssets
       ++ [Operator.CallGet "openshift-v4.0-beta3"]).
Proof.
  intros w.
  assert (Hassets : Forall (λ a, Operator.ApplyAsset w a = None) Operator.applyAssets).
  { apply Forall_forall. by intros a _. }
  split; [reflexivity|]. split; [reflexivity|]. split; [reflexivity|].
  exact (deployHive_removal_failure "HIVE_IMAGE" w Operator.sampleDeployment "configured"
           [] "openshift-v4.0-beta3" ["openshift-v4.0-beta4"] "timeout"
           eq_refl eq_refl Hassets eq_refl (Forall_nil_2 _) (or_introl eq_refl)).
Defined.

Lemma prepareDeployment_first_container_witness :
  let w := Operator.sampleWorld "none" in
  let manager := {| Operator.Image := "hive:latest";
                    Operator.Env := [ {| Operator.EnvName := "LOG_LEVEL";
                                         Operator.EnvValue := "debug" |} ] |} in
  let sidecar := {| Operator.Image := "sidecar:1"; Operator.Env := [] |} in
  Operator.deploymentAsset w = Some Operator.sampleDeployment
  ∧ Operator.Containers Operator.sampleDeployment = manager :: [sidecar]
  ∧ Operator.prepareDeployment "HIVE_IMAGE" w =
      Some {| Operator.Containers :=
                [ {| Operator.Image := "quay.io/hive:v1";
                     Operator.Env :=
                       [ {| Operator.EnvName := "LOG_LEVEL"; Operator.EnvValue := "debug" |};
                         {| Operator.EnvName := "HIVE_IMAGE";
                            Operator.EnvValue := "quay.io/hive:v1" |};
                         {| Operator.EnvName := "ZONE_CHECK_DNS_SERVERS";
                            Operator.EnvValue := "8.8.8.8" |} ] |};
                  sidecar ] |}.
Proof.
  intros w manager sidecar.
  split; [reflexivity|]. split; [reflexivity|].
  exact (prepareDeployment_first_container "HIVE_IMAGE" w Operator.sampleDeployment
           manager [sidecar] eq_refl eq_refl).
Defined.

Lemma deployHive_no_container_witness :
  let d := {| Operator.Containers := [] |} in
  let w := {| Operator.hiveImage := "quay.io/hive:v1";
              Operator.Getenv := fun _ => EmptyString;
              Operator.deploymentAsset := Some d;
              Operator.ApplyRuntimeObject := fun _ => Ok "configured";
              Operator.ApplyAsset := fun _ => None;
              Operator.Get := fun _ => Operator.Found;
              Operator.Delete := fun _ => None |} in
  Operator.deploymentAsset w = Some d
  ∧ Operator.Containers d = []
  ∧ Operator.hiveImage w ≠ EmptyString
  ∧ Operator.deployHive "HIVE_IMAGE" w = (Panics, []).
Proof.
  intros d w.
  assert (Himage : Operator.hiveImage w ≠ EmptyString) by discriminate.
  split; [reflexivity|]. split; [reflexivity|]. split; [exact Himage|].
  exact (proj1 (deployHive_no_container "HIVE_IMAGE" w d eq_refl eq_refl)
           (or_introl Himage)).
Defined.
